(** * gocui edit.go: the text-buffer editing core of a View

    A shallow embedding of [edit.go] (package gocui) and the proofs of the
    properties its specification states about it.

    Modelling conventions.
    - Go's [int] is modelled by [Z].  Every [int] of edit.go is a cursor or
      screen coordinate, a slice length, or one of these plus or minus 1
      or 2.  A slice is modelled by the list of its elements, whose length
      the model does not bound; the development therefore lives in the
      idealisation where neither memory nor the range of [int] is
      exhausted, and [+] and [-] are those of [Z].  The range of [int]
      is within reach of a caller in one place: [MoveCursor] adds deltas
      of the caller's choice to the cursor.  [MoveCursor64] is that
      function with the wrap-around arithmetic of a 64-bit [int], and the
      column resolution is stated of it.
    - A [*View] receiver is explicit state: every method is a computation in
      the monad [M], which threads the [View] and records a run-time panic
      (index or slice bound out of range) with the state reached so far.
    - Each line of the buffer owns its backing array (see the remark before
      [writeRune]), so the contents of the slices are all that the functions
      of this file can observe.
    - [for] loops carry a fuel argument that counts iterations. *)

From stdpp Require Import base list.
From Stdlib Require Import ZArith Lia Bool.

Local Open Scope Z_scope.

(** ** Data model *)

(** [rune] is Go's alias of [int32]; edit.go only stores runes and compares
    them with 0. *)
Definition rune := Z.

(** Modelled from the spec: the colour attributes of a Cell and the
    modifier bit-set of a key event are integer types declared outside
    edit.go. *)
Definition Attribute := Z.
Definition Modifier := Z.

(** Modelled from the spec: [cell] is declared in view.go.  The spec's
    Styled Character is a code point with a foreground and a background
    colour; edit.go names the fields [fgColor], [bgColor] and [chr]. *)
Record cell : Type := mkCell {
  fgColor : Attribute;
  bgColor : Attribute;
  chr : rune
}.

(** The zero value of [cell], as produced by [make([]cell, n)]. *)
Definition zeroCell : cell := mkCell 0 0 0.

(** Modelled from the spec: the [View] struct is declared in view.go.
    These are the fields that edit.go reads or writes: the Cell Buffer
    ([lines]), the Cursor ([cx], [cy]), the Viewport Offset ([ox], [oy]),
    the mode flags [Overwrite] and [Wrap], the dirty flag ([tainted]) and
    the colours given to the cells written. *)
Record View : Type := mkView {
  lines : list (list cell);
  cx : Z;
  cy : Z;
  ox : Z;
  oy : Z;
  Overwrite : bool;
  Wrap : bool;
  tainted : bool;
  FgColor : Attribute;
  BgColor : Attribute
}.

Definition set_lines (ls : list (list cell)) (v : View) : View :=
  mkView ls (cx v) (cy v) (ox v) (oy v) (Overwrite v) (Wrap v) (tainted v)
         (FgColor v) (BgColor v).
Definition set_cx (x : Z) (v : View) : View :=
  mkView (lines v) x (cy v) (ox v) (oy v) (Overwrite v) (Wrap v) (tainted v)
         (FgColor v) (BgColor v).
Definition set_cy (y : Z) (v : View) : View :=
  mkView (lines v) (cx v) y (ox v) (oy v) (Overwrite v) (Wrap v) (tainted v)
         (FgColor v) (BgColor v).
Definition set_ox (x : Z) (v : View) : View :=
  mkView (lines v) (cx v) (cy v) x (oy v) (Overwrite v) (Wrap v) (tainted v)
         (FgColor v) (BgColor v).
Definition set_oy (y : Z) (v : View) : View :=
  mkView (lines v) (cx v) (cy v) (ox v) y (Overwrite v) (Wrap v) (tainted v)
         (FgColor v) (BgColor v).
Definition set_Overwrite (b : bool) (v : View) : View :=
  mkView (lines v) (cx v) (cy v) (ox v) (oy v) b (Wrap v) (tainted v)
         (FgColor v) (BgColor v).
Definition set_tainted (b : bool) (v : View) : View :=
  mkView (lines v) (cx v) (cy v) (ox v) (oy v) (Overwrite v) (Wrap v) b
         (FgColor v) (BgColor v).

(** [errors.New("invalid point")] is the only error of the file. *)
Inductive error : Type := InvalidPoint.

(** ** The monad of View methods *)

(** A call returns normally with a value and the new state, panics (the
    state at the panic is kept: the receiver is a pointer), or exceeds the
    fuel given to one of its loops. *)
Inductive Res (A : Type) : Type :=
| Ok (a : A) (v : View)
| Panic (v : View)
| OutOfFuel.
Arguments Ok {A} a v.
Arguments Panic {A} v.
Arguments OutOfFuel {A}.

Definition M (A : Type) : Type := View -> Res A.

Definition ret {A} (a : A) : M A := fun v => Ok a v.
Definition bind {A B} (m : M A) (k : A -> M B) : M B :=
  fun v => match m v with
           | Ok a v' => k a v'
           | Panic v' => Panic v'
           | OutOfFuel => OutOfFuel
           end.
Definition get : M View := fun v => Ok v v.
Definition modify (f : View -> View) : M unit := fun v => Ok tt (f v).
Definition panic {A} : M A := fun v => Panic v.
Definition out_of_fuel {A} : M A := fun _ => OutOfFuel.

Declare Scope go_scope.
Delimit Scope go_scope with go.
Notation "x <- c ;; k" := (bind c (fun x => k))
  (at level 100, c at next level, right associativity) : go_scope.
Notation "c ;;; k" := (bind c (fun _ => k))
  (at level 100, right associativity) : go_scope.
Local Open Scope go_scope.

(** The state a computation ends in, whatever its outcome (the state it
    started from when it ran out of fuel). *)
Definition final {A} (m : M A) (v : View) : View :=
  match m v with
  | Ok _ v' => v'
  | Panic v' => v'
  | OutOfFuel => v
  end.

(** ** Go slices *)

Definition len {A} (l : list A) : Z := Z.of_nat (length l).

(** [l[i]] as an r-value: panics when [i] is out of range. *)
Definition index {A} (l : list A) (i : Z) : M A :=
  if (i <? 0) || (i >=? len l) then panic
  else match l !! Z.to_nat i with
       | Some a => ret a
       | None => panic
       end.

(** [l[i] = a]: panics when [i] is out of range. *)
Definition store {A} (l : list A) (i : Z) (a : A) : M (list A) :=
  if (i <? 0) || (i >=? len l) then panic
  else ret (<[Z.to_nat i := a]> l).

(** [l[i:]] and [l[:i]]; within this file the bounds never exceed [len l]. *)
Definition slice_from {A} (l : list A) (i : Z) : M (list A) :=
  if (i <? 0) || (i >? len l) then panic else ret (drop (Z.to_nat i) l).
Definition slice_to {A} (l : list A) (i : Z) : M (list A) :=
  if (i <? 0) || (i >? len l) then panic else ret (take (Z.to_nat i) l).

(** [make([]T, n)]: [n] zero values; panics on a negative length. *)
Definition make {A} (zero : A) (n : Z) : M (list A) :=
  if n <? 0 then panic else ret (replicate (Z.to_nat n) zero).

(** [copy(dst, src)]: the contents of [dst] afterwards.  Go copies
    [min(len(dst), len(src))] elements and handles overlap as memmove. *)
Definition copy {A} (dst src : list A) : list A :=
  let n := Nat.min (length dst) (length src) in
  take n src ++ drop n dst.

(** [v.lines[y] = l] *)
Definition storeLine (y : Z) (l : list cell) : M unit :=
  v <- get ;;
  ls <- store (lines v) y l ;;
  modify (set_lines ls).

(** ** Edit primitives *)

(** Every line header of [v.lines] owns its backing array: [breakLine]
    copies both halves (or keeps the one header and drops the old outer
    array), [mergeLines] and [deleteRune] drop the header they read from,
    and [writeRune] fills new headers with nil.  In-place [append] and
    [copy] therefore never write into another line, and the functions below
    are determined by the contents of the slices. *)

(** [writeRune] writes a rune into the view's internal buffer at (x, y);
    the buffer grows if the point is out of bounds. *)
Definition writeRune (x y : Z) (ch : rune) : M (option error) :=
  modify (set_tainted true) ;;;
  if (x <? 0) || (y <? 0) then ret (Some InvalidPoint) else
  v <- get ;;
  (if y >=? len (lines v) then
     newLines <- make [] (y - len (lines v) + 1) ;;
     modify (set_lines (lines v ++ newLines))
   else ret tt) ;;;
  v <- get ;;
  line <- index (lines v) y ;;
  let lineLen := len line in
  toInsert <- (if x >=? lineLen then make zeroCell (x - lineLen + 1)
               else if negb (Overwrite v) then make zeroCell 1
               else ret []) ;;
  storeLine y (line ++ toInsert) ;;;
  (if negb (Overwrite v) || (Overwrite v && (x + 1 >=? lineLen)) then
     v <- get ;;
     l <- index (lines v) y ;;
     dst <- slice_from l (x + 1) ;;
     src <- slice_from l x ;;
     storeLine y (take (Z.to_nat (x + 1)) l ++ copy dst src)
   else ret tt) ;;;
  v <- get ;;
  l <- index (lines v) y ;;
  l' <- store l x (mkCell (FgColor v) (BgColor v) ch) ;;
  storeLine y l' ;;;
  ret None.

(** [deleteRune] removes the rune at (x, y). *)
Definition deleteRune (x y : Z) : M (option error) :=
  modify (set_tainted true) ;;;
  v <- get ;;
  if (x <? 0) || (y <? 0) || (y >=? len (lines v)) then ret (Some InvalidPoint) else
  l <- index (lines v) y ;;
  if x >=? len l then ret (Some InvalidPoint) else
  before <- slice_to l x ;;
  after <- slice_from l (x + 1) ;;
  storeLine y (before ++ after) ;;;
  ret None.

(** [mergeLines] merges the lines y and y+1 if possible. *)
Definition mergeLines (y : Z) : M (option error) :=
  modify (set_tainted true) ;;;
  v <- get ;;
  if (y <? 0) || (y >=? len (lines v)) then ret (Some InvalidPoint) else
  (if y + 1 <? len (lines v) then
     l <- index (lines v) y ;;
     next <- index (lines v) (y + 1) ;;
     storeLine y (l ++ next) ;;;
     v <- get ;;
     before <- slice_to (lines v) (y + 1) ;;
     after <- slice_from (lines v) (y + 2) ;;
     modify (set_lines (before ++ after))
   else ret tt) ;;;
  ret None.

(** [breakLine] breaks line y at column x. *)
Definition breakLine (x y : Z) : M (option error) :=
  modify (set_tainted true) ;;;
  v <- get ;;
  if (y <? 0) || (y >=? len (lines v)) then ret (Some InvalidPoint) else
  l <- index (lines v) y ;;
  lr <- (if x <? len l then
           l1 <- slice_to l x ;;
           left <- make zeroCell (len l1) ;;
           l2 <- slice_from l x ;;
           right <- make zeroCell (len l2) ;;
           ret (copy left l1, copy right l2)
         else ret (l, [])) ;;
  new <- make [] (len (lines v) + 1) ;;
  new <- store new y (fst lr) ;;
  new <- store new (y + 1) (snd lr) ;;
  src1 <- slice_to (lines v) y ;;
  let new := copy new src1 in
  dst2 <- slice_from new (y + 2) ;;
  src2 <- slice_from (lines v) (y + 1) ;;
  let new := take (Z.to_nat (y + 2)) new ++ copy dst2 src2 in
  modify (set_lines new) ;;;
  ret None.

(** ** Keys *)

(** Modelled from the spec: the [Key] type and its constants are declared
    outside edit.go.  The spec enumerates the key codes an event carries
    (space, two backspaces, delete, insert, enter, tab, escape, the four
    arrows, or none); the constants named in one [switch] are distinct, or
    Go would reject the duplicate case.  [KeyOther] stands for every other
    key code. *)
Inductive Key : Type :=
| KeySpace | KeyBackspace | KeyBackspace2 | KeyDelete | KeyInsert | KeyEnter
| KeyArrowDown | KeyArrowUp | KeyArrowLeft | KeyArrowRight | KeyTab | KeyEsc
| KeyOther (code : Z).

(** ** Machine integers *)

(** Go's [int] where it is 64 bits wide.  Its [+] and [-] do not fail on
    overflow: the result is the sum or difference modulo 2^64, taken in
    the range of [int]. *)
Definition int_min : Z := - 2 ^ 63.
Definition int_max : Z := 2 ^ 63 - 1.

Definition in_int (z : Z) : Prop := int_min <= z <= int_max.

Definition wrap (z : Z) : Z := (z + 2 ^ 63) mod 2 ^ 64 - 2 ^ 63.

Definition iadd (a b : Z) : Z := wrap (a + b).
Definition isub (a b : Z) : Z := wrap (a - b).

(** ** Cursor, viewport and edit operations *)

Section Editor.

(** The collaborators of edit.go that live in view.go: the visible size of
    the view, the mapping of a buffer position to a screen position (with
    its [ok] flag) and the explicit cursor set, whose error is discarded by
    its only caller here. *)
Variable Size : View -> Z * Z.
Variable linesPosOnScreen : View -> Z -> Z -> Z * Z * bool.
Variable SetCursor : Z -> Z -> View -> View.

(** Modelled from the spec: [Cursor] is declared in view.go; the spec
    calls it the current cursor (column, row) query. *)
Definition Cursor : M (Z * Z) :=
  v <- get ;; ret (cx v, cy v).

(** [MoveCursor] moves the cursor relative to its current position.  The
    sums and differences are those of the integers; [MoveCursor64] below
    has those of the machine, and they agree as long as none of them
    leaves the range of [int]. *)
Definition MoveCursor (dx dy : Z) : M unit :=
  v <- get ;;
  let newX := cx v + dx in
  let newY := cy v + dy in
  if len (lines v) =? 0 then modify (fun v => set_cy 0 (set_cx 0 v)) else
  let newY := if newY >=? len (lines v) then len (lines v) - 1 else newY in
  let newY := if newY <? 0 then 0 else newY in
  line <- index (lines v) newY ;;
  let xy := if newX >? len line then
              if (dy =? 0) && (newY + 1 <? len (lines v)) then (0, newY + 1)
              else (len line, newY)
            else (newX, newY) in
  let newX := fst xy in
  let newY := snd xy in
  xy <- (if newX <? 0 then
           if newY >? 0 then
             line <- index (lines v) (newY - 1) ;;
             ret (len line, newY - 1)
           else ret (0, newY)
         else ret (newX, newY)) ;;
  let newX := fst xy in
  let newY := snd xy in
  let maxX := fst (Size v) in
  let maxY := snd (Size v) in
  let newXOnScreen := fst (fst (linesPosOnScreen v newX newY)) in
  let newYOnScreen := snd (fst (linesPosOnScreen v newX newY)) in
  (if newYOnScreen >? oy v + maxY - 1
   then modify (set_oy (newYOnScreen - maxY + 1)) else ret tt) ;;;
  v <- get ;;
  (if newYOnScreen <? oy v then modify (set_oy newYOnScreen) else ret tt) ;;;
  v <- get ;;
  (if negb (Wrap v) then
     (if newXOnScreen >? ox v + maxX - 1
      then modify (set_ox (newXOnScreen - maxX + 1)) else ret tt) ;;;
     let prevSize :=
       if (maxX >? 2) && (newXOnScreen - 2 >=? 0) then 2
       else if (maxX >? 1) && (newXOnScreen - 1 >=? 0) then 1
       else 0 in
     v <- get ;;
     if newXOnScreen - prevSize <? ox v
     then modify (set_ox (newXOnScreen - prevSize)) else ret tt
   else ret tt) ;;;
  modify (fun v => set_cy newY (set_cx newX v)).

(** [MoveCursor] with the arithmetic of the machine: the sums and the
    differences that the body forms from its arguments, the cursor, the
    origin, the size and the screen position are those of [int].  A row
    index is stepped by one only between 0 and [len(v.lines)], which is an
    [int], so that step is exact. *)
Definition MoveCursor64 (dx dy : Z) : M unit :=
  v <- get ;;
  let newX := iadd (cx v) dx in
  let newY := iadd (cy v) dy in
  if len (lines v) =? 0 then modify (fun v => set_cy 0 (set_cx 0 v)) else
  let newY := if newY >=? len (lines v) then len (lines v) - 1 else newY in
  let newY := if newY <? 0 then 0 else newY in
  line <- index (lines v) newY ;;
  let xy := if newX >? len line then
              if (dy =? 0) && (newY + 1 <? len (lines v)) then (0, newY + 1)
              else (len line, newY)
            else (newX, newY) in
  let newX := fst xy in
  let newY := snd xy in
  xy <- (if newX <? 0 then
           if newY >? 0 then
             line <- index (lines v) (newY - 1) ;;
             ret (len line, newY - 1)
           else ret (0, newY)
         else ret (newX, newY)) ;;
  let newX := fst xy in
  let newY := snd xy in
  let maxX := fst (Size v) in
  let maxY := snd (Size v) in
  let newXOnScreen := fst (fst (linesPosOnScreen v newX newY)) in
  let newYOnScreen := snd (fst (linesPosOnScreen v newX newY)) in
  (if newYOnScreen >? isub (iadd (oy v) maxY) 1
   then modify (set_oy (iadd (isub newYOnScreen maxY) 1)) else ret tt) ;;;
  v <- get ;;
  (if newYOnScreen <? oy v then modify (set_oy newYOnScreen) else ret tt) ;;;
  v <- get ;;
  (if negb (Wrap v) then
     (if newXOnScreen >? isub (iadd (ox v) maxX) 1
      then modify (set_ox (iadd (isub newXOnScreen maxX) 1)) else ret tt) ;;;
     let prevSize :=
       if (maxX >? 2) && (isub newXOnScreen 2 >=? 0) then 2
       else if (maxX >? 1) && (isub newXOnScreen 1 >=? 0) then 1
       else 0 in
     v <- get ;;
     if isub newXOnScreen prevSize <? ox v
     then modify (set_ox (isub newXOnScreen prevSize)) else ret tt
   else ret tt) ;;;
  modify (fun v => set_cy newY (set_cx newX v)).

(** [EditWrite] writes a rune at the cursor position. *)
Definition EditWrite (ch : rune) : M unit :=
  v <- get ;;
  writeRune (cx v) (cy v) ch ;;;
  MoveCursor 1 0.

(** [EditDelete] deletes a rune at the cursor position; [back] determines
    the direction. *)
Definition EditDelete (back : bool) : M unit :=
  v <- get ;;
  let x := cx v in
  let y := cy v in
  if y <? 0 then ret tt else
  if y >=? len (lines v) then MoveCursor (-1) 0 else
  if back && (x <=? 0) then
    if y <=? 0 then ret tt else
    let previousLine := cy v - 1 in
    MoveCursor (-1) 0 ;;;
    mergeLines previousLine ;;;
    ret tt
  else if back then
    v <- get ;;
    err <- deleteRune (cx v - 1) (cy v) ;;
    match err with
    | None => MoveCursor (-1) 0
    | Some _ => ret tt
    end
  else
    l <- index (lines v) y ;;
    if x =? len l then mergeLines y ;;; ret tt
    else
      v <- get ;;
      deleteRune (cx v) (cy v) ;;; ret tt.

(** [EditNewLine] inserts a new line under the cursor. *)
Definition EditNewLine : M unit :=
  v <- get ;;
  breakLine (cx v) (cy v) ;;;
  modify (set_ox 0) ;;;
  v <- get ;;
  modify (set_cy (cy v + 1)) ;;;
  modify (set_cx 0).

(** The loop of [EditDeleteToStartOfLine]: [for x > 0 { ... }]. *)
Fixpoint deleteToStartLoop (fuel : nat) (x : Z) : M unit :=
  if x >? 0 then
    match fuel with
    | O => out_of_fuel
    | S fuel' =>
        EditDelete true ;;;
        xy <- Cursor ;;
        deleteToStartLoop fuel' (fst xy)
    end
  else ret tt.

(** [EditDeleteToStartOfLine] deletes to the start of the line or, at the
    start of the line, deletes the newline character. *)
Definition EditDeleteToStartOfLine (fuel : nat) : M unit :=
  xy <- Cursor ;;
  let x := fst xy in
  if x =? 0 then EditDelete true
  else deleteToStartLoop fuel x.

(** The loop of [EditGotoToStartOfLine]. *)
Fixpoint gotoStartLoop (fuel : nat) (x : Z) : M unit :=
  if x >? 0 then
    match fuel with
    | O => out_of_fuel
    | S fuel' =>
        MoveCursor (-1) 0 ;;;
        xy <- Cursor ;;
        gotoStartLoop fuel' (fst xy)
    end
  else ret tt.

(** [EditGotoToStartOfLine] takes you to the start of the current line. *)
Definition EditGotoToStartOfLine (fuel : nat) : M unit :=
  xy <- Cursor ;;
  gotoStartLoop fuel (fst xy).

(** The loop of [EditGotoToEndOfLine]: [for prevX != x { ... }]. *)
Fixpoint gotoEndLoop (fuel : nat) (prevX x : Z) : M unit :=
  if negb (prevX =? x) then
    match fuel with
    | O => out_of_fuel
    | S fuel' =>
        MoveCursor 1 0 ;;;
        xy <- Cursor ;;
        gotoEndLoop fuel' x (fst xy)
    end
  else ret tt.

(** [EditGotoToEndOfLine] takes you to the end of the line. *)
Definition EditGotoToEndOfLine (fuel : nat) : M unit :=
  xy <- Cursor ;;
  let y := snd xy in
  modify (SetCursor 0 (y + 1)) ;;;
  xy <- Cursor ;;
  let x := fst xy in
  let newY := snd xy in
  if newY =? y then gotoEndLoop fuel (-1) x
  else MoveCursor (-1) 0.

(** [simpleEditor] is the default gocui editor. *)
Definition simpleEditor (key : Key) (ch : rune) (mod_ : Modifier) : M unit :=
  if negb (ch =? 0) && (mod_ =? 0) then EditWrite ch else
  match key with
  | KeySpace => EditWrite 32
  | KeyBackspace | KeyBackspace2 => EditDelete true
  | KeyDelete => EditDelete false
  | KeyInsert => v <- get ;; modify (set_Overwrite (negb (Overwrite v)))
  | KeyEnter => EditNewLine
  | KeyArrowDown => MoveCursor 0 1
  | KeyArrowUp => MoveCursor 0 (-1)
  | KeyArrowLeft => MoveCursor (-1) 0
  | KeyArrowRight => MoveCursor 1 0
  | KeyTab => EditWrite 9
  | KeyEsc => ret tt
  | KeyOther _ => EditWrite ch
  end.

(** The operations exposed to key dispatchers, as data. *)
Inductive op : Type :=
| OpWrite (ch : rune)
| OpDelete (back : bool)
| OpNewLine
| OpMove (dx dy : Z)
| OpGotoStart
| OpGotoEnd
| OpDeleteToStart.

Definition exec (fuel : nat) (o : op) : M unit :=
  match o with
  | OpWrite ch => EditWrite ch
  | OpDelete back => EditDelete back
  | OpNewLine => EditNewLine
  | OpMove dx dy => MoveCursor dx dy
  | OpGotoStart => EditGotoToStartOfLine fuel
  | OpGotoEnd => EditGotoToEndOfLine fuel
  | OpDeleteToStart => EditDeleteToStartOfLine fuel
  end.

(** A sequence of calls, each loop of which may take [fuel] iterations. *)
Fixpoint run (fuel : nat) (os : list op) : M unit :=
  match os with
  | [] => ret tt
  | o :: os' => exec fuel o ;;; run fuel os'
  end.

End Editor.

(** Modelled from the spec: [SetCursor] is declared in view.go.  The spec
    describes it as the explicit cursor set, subject to the same bounds
    clamping as [MoveCursor]: the cursor is moved by the delta that leads
    to the requested position. *)
Definition SetCursor_clamped (Size : View -> Z * Z)
    (linesPosOnScreen : View -> Z -> Z -> Z * Z * bool)
    (x y : Z) (v : View) : View :=
  final (MoveCursor Size linesPosOnScreen (x - cx v) (y - cy v)) v.

(** ** Specification vocabulary *)

(** The line at row [y], or the conceptual empty line when the buffer has
    no such row. *)
Definition lineAt (ls : list (list cell)) (y : Z) : list cell :=
  if y <? 0 then [] else default [] (ls !! Z.to_nat y).

(** The buffer once [writeRune] has made sure that row [y] exists. *)
Definition grow (ls : list (list cell)) (y : Z) : list (list cell) :=
  if y >=? len ls then ls ++ replicate (Z.to_nat (y - len ls + 1)) [] else ls.

(** The line once [writeRune] has put cell [c] at column [x]. *)
Definition putCell (ow : bool) (l : list cell) (x : Z) (c : cell) : list cell :=
  if len l <=? x then l ++ replicate (Z.to_nat (x - len l)) zeroCell ++ [c]
  else if ow then <[Z.to_nat x := c]> l
  else take (Z.to_nat x) l ++ c :: drop (Z.to_nat x) l.

(** The cursor [MoveCursor dx dy] resolves to, as the specification
    describes it: the row is clamped first, the column is then resolved
    against that row. *)
Definition target (ls : list (list cell)) (x y dx dy : Z) : Z * Z :=
  if len ls =? 0 then (0, 0) else
  let Y := Z.max 0 (Z.min (y + dy) (len ls - 1)) in
  let X := x + dx in
  let L := len (lineAt ls Y) in
  if X >? L then
    if (dy =? 0) && (Y + 1 <? len ls) then (0, Y + 1) else (L, Y)
  else if X <? 0 then
    if Y >? 0 then (len (lineAt ls (Y - 1)), Y - 1) else (0, Y)
  else (X, Y).

(** The viewport origin [MoveCursor] chooses for a screen position. *)
Definition scrollY (oy maxY nY : Z) : Z :=
  let oy1 := if nY >? oy + maxY - 1 then nY - maxY + 1 else oy in
  if nY <? oy1 then nY else oy1.

Definition prevSize (maxX nX : Z) : Z :=
  if (maxX >? 2) && (nX - 2 >=? 0) then 2
  else if (maxX >? 1) && (nX - 1 >=? 0) then 1
  else 0.

Definition scrollX (ox maxX nX : Z) : Z :=
  let ox1 := if nX >? ox + maxX - 1 then nX - maxX + 1 else ox in
  if nX - prevSize maxX nX <? ox1 then nX - prevSize maxX nX else ox1.

(** The bounds the specification states: the row is a row of the buffer
    (row 0 of the conceptual empty line when the buffer has no line) and
    the column is a gap position of that row. *)
Definition bounds (v : View) : Prop :=
  0 <= cy v < Z.max 1 (len (lines v)) /\
  0 <= cx v <= len (lineAt (lines v) (cy v)).

(** The cursor is on a row that exists. *)
Definition inBuffer (v : View) : Prop :=
  0 <= cy v < len (lines v) /\
  0 <= cx v <= len (lineAt (lines v) (cy v)).

(** The bounds that every sequence of operations keeps: as [bounds], but
    the row may lie beyond a buffer that has no line yet. *)
Definition cursor_ok (v : View) : Prop :=
  0 <= cy v /\
  (lines v <> [] -> cy v < len (lines v)) /\
  0 <= cx v <= len (lineAt (lines v) (cy v)).

(** The initial state: an empty buffer, cursor and viewport at (0, 0). *)
Definition initial (v : View) : Prop :=
  lines v = [] /\ cx v = 0 /\ cy v = 0 /\ ox v = 0 /\ oy v = 0.

(** The number of cursor positions on the given lines. *)
Fixpoint cells (ls : list (list cell)) : Z :=
  match ls with
  | [] => 0
  | l :: ls' => len l + 1 + cells ls'
  end.

(** The number of cursor positions after the cursor. *)
Definition rest (v : View) : Z :=
  cells (drop (Z.to_nat (cy v)) (lines v)) - 1 - cx v.

(** What a call of an edit primitive does to the dirty flag: it is set
    however the call ends, and a call that reports an error has kept the
    lines. *)
Definition marks_dirty (m : M (option error)) (v : View) : Prop :=
  match m v with
  | Ok None w => tainted w = true
  | Ok (Some _) w => tainted w = true /\ lines w = lines v
  | Panic w => tainted w = true
  | OutOfFuel => False
  end.

Section Properties.

Variable Size : View -> Z * Z.
Variable linesPosOnScreen : View -> Z -> Z -> Z * Z * bool.

(** The state [MoveCursor dx dy] leaves behind on a non-empty buffer. *)
Definition moved (dx dy : Z) (v : View) : View :=
  let t := target (lines v) (cx v) (cy v) dx dy in
  let nX := fst (fst (linesPosOnScreen v (fst t) (snd t))) in
  let nY := snd (fst (linesPosOnScreen v (fst t) (snd t))) in
  mkView (lines v) (fst t) (snd t)
         (if Wrap v then ox v else scrollX (ox v) (fst (Size v)) nX)
         (scrollY (oy v) (snd (Size v)) nY)
         (Overwrite v) (Wrap v) (tainted v) (FgColor v) (BgColor v).

(** A coordinate far enough from the ends of the range of [int] for the
    sums and differences that [MoveCursor] forms from two of them, give or
    take 2, to stay in the range. *)
Definition small (z : Z) : Prop := - 2 ^ 62 < z < 2 ^ 62.

(** The origin, the size and the screen position of the cursor that
    [MoveCursor dx dy] resolves to are all [small]. *)
Definition no_overflow (dx dy : Z) (v : View) : Prop :=
  let t := target (lines v) (cx v) (cy v) dx dy in
  small (ox v) /\ small (oy v) /\
  small (fst (Size v)) /\ small (snd (Size v)) /\
  small (fst (fst (linesPosOnScreen v (fst t) (snd t)))) /\
  small (snd (fst (linesPosOnScreen v (fst t) (snd t)))).

(** After [MoveCursor dx dy], the screen row of the cursor (as the call
    mapped it) lies in the visible rows. *)
Definition visibleY (dx dy : Z) (v : View) : Prop :=
  let w := final (MoveCursor Size linesPosOnScreen dx dy) v in
  let nY := snd (fst (linesPosOnScreen v (cx w) (cy w))) in
  oy w <= nY <= oy w + snd (Size v) - 1.

(** The same for the screen column. *)
Definition visibleX (dx dy : Z) (v : View) : Prop :=
  let w := final (MoveCursor Size linesPosOnScreen dx dy) v in
  let nX := fst (fst (linesPosOnScreen v (cx w) (cy w))) in
  ox w <= nX <= ox w + fst (Size v) - 1.

Definition cursor_visible (dx dy : Z) (v : View) : Prop :=
  visibleY dx dy v /\ visibleX dx dy v.

(** [EditWrite ch] followed by [EditDelete true] returns and restores the
    lines and the cursor. *)
Definition write_delete_restores (ch : rune) (v : View) : Prop :=
  exists w,
    (EditWrite Size linesPosOnScreen ch ;;;
     EditDelete Size linesPosOnScreen true) v = Ok tt w /\
    lines w = lines v /\ cx w = cx v /\ cy w = cy v.

End Properties.

(** Collaborators and views for the examples. *)

(** A view of 80 columns and 24 rows. *)
Definition size80x24 (v : View) : Z * Z := (80, 24).

(** The screen position of a buffer position when no line is long enough
    to wrap. *)
Definition posUnwrapped (v : View) (x y : Z) : Z * Z * bool := (x, y, true).

Definition plain (ch : rune) : cell := mkCell 0 0 ch.

Definition view (ls : list (list rune)) (x y : Z) (overwrite : bool) : View :=
  mkView (map (map plain) ls) x y 0 0 overwrite false false 0 0.

Definition text (v : View) : list (list rune) := map (map chr) (lines v).

(** ** Editors *)

(** [type Editor interface { Edit(v *View, key Key, ch rune, mod Modifier) }] *)
Class Editor (E : Type) : Type := {
  Edit : E -> Key -> rune -> Modifier -> M unit
}.

(** [type EditorFunc func(v *View, key Key, ch rune, mod Modifier)] *)
Definition EditorFunc : Type := Key -> rune -> Modifier -> M unit.

(** [func (f EditorFunc) Edit(v, key, ch, mod)] calls [f(v, key, ch, mod)]. *)
#[export] Instance EditorFunc_Editor : Editor EditorFunc := {
  Edit f key ch mod_ := f key ch mod_
}.

(** [var DefaultEditor Editor = EditorFunc(simpleEditor)] *)
Definition DefaultEditor (Size : View -> Z * Z)
    (linesPosOnScreen : View -> Z -> Z -> Z * Z * bool) : EditorFunc :=
  simpleEditor Size linesPosOnScreen.

(** Key events handed to an editor one after the other, each processed
    to its end before the next. *)
Fixpoint dispatch {E : Type} `{Editor E} (e : E)
    (events : list (Key * rune * Modifier)) : M unit :=
  match events with
  | [] => ret tt
  | (key, ch, mod_) :: events' =>
      Edit e key ch mod_ ;;; dispatch e events'
  end.

(** The first test of [simpleEditor]: the event carries a character and
    no modifier. *)
Definition typed (e : Key * rune * Modifier) : bool :=
  let '(_, ch, mod_) := e in negb (ch =? 0) && (mod_ =? 0).

Definition runeOf (e : Key * rune * Modifier) : rune :=
  let '(_, ch, _) := e in ch.

(** The keys whose case in [simpleEditor] calls neither [EditWrite],
    [EditDelete] nor [EditNewLine]. *)
Definition navigation (key : Key) : bool :=
  match key with
  | KeyInsert | KeyArrowDown | KeyArrowUp | KeyArrowLeft | KeyArrowRight
  | KeyEsc => true
  | _ => false
  end.

(** ** Frames *)

(** Everything but the lines and the dirty flag is as before. *)
Definition same_but_buffer (v w : View) : Prop :=
  cx w = cx v /\ cy w = cy v /\ ox w = ox v /\ oy w = oy v /\
  Overwrite w = Overwrite v /\ Wrap w = Wrap v /\
  FgColor w = FgColor v /\ BgColor w = BgColor v.

(** Everything but the cursor and the viewport origin is as before. *)
Definition same_but_cursor (v w : View) : Prop :=
  lines w = lines v /\ tainted w = tainted v /\
  Overwrite w = Overwrite v /\ Wrap w = Wrap v /\
  FgColor w = FgColor v /\ BgColor w = BgColor v.

(** The cell [EditWrite ch] writes. *)
Definition cellOf (v : View) (ch : rune) : cell :=
  mkCell (FgColor v) (BgColor v) ch.

(** ** Slices *)

Lemma len_nonneg {A} (l : list A) : 0 <= len l.
Proof. unfold len. lia. Qed.

Lemma len_nil {A} : len (@nil A) = 0.
Proof. reflexivity. Qed.

Lemma len_app {A} (l k : list A) : len (l ++ k) = len l + len k.
Proof. unfold len. rewrite length_app. lia. Qed.

Lemma len_singleton {A} (a : A) : len [a] = 1.
Proof. reflexivity. Qed.

Lemma len_cons {A} (a : A) (l : list A) : len (a :: l) = 1 + len l.
Proof. unfold len. simpl. lia. Qed.

Lemma len_replicate {A} (n : nat) (a : A) : len (replicate n a) = Z.of_nat n.
Proof. unfold len. by rewrite length_replicate. Qed.

Lemma len_insert {A} (l : list A) (i : nat) (a : A) : len (<[i := a]> l) = len l.
Proof. unfold len. by rewrite length_insert. Qed.

Lemma len_take {A} (l : list A) (n : nat) : len (take n l) = Z.min (Z.of_nat n) (len l).
Proof. unfold len. rewrite length_take. lia. Qed.

Lemma len_drop {A} (l : list A) (n : nat) : len (drop n l) = Z.max 0 (len l - Z.of_nat n).
Proof. unfold len. rewrite length_drop. lia. Qed.

Lemma len_zero_nil {A} (l : list A) : len l = 0 <-> l = [].
Proof.
  unfold len. destruct l; simpl; split; intros H; try done; lia.
Qed.

Lemma lineAt_lookup ls y :
  0 <= y < len ls -> ls !! Z.to_nat y = Some (lineAt ls y).
Proof.
  intros Hy. unfold lineAt.
  destruct (Z.ltb_spec y 0); [lia|].
  destruct (ls !! Z.to_nat y) eqn:E; [done|].
  apply lookup_ge_None in E. unfold len in Hy. lia.
Qed.

Lemma lineAt_out ls y : y < 0 \/ len ls <= y -> lineAt ls y = [].
Proof.
  intros Hy. unfold lineAt.
  destruct (Z.ltb_spec y 0); [done|].
  rewrite (proj2 (lookup_ge_None ls (Z.to_nat y))); [done|].
  unfold len in Hy. lia.
Qed.

Lemma lineAt_take_drop ls y :
  0 <= y < len ls ->
  ls = take (Z.to_nat y) ls ++ lineAt ls y :: drop (Z.to_nat (y + 1)) ls.
Proof.
  intros Hy. replace (Z.to_nat (y + 1)) with (S (Z.to_nat y)) by lia.
  symmetry. apply take_drop_middle. by apply lineAt_lookup.
Qed.

Lemma lineAt_middle (l1 l2 : list (list cell)) (l : list cell) y :
  y = len l1 -> lineAt (l1 ++ l :: l2) y = l.
Proof.
  intros ->. unfold lineAt. pose proof (len_nonneg l1).
  destruct (Z.ltb_spec (len l1) 0); [lia|].
  unfold len. rewrite Nat2Z.id. by rewrite list_lookup_middle.
Qed.

Lemma lineAt_middle_S (l1 l2 : list (list cell)) (a b : list cell) y :
  y = len l1 -> lineAt (l1 ++ a :: b :: l2) (y + 1) = b.
Proof.
  intros ->. change (l1 ++ a :: b :: l2) with (l1 ++ [a] ++ b :: l2).
  rewrite app_assoc. apply lineAt_middle.
  rewrite len_app, len_singleton. lia.
Qed.

(** Boolean comparisons of the source, decided from the context. *)
Ltac zcmp :=
  repeat match goal with
  | |- context [?a <? ?b] => destruct (Z.ltb_spec a b); try lia
  | |- context [?a <=? ?b] => destruct (Z.leb_spec a b); try lia
  | |- context [?a >? ?b] => rewrite (Z.gtb_ltb a b)
  | |- context [?a >=? ?b] => rewrite (Z.geb_leb a b)
  | |- context [?a =? ?b] => destruct (Z.eqb_spec a b); try lia
  end.

Lemma index_ok ls y v :
  0 <= y < len ls -> index ls y v = Ok (lineAt ls y) v.
Proof.
  intros Hy. unfold index. zcmp. simpl.
  by rewrite (lineAt_lookup ls y).
Qed.

Lemma store_ok {A} (l : list A) i a v :
  0 <= i < len l -> store l i a v = Ok (<[Z.to_nat i := a]> l) v.
Proof. intros Hi. unfold store. zcmp. done. Qed.

Lemma slice_from_ok {A} (l : list A) i v :
  0 <= i <= len l -> slice_from l i v = Ok (drop (Z.to_nat i) l) v.
Proof. intros Hi. unfold slice_from. zcmp. done. Qed.

Lemma slice_to_ok {A} (l : list A) i v :
  0 <= i <= len l -> slice_to l i v = Ok (take (Z.to_nat i) l) v.
Proof. intros Hi. unfold slice_to. zcmp. done. Qed.

Lemma make_ok {A} (z : A) n v :
  0 <= n -> make z n v = Ok (replicate (Z.to_nat n) z) v.
Proof. intros Hn. unfold make. zcmp. done. Qed.

Lemma storeLine_ok y l v :
  0 <= y < len (lines v) ->
  storeLine y l v = Ok tt (set_lines (<[Z.to_nat y := l]> (lines v)) v).
Proof.
  intros Hy. unfold storeLine, bind, get. by rewrite store_ok.
Qed.

Lemma copy_fill {A} (dst src : list A) :
  length dst = length src -> copy dst src = src.
Proof.
  intros H. unfold copy. rewrite H, Nat.min_id.
  rewrite firstn_all, <- H, drop_all. by rewrite app_nil_r.
Qed.

Lemma copy_nil_dst {A} (src : list A) : copy [] src = [].
Proof. reflexivity. Qed.

Lemma copy_app_l {A} (d1 d2 src : list A) :
  length d1 = length src -> copy (d1 ++ d2) src = src ++ d2.
Proof.
  intros H. unfold copy. rewrite length_app.
  replace (Nat.min (length d1 + length d2) (length src)) with (length src) by lia.
  rewrite firstn_all. f_equal. rewrite <- H. by rewrite drop_app_length.
Qed.

(** [copy(l[x+1:], l[x:])] moves the tail one cell to the right. *)
Lemma copy_shift {A} (c0 z : A) (b : list A) :
  copy (b ++ [z]) (c0 :: b ++ [z]) = c0 :: b.
Proof.
  unfold copy. simpl length. rewrite length_app. simpl length.
  replace (Nat.min (length b + 1) (S (length b + 1))) with (S (length b)) by lia.
  rewrite firstn_cons. rewrite take_app_length.
  replace (S (length b)) with (length (b ++ [z])) by (rewrite length_app; simpl; lia).
  rewrite drop_all. by rewrite app_nil_r.
Qed.

Lemma insert_middle {A} (l1 l2 : list A) (a b : A) y :
  y = len l1 -> <[Z.to_nat y := a]> (l1 ++ b :: l2) = l1 ++ a :: l2.
Proof.
  intros ->. unfold len. rewrite Nat2Z.id.
  replace (length l1) with (length l1 + 0)%nat at 1 by lia.
  by rewrite insert_app_r.
Qed.

Lemma take_middle {A} (l1 l2 : list A) y :
  y = len l1 -> take (Z.to_nat y) (l1 ++ l2) = l1.
Proof. intros ->. unfold len. rewrite Nat2Z.id. apply take_app_length. Qed.

Lemma drop_middle {A} (l1 l2 : list A) y :
  y = len l1 -> drop (Z.to_nat y) (l1 ++ l2) = l2.
Proof. intros ->. unfold len. rewrite Nat2Z.id. apply drop_app_length. Qed.

Lemma take_middle_S {A} (l1 l2 : list A) (a : A) y :
  y = len l1 -> take (Z.to_nat (y + 1)) (l1 ++ a :: l2) = l1 ++ [a].
Proof.
  intros ->. change (l1 ++ a :: l2) with (l1 ++ [a] ++ l2). rewrite app_assoc.
  apply take_middle. rewrite len_app. reflexivity.
Qed.

Lemma drop_middle_S {A} (l1 l2 : list A) (a : A) y :
  y = len l1 -> drop (Z.to_nat (y + 1)) (l1 ++ a :: l2) = l2.
Proof.
  intros ->. change (l1 ++ a :: l2) with (l1 ++ [a] ++ l2). rewrite app_assoc.
  apply drop_middle. rewrite len_app. reflexivity.
Qed.

Lemma len_middle {A} (l1 l2 : list A) (a : A) : len (l1 ++ a :: l2) = len l1 + 1 + len l2.
Proof. rewrite len_app, len_cons. lia. Qed.

Lemma bind_step {A B} (m : M A) (k : A -> M B) a v v' r :
  m v = Ok a v' -> k a v' = r -> bind m k v = r.
Proof. intros Hm Hk. unfold bind. by rewrite Hm. Qed.

(** One step of a computation whose first action cannot fail
    ([get], [modify], [ret]). *)
Ltac step_pure := eapply bind_step; [reflexivity|cbv beta].

(** *** deleteRune *)

Lemma deleteRune_cut l1 l2 a b c x y v :
  lines v = l1 ++ (a ++ c :: b) :: l2 -> y = len l1 -> x = len a ->
  deleteRune x y v = Ok None (set_lines (l1 ++ (a ++ b) :: l2) (set_tainted true v)).
Proof.
  intros Hl Hy Hx.
  pose proof (len_nonneg l1). pose proof (len_nonneg a).
  pose proof (len_nonneg l2). pose proof (len_nonneg b).
  unfold deleteRune, bind, modify, get. simpl. rewrite Hl.
  rewrite len_middle. zcmp. simpl.
  rewrite index_ok by (rewrite len_middle; lia).
  rewrite lineAt_middle by done.
  rewrite len_middle. zcmp.
  rewrite slice_to_ok by (rewrite len_middle; lia).
  rewrite slice_from_ok by (rewrite len_middle; lia).
  rewrite take_middle, drop_middle_S by done.
  rewrite storeLine_ok by (simpl; rewrite Hl, len_middle; lia).
  simpl. rewrite Hl. by rewrite insert_middle.
Qed.

Lemma deleteRune_err x y v :
  x < 0 \/ y < 0 \/ len (lines v) <= y \/ len (lineAt (lines v) y) <= x ->
  deleteRune x y v = Ok (Some InvalidPoint) (set_tainted true v).
Proof.
  intros H. unfold deleteRune, bind, modify, get. simpl.
  destruct (Z.ltb_spec x 0); [done|].
  destruct (Z.ltb_spec y 0); [done|].
  rewrite Z.geb_leb. destruct (Z.leb_spec (len (lines v)) y); [done|]. simpl.
  rewrite index_ok by (simpl; lia). simpl.
  rewrite Z.geb_leb. destruct (Z.leb_spec (len (lineAt (lines v) y)) x); [done|lia].
Qed.

(** *** mergeLines *)

Lemma mergeLines_join l1 l2 a b y v :
  lines v = l1 ++ a :: b :: l2 -> y = len l1 ->
  mergeLines y v = Ok None (set_lines (l1 ++ (a ++ b) :: l2) (set_tainted true v)).
Proof.
  intros Hl Hy.
  pose proof (len_nonneg l1). pose proof (len_nonneg l2).
  unfold mergeLines, bind, modify, get. simpl. rewrite Hl.
  rewrite len_middle, len_cons. zcmp. simpl.
  rewrite index_ok by (rewrite len_middle, len_cons; lia).
  rewrite lineAt_middle by done.
  rewrite index_ok by (rewrite len_middle, len_cons; lia).
  rewrite lineAt_middle_S by done.
  rewrite storeLine_ok by (simpl; rewrite Hl, len_middle, len_cons; lia).
  simpl. rewrite Hl. rewrite insert_middle by done.
  rewrite slice_to_ok by (rewrite len_middle, len_cons; lia).
  rewrite slice_from_ok by (rewrite len_middle, len_cons; lia).
  rewrite take_middle_S by done.
  change (l1 ++ (a ++ b) :: b :: l2) with (l1 ++ [a ++ b] ++ b :: l2).
  rewrite app_assoc.
  replace (y + 2) with (len (l1 ++ [a ++ b]) + 1)
    by (rewrite len_app, len_singleton; lia).
  rewrite drop_middle_S by done.
  simpl. by rewrite <- app_assoc.
Qed.

Lemma mergeLines_last y v :
  0 <= y -> y = len (lines v) - 1 ->
  mergeLines y v = Ok None (set_tainted true v).
Proof.
  intros Hy0 Hy. unfold mergeLines, bind, modify, get. simpl.
  zcmp. done.
Qed.

Lemma mergeLines_err y v :
  y < 0 \/ len (lines v) <= y ->
  mergeLines y v = Ok (Some InvalidPoint) (set_tainted true v).
Proof.
  intros H. unfold mergeLines, bind, modify, get. simpl.
  destruct (Z.ltb_spec y 0); [done|].
  rewrite Z.geb_leb. destruct (Z.leb_spec (len (lines v)) y); [done|lia].
Qed.

(** *** breakLine *)

Lemma fresh_outer {A} (l1 l2 : list A) (z a b : A) y n :
  y = len l1 -> n = len l1 + 1 + len l2 + 1 ->
  <[Z.to_nat (y + 1) := b]> (<[Z.to_nat y := a]> (replicate (Z.to_nat n) z)) =
  replicate (length l1) z ++ a :: b :: replicate (length l2) z.
Proof.
  intros -> ->. unfold len.
  replace (Z.to_nat (Z.of_nat (length l1) + 1 + Z.of_nat (length l2) + 1))
    with (length l1 + S (S (length l2)))%nat by lia.
  rewrite replicate_add. simpl replicate.
  rewrite Nat2Z.id.
  rewrite insert_app_r_alt by (rewrite length_replicate; lia).
  rewrite length_replicate, Nat.sub_diag. simpl.
  rewrite insert_app_r_alt by (rewrite length_replicate; lia).
  rewrite length_replicate.
  replace (Z.to_nat (Z.of_nat (length l1) + 1) - length l1)%nat with 1%nat by lia.
  reflexivity.
Qed.

Lemma breakLine_split l1 l2 l x y v :
  lines v = l1 ++ l :: l2 -> y = len l1 -> 0 <= x ->
  breakLine x y v =
  Ok None (set_lines (l1 ++ take (Z.to_nat x) l :: drop (Z.to_nat x) l :: l2)
                     (set_tainted true v)).
Proof.
  intros Hl Hy Hx.
  pose proof (len_nonneg l1). pose proof (len_nonneg l2). pose proof (len_nonneg l).
  set (a := take (Z.to_nat x) l). set (b := drop (Z.to_nat x) l).
  set (w := set_tainted true v).
  unfold breakLine.
  step_pure. fold w.
  step_pure.
  cbn [lines set_tainted w]. rewrite Hl, len_middle. rewrite Z.geb_leb.
  destruct (Z.ltb_spec y 0); [lia|].
  destruct (Z.leb_spec (len l1 + 1 + len l2) y); [lia|]. cbn [orb].
  eapply bind_step;
    [rewrite index_ok by (rewrite len_middle; lia); by rewrite lineAt_middle|].
  cbv beta.
  (* the two halves *)
  eapply (bind_step _ _ (a, b) _ w).
  { destruct (Z.ltb_spec x (len l)).
    - eapply bind_step; [apply slice_to_ok; lia|cbv beta].
      eapply bind_step; [apply make_ok, len_nonneg|cbv beta].
      eapply bind_step; [apply slice_from_ok; lia|cbv beta].
      eapply bind_step; [apply make_ok, len_nonneg|cbv beta].
      unfold ret.
      by rewrite !copy_fill by (rewrite length_replicate; unfold len; lia).
    - unfold ret, a, b. by rewrite take_ge, drop_ge by (unfold len in *; lia). }
  cbn [fst snd].
  (* the new outer slice *)
  eapply bind_step; [apply make_ok; lia|cbv beta].
  eapply bind_step; [apply store_ok; rewrite len_replicate; lia|cbv beta].
  eapply bind_step;
    [apply store_ok; rewrite len_insert, len_replicate; lia|cbv beta].
  rewrite (fresh_outer l1 l2) by done.
  eapply bind_step; [apply slice_to_ok; rewrite len_middle; lia|cbv beta].
  rewrite take_middle by done.
  rewrite copy_app_l by (by rewrite length_replicate).
  assert (E : l1 ++ a :: b :: replicate (length l2) [] =
              (l1 ++ [a; b]) ++ replicate (length l2) []).
  { by rewrite <- app_assoc. }
  assert (Hy2 : y + 2 = len (l1 ++ [a; b])).
  { rewrite len_app, len_cons, len_singleton. lia. }
  rewrite E.
  eapply bind_step;
    [apply slice_from_ok; rewrite len_app, len_replicate; unfold len in *; lia|].
  cbv beta.
  eapply bind_step; [apply slice_from_ok; rewrite len_middle; lia|cbv beta].
  rewrite drop_middle, take_middle by done.
  rewrite drop_middle_S by done.
  rewrite copy_fill by (by rewrite length_replicate).
  step_pure.
  unfold ret, w. by rewrite <- app_assoc.
Qed.

Lemma breakLine_err x y v :
  y < 0 \/ len (lines v) <= y ->
  breakLine x y v = Ok (Some InvalidPoint) (set_tainted true v).
Proof.
  intros H. unfold breakLine, bind, modify, get. simpl.
  destruct (Z.ltb_spec y 0); [done|].
  rewrite Z.geb_leb. destruct (Z.leb_spec (len (lines v)) y); [done|lia].
Qed.

(** A negative column on an existing row makes [v.lines[y][:x]] panic,
    after the view was marked dirty. *)
Lemma breakLine_panic x y v :
  0 <= y < len (lines v) -> x < 0 ->
  breakLine x y v = Panic (set_tainted true v).
Proof.
  intros Hy Hx. unfold breakLine, bind, modify, get. simpl.
  zcmp. simpl. rewrite index_ok by (simpl; lia). simpl.
  pose proof (len_nonneg (lineAt (lines v) y)).
  zcmp. unfold slice_to. zcmp. done.
Qed.

(** *** writeRune *)

Lemma split_at {A} (l : list A) x :
  0 <= x < len l ->
  exists a c0 b, l = a ++ c0 :: b /\ x = len a.
Proof.
  intros Hx.
  destruct (lookup_lt_is_Some_2 l (Z.to_nat x)) as [c0 Hc0]; [unfold len in Hx; lia|].
  exists (take (Z.to_nat x) l), c0, (drop (S (Z.to_nat x)) l). split.
  - symmetry. by apply take_drop_middle.
  - rewrite len_take. lia.
Qed.

Lemma writeRune_core l1 l2 l x y ch v :
  0 <= x -> 0 <= y ->
  grow (lines v) y = l1 ++ l :: l2 -> y = len l1 ->
  writeRune x y ch v =
  Ok None (set_lines
             (l1 ++ putCell (Overwrite v) l x (mkCell (FgColor v) (BgColor v) ch) :: l2)
             (set_tainted true v)).
Proof.
  intros Hx Hy Hg Hy1.
  pose proof (len_nonneg l1). pose proof (len_nonneg l2). pose proof (len_nonneg l).
  pose proof (len_nonneg (lines v)).
  set (c := mkCell (FgColor v) (BgColor v) ch).
  set (w := set_lines (l1 ++ l :: l2) (set_tainted true v)).
  assert (Hw : forall l', set_lines (<[Z.to_nat y := l']> (lines w)) w
                          = set_lines (l1 ++ l' :: l2) (set_tainted true v)).
  { intros l'. unfold w. simpl. by rewrite insert_middle. }
  assert (Hst : forall l' l'' (u : View), lines u = l1 ++ l' :: l2 ->
            storeLine y l'' u = Ok tt (set_lines (l1 ++ l'' :: l2) u)).
  { intros l' l'' u Hu. rewrite storeLine_ok by (rewrite Hu, len_middle; lia).
    by rewrite Hu, insert_middle. }
  assert (Hix : forall l' (u : View), lines u = l1 ++ l' :: l2 ->
            index (lines u) y u = Ok l' u).
  { intros l' u Hu. rewrite index_ok by (rewrite Hu, len_middle; lia).
    by rewrite Hu, lineAt_middle. }
  unfold writeRune.
  step_pure.
  destruct (Z.ltb_spec x 0); [lia|]. destruct (Z.ltb_spec y 0); [lia|].
  cbn [orb].
  step_pure.
  eapply (bind_step _ _ tt _ w).
  { unfold grow in Hg. cbn [lines set_tainted]. rewrite Z.geb_leb in *.
    destruct (Z.leb_spec (len (lines v)) y).
    - eapply bind_step; [by apply make_ok; lia|cbv beta].
      unfold modify, w. by rewrite Hg.
    - unfold ret, w. rewrite <- Hg. by destruct v. }
  step_pure.
  eapply bind_step; [by apply (Hix l)|cbv beta zeta].
  unfold putCell. cbn [Overwrite set_lines set_tainted w].
  rewrite Z.geb_leb.
  destruct (Z.leb_spec (len l) x) as [Hlx|Hlx].
  - (* at or beyond the end of the line: pad, then write *)
    eapply bind_step; [apply make_ok; lia|cbv beta].
    replace (Z.to_nat (x - len l + 1)) with (S (Z.to_nat (x - len l))) by lia.
    rewrite replicate_S_end, app_assoc.
    set (P := l ++ replicate (Z.to_nat (x - len l)) zeroCell).
    assert (HP : x = len P).
    { unfold P. rewrite len_app, len_replicate. lia. }
    eapply bind_step; [by apply (Hst l)|cbv beta].
    assert (Hc : negb (Overwrite v) || Overwrite v && (x + 1 >=? len l) = true).
    { destruct (Overwrite v); simpl; [|done]. rewrite Z.geb_leb.
      destruct (Z.leb_spec (len l) (x + 1)); [done|lia]. }
    rewrite Hc.
    eapply bind_step.
    { step_pure.
      eapply bind_step; [by apply (Hix (P ++ [zeroCell]))|cbv beta].
      eapply bind_step;
        [apply slice_from_ok; rewrite len_app, len_singleton; lia|cbv beta].
      eapply bind_step;
        [apply slice_from_ok; rewrite len_app, len_singleton; lia|cbv beta].
      by apply (Hst (P ++ [zeroCell])). }
    cbv beta.
    rewrite take_ge by (rewrite length_app; simpl; unfold len in HP; lia).
    rewrite drop_ge by (rewrite length_app; simpl; unfold len in HP; lia).
    rewrite copy_nil_dst, app_nil_r.
    step_pure.
    eapply bind_step; [by apply (Hix (P ++ [zeroCell]))|cbv beta].
    eapply bind_step;
      [apply store_ok; rewrite len_app, len_singleton; lia|cbv beta].
    eapply bind_step; [by apply (Hst (P ++ [zeroCell]))|cbv beta].
    unfold ret. cbn. fold c. rewrite insert_middle by done.
    unfold P. by rewrite <- app_assoc.
  - destruct (split_at l x) as (a & c0 & b & El & Ha); [lia|].
    pose proof (len_nonneg a). pose proof (len_nonneg b).
    destruct (Overwrite v) eqn:How; cbn [negb orb andb].
    + (* overwrite inside the line: nothing is appended *)
      step_pure.
      rewrite app_nil_r.
      eapply bind_step; [by apply (Hst l)|cbv beta].
      eapply (bind_step _ _ tt _ (set_lines (l1 ++ l :: l2) w)).
      { rewrite Z.geb_leb. destruct (Z.leb_spec (len l) (x + 1)); [|done].
        step_pure.
        eapply bind_step; [by apply (Hix l)|cbv beta].
        eapply bind_step; [apply slice_from_ok; lia|cbv beta].
        eapply bind_step; [apply slice_from_ok; lia|cbv beta].
        rewrite take_ge by (unfold len in *; lia).
        rewrite (drop_ge l (Z.to_nat (x + 1))) by (unfold len in *; lia).
        rewrite copy_nil_dst, app_nil_r.
        by apply (Hst l). }
      step_pure.
      eapply bind_step; [by apply (Hix l)|cbv beta].
      eapply bind_step; [apply store_ok; lia|cbv beta].
      eapply bind_step; [by apply (Hst l)|cbv beta].
      unfold ret. cbn. by fold c.
    + (* insert inside the line: open a gap at x *)
      eapply bind_step; [apply make_ok; lia|cbv beta]. simpl replicate.
      eapply bind_step; [by apply (Hst l)|cbv beta].
      assert (E1 : l ++ [zeroCell] = a ++ c0 :: (b ++ [zeroCell])).
      { rewrite El. by rewrite <- app_assoc. }
      eapply bind_step.
      { step_pure.
        eapply bind_step; [by apply (Hix (l ++ [zeroCell]))|cbv beta].
        eapply bind_step;
          [apply slice_from_ok; rewrite len_app, len_singleton; lia|cbv beta].
        eapply bind_step;
          [apply slice_from_ok; rewrite len_app, len_singleton; lia|cbv beta].
        by apply (Hst (l ++ [zeroCell])). }
      cbv beta. rewrite E1.
      rewrite take_middle_S, drop_middle_S, drop_middle by done.
      rewrite copy_shift.
      rewrite <- app_assoc. simpl app.
      step_pure.
      eapply bind_step; [by apply (Hix (a ++ c0 :: c0 :: b))|cbv beta].
      eapply bind_step;
        [apply store_ok; rewrite len_middle, len_cons; lia|cbv beta].
      eapply bind_step; [by apply (Hst (a ++ c0 :: c0 :: b))|cbv beta].
      unfold ret. cbn. fold c. rewrite insert_middle by done.
      rewrite El. by rewrite take_middle, drop_middle by done.
Qed.

Lemma writeRune_err x y ch v :
  x < 0 \/ y < 0 ->
  writeRune x y ch v = Ok (Some InvalidPoint) (set_tainted true v).
Proof.
  intros H. unfold writeRune, bind, modify, get. simpl.
  destruct (Z.ltb_spec x 0); [done|].
  destruct (Z.ltb_spec y 0); [done|lia].
Qed.

(** *** MoveCursor *)

Section Facts.

Variable Size : View -> Z * Z.
Variable linesPosOnScreen : View -> Z -> Z -> Z * Z * bool.

Abbreviation moveCursor := (MoveCursor Size linesPosOnScreen).
Abbreviation moved' := (moved Size linesPosOnScreen).

Lemma MoveCursor_empty dx dy v :
  lines v = [] -> moveCursor dx dy v = Ok tt (set_cy 0 (set_cx 0 v)).
Proof.
  intros Hl. unfold MoveCursor.
  eapply bind_step; [reflexivity|cbv beta zeta].
  by rewrite Hl.
Qed.

Lemma MoveCursor_run dx dy v :
  lines v <> [] -> moveCursor dx dy v = Ok tt (moved' dx dy v).
Proof.
  intros Hne.
  assert (Hlen : 0 < len (lines v)).
  { pose proof (len_nonneg (lines v)).
    destruct (Z.eq_dec (len (lines v)) 0) as [E|]; [|lia].
    by apply len_zero_nil in E. }
  unfold MoveCursor.
  eapply bind_step; [reflexivity|cbv beta zeta].
  destruct (Z.eqb_spec (len (lines v)) 0) as [|_]; [lia|].
  set (Y := Z.max 0 (Z.min (cy v + dy) (len (lines v) - 1))).
  assert (HY : (if (if cy v + dy >=? len (lines v)
                    then len (lines v) - 1 else cy v + dy) <? 0
                then 0
                else if cy v + dy >=? len (lines v)
                     then len (lines v) - 1 else cy v + dy) = Y).
  { unfold Y. rewrite Z.geb_leb.
    destruct (Z.leb_spec (len (lines v)) (cy v + dy)); zcmp; lia. }
  rewrite HY. clear HY.
  assert (HYr : 0 <= Y < len (lines v)) by (unfold Y; lia).
  eapply bind_step; [by apply index_ok|cbv beta].
  set (L := len (lineAt (lines v) Y)).
  set (t := target (lines v) (cx v) (cy v) dx dy).
  eapply (bind_step _ _ t _ v).
  { unfold t, target. fold Y. cbv zeta. fold L.
    destruct (Z.eqb_spec (len (lines v)) 0) as [|_]; [lia|].
    pose proof (len_nonneg (lineAt (lines v) Y)). fold L in H.
    rewrite !Z.gtb_ltb.
    destruct (Z.ltb_spec L (cx v + dx)).
    - destruct ((dy =? 0) && (Y + 1 <? len (lines v))); cbn [fst snd].
      + destruct (Z.ltb_spec 0 0); [lia|done].
      + destruct (Z.ltb_spec L 0); [lia|done].
    - cbn [fst snd]. destruct (Z.ltb_spec (cx v + dx) 0); [|done].
      destruct (Z.ltb_spec 0 Y); [|done].
      eapply bind_step; [apply index_ok; lia|cbv beta]. done. }
  unfold moved. fold t.
  set (nX := fst (fst (linesPosOnScreen v (fst t) (snd t)))).
  set (nY := snd (fst (linesPosOnScreen v (fst t) (snd t)))).
  set (maxX := fst (Size v)). set (maxY := snd (Size v)).
  clearbody nX nY maxX maxY t. clear.
  unfold scrollY, scrollX, prevSize. destruct v as [ls x y ox0 oy0 ow wr tn fg bg].
  unfold bind, get, modify, ret, set_oy, set_ox, set_cx, set_cy.
  cbn [lines cx cy ox oy Overwrite Wrap tainted FgColor BgColor].
  destruct (nY >? oy0 + maxY - 1);
    cbn [lines cx cy ox oy Overwrite Wrap tainted FgColor BgColor];
    match goal with |- context [nY <? ?o] => destruct (nY <? o) end;
    cbn [lines cx cy ox oy Overwrite Wrap tainted FgColor BgColor];
    destruct wr; cbn [negb]; try reflexivity;
    destruct (nX >? ox0 + maxX - 1);
    cbn [lines cx cy ox oy Overwrite Wrap tainted FgColor BgColor];
    match goal with |- context [?a <? ?o] => destruct (a <? o) end;
    reflexivity.
Qed.


Lemma len_pos_ne {A} (l : list A) : l <> [] <-> 0 < len l.
Proof.
  pose proof (len_nonneg l). split.
  - intros Hne. destruct (Z.eq_dec (len l) 0) as [E|]; [|lia].
    by apply len_zero_nil in E.
  - intros Hl ->. unfold len in Hl. simpl in Hl. lia.
Qed.

Lemma target_empty x y dx dy : target [] x y dx dy = (0, 0).
Proof. reflexivity. Qed.

Lemma target_bounds ls x y dx dy :
  ls <> [] ->
  0 <= snd (target ls x y dx dy) < len ls /\
  0 <= fst (target ls x y dx dy)
    <= len (lineAt ls (snd (target ls x y dx dy))).
Proof.
  intros Hne. apply len_pos_ne in Hne. unfold target.
  destruct (Z.eqb_spec (len ls) 0); [lia|]. cbv zeta.
  set (Y := Z.max 0 (Z.min (y + dy) (len ls - 1))).
  assert (0 <= Y < len ls) by (unfold Y; lia).
  pose proof (len_nonneg (lineAt ls Y)).
  pose proof (len_nonneg (lineAt ls (Y - 1))).
  pose proof (len_nonneg (lineAt ls (Y + 1))).
  rewrite !Z.gtb_ltb.
  destruct (Z.ltb_spec (len (lineAt ls Y)) (x + dx)).
  - destruct (Z.eqb_spec dy 0); cbn [andb];
      [destruct (Z.ltb_spec (Y + 1) (len ls))|]; cbn [fst snd]; lia.
  - destruct (Z.ltb_spec (x + dx) 0); [|cbn [fst snd]; lia].
    destruct (Z.ltb_spec 0 Y); cbn [fst snd]; lia.
Qed.

(** A move that stays on the line. *)
Lemma target_plain ls x y dx dy :
  0 <= y + dy < len ls -> 0 <= x + dx <= len (lineAt ls (y + dy)) ->
  target ls x y dx dy = (x + dx, y + dy).
Proof.
  intros Hy Hx. unfold target.
  destruct (Z.eqb_spec (len ls) 0); [lia|]. cbv zeta.
  replace (Z.max 0 (Z.min (y + dy) (len ls - 1))) with (y + dy) by lia.
  rewrite !Z.gtb_ltb.
  destruct (Z.ltb_spec (len (lineAt ls (y + dy))) (x + dx)); [lia|].
  destruct (Z.ltb_spec (x + dx) 0); [lia|done].
Qed.

(** Stepping left from column 0 lands at the end of the previous row. *)
Lemma target_prev ls x y dx :
  0 < y < len ls -> x + dx < 0 ->
  target ls x y dx 0 = (len (lineAt ls (y - 1)), y - 1).
Proof.
  intros Hy Hx. unfold target.
  destruct (Z.eqb_spec (len ls) 0); [lia|]. cbv zeta.
  replace (Z.max 0 (Z.min (y + 0) (len ls - 1))) with y by lia.
  pose proof (len_nonneg (lineAt ls y)).
  rewrite !Z.gtb_ltb.
  destruct (Z.ltb_spec (len (lineAt ls y)) (x + dx)); [lia|].
  destruct (Z.ltb_spec (x + dx) 0); [|lia].
  destruct (Z.ltb_spec 0 y); [done|lia].
Qed.

(** [MoveCursor] always returns, keeps the buffer and leaves the cursor
    within [bounds], whatever state it starts from. *)
Lemma MoveCursor_bounds dx dy v :
  exists w, moveCursor dx dy v = Ok tt w /\ lines w = lines v /\ bounds w /\
            Overwrite w = Overwrite v /\ tainted w = tainted v /\
            (cx w, cy w) = target (lines v) (cx v) (cy v) dx dy.
Proof.
  destruct (lines v) as [|l0 ls0] eqn:Hl.
  - exists (set_cy 0 (set_cx 0 v)). rewrite MoveCursor_empty by done.
    unfold bounds. simpl. rewrite Hl. repeat split; try done; try lia.
  - assert (Hne : lines v <> []) by (by rewrite Hl).
    exists (moved' dx dy v). rewrite MoveCursor_run by done.
    pose proof (target_bounds (lines v) (cx v) (cy v) dx dy Hne) as [Hy Hx].
    unfold bounds, moved. cbn [lines cx cy Overwrite tainted].
    rewrite <- Hl. repeat split; try done; try lia.
    by destruct (target (lines v) (cx v) (cy v) dx dy).
Qed.

(** *** MoveCursor on machine integers *)

Lemma wrap_id z : in_int z -> wrap z = z.
Proof.
  unfold in_int, int_min, int_max, wrap. intros Hz.
  rewrite Z.mod_small by lia. lia.
Qed.

Lemma iadd_id a b : in_int (a + b) -> iadd a b = a + b.
Proof. apply wrap_id. Qed.

Lemma bind_step_ex {A B} (m : M A) (k : A -> M B) a b v v' (P : View -> Prop) :
  m v = Ok a v' ->
  (exists w, k a v' = Ok b w /\ P w) ->
  exists w, bind m k v = Ok b w /\ P w.
Proof.
  intros Hm (w & Hk & HP). exists w. split; [|done].
  by apply (bind_step m k a v v').
Qed.

(** The steps of [MoveCursor64] up to the resolved cursor, when the two
    sums it starts with are in the range of [int]: what is left to run is
    the scrolling, from the cursor [t] that the integers resolve to. *)
Ltac resolve_cursor64 dx dy v :=
  unfold MoveCursor64;
  eapply bind_step_ex; [reflexivity|cbv beta zeta];
  rewrite !(iadd_id (cx v) dx), !(iadd_id (cy v) dy) by done;
  destruct (Z.eqb_spec (len (lines v)) 0) as [|_]; [lia|];
  set (Y := Z.max 0 (Z.min (cy v + dy) (len (lines v) - 1)));
  replace (if (if cy v + dy >=? len (lines v)
               then len (lines v) - 1 else cy v + dy) <? 0
           then 0
           else if cy v + dy >=? len (lines v)
                then len (lines v) - 1 else cy v + dy) with Y
    by (unfold Y; rewrite Z.geb_leb;
        destruct (Z.leb_spec (len (lines v)) (cy v + dy)); zcmp; lia);
  assert (HYr : 0 <= Y < len (lines v)) by (unfold Y; lia);
  eapply bind_step_ex; [by apply index_ok|cbv beta];
  set (L := len (lineAt (lines v) Y));
  set (t := target (lines v) (cx v) (cy v) dx dy) in *;
  eapply (bind_step_ex _ _ t _ _ v);
  [ unfold t, target; fold Y; cbv zeta; fold L;
    destruct (Z.eqb_spec (len (lines v)) 0) as [|_]; [lia|];
    pose proof (len_nonneg (lineAt (lines v) Y)) as HL; fold L in HL;
    rewrite !Z.gtb_ltb;
    destruct (Z.ltb_spec L (cx v + dx));
    [ destruct ((dy =? 0) && (Y + 1 <? len (lines v))); cbn [fst snd];
      [ destruct (Z.ltb_spec 0 0); [lia|done]
      | destruct (Z.ltb_spec L 0); [lia|done] ]
    | cbn [fst snd]; destruct (Z.ltb_spec (cx v + dx) 0); [|done];
      destruct (Z.ltb_spec 0 Y); [|done];
      eapply bind_step; [apply index_ok; lia|cbv beta]; done ]
  | cbv beta zeta ].

(** As long as the two sums that [MoveCursor] starts with are in the range
    of [int], the machine arithmetic resolves the cursor as the integers
    do. *)
Lemma MoveCursor64_target dx dy v :
  lines v <> [] -> in_int (cx v + dx) -> in_int (cy v + dy) ->
  exists w,
    MoveCursor64 Size linesPosOnScreen dx dy v = Ok tt w /\
    lines w = lines v /\
    (cx w, cy w) = target (lines v) (cx v) (cy v) dx dy.
Proof.
  intros Hne HX HY0.
  assert (Hlen : 0 < len (lines v)) by (by apply len_pos_ne).
  resolve_cursor64 dx dy v.
  set (nX := fst (fst (linesPosOnScreen v (fst t) (snd t)))).
  set (nY := snd (fst (linesPosOnScreen v (fst t) (snd t)))).
  set (maxX := fst (Size v)). set (maxY := snd (Size v)).
  clearbody nX nY maxX maxY t. clear.
  destruct t as [tx ty]. destruct v as [ls x y ox0 oy0 ow wr tn fg bg].
  unfold bind, get, modify, ret, set_oy, set_ox, set_cx, set_cy.
  cbn [lines cx cy ox oy Overwrite Wrap tainted FgColor BgColor fst snd].
  destruct (nY >? isub (iadd oy0 maxY) 1);
    cbn [lines cx cy ox oy Overwrite Wrap tainted FgColor BgColor];
    match goal with |- context [nY <? ?o] => destruct (nY <? o) end;
    cbn [lines cx cy ox oy Overwrite Wrap tainted FgColor BgColor];
    destruct wr; cbn [negb]; try (by eexists);
    destruct (nX >? isub (iadd ox0 maxX) 1);
    cbn [lines cx cy ox oy Overwrite Wrap tainted FgColor BgColor];
    match goal with |- context [?a <? ?o] => destruct (a <? o) end;
    by eexists.
Qed.

(** When moreover the origin, the size and the screen position of the
    resolved cursor are far from the ends of the range, no operation of
    [MoveCursor64] wraps around: it runs as [MoveCursor] does. *)
Lemma MoveCursor64_run dx dy v :
  lines v <> [] -> in_int (cx v + dx) -> in_int (cy v + dy) ->
  no_overflow Size linesPosOnScreen dx dy v ->
  MoveCursor64 Size linesPosOnScreen dx dy v = Ok tt (moved' dx dy v).
Proof.
  intros Hne HX HY0 Hno. unfold no_overflow in Hno. cbv zeta in Hno.
  destruct Hno as (Hox & Hoy & HmX & HmY & HnX & HnY).
  assert (Hlen : 0 < len (lines v)) by (by apply len_pos_ne).
  cut (exists w, MoveCursor64 Size linesPosOnScreen dx dy v = Ok tt w /\
                 w = moved' dx dy v).
  { by intros (w & Hrun & ->). }
  resolve_cursor64 dx dy v.
  exists (moved' dx dy v). split; [|done].
  unfold moved. fold t.
  set (nX := fst (fst (linesPosOnScreen v (fst t) (snd t)))) in *.
  set (nY := snd (fst (linesPosOnScreen v (fst t) (snd t)))) in *.
  set (maxX := fst (Size v)) in *. set (maxY := snd (Size v)) in *.
  clearbody nX nY maxX maxY t. clear - Hox Hoy HmX HmY HnX HnY.
  unfold scrollY, scrollX, prevSize.
  destruct v as [ls x y ox0 oy0 ow wr tn fg bg].
  cbn [ox oy] in Hox, Hoy.
  unfold small in *.
  assert (E1 : isub (iadd oy0 maxY) 1 = oy0 + maxY - 1).
  { unfold isub, iadd. rewrite !wrap_id; [done|..];
      unfold in_int, int_min, int_max; rewrite ?wrap_id;
      unfold in_int, int_min, int_max; lia. }
  assert (E2 : iadd (isub nY maxY) 1 = nY - maxY + 1).
  { unfold isub, iadd. rewrite !wrap_id; [done|..];
      unfold in_int, int_min, int_max; rewrite ?wrap_id;
      unfold in_int, int_min, int_max; lia. }
  assert (E3 : isub (iadd ox0 maxX) 1 = ox0 + maxX - 1).
  { unfold isub, iadd. rewrite !wrap_id; [done|..];
      unfold in_int, int_min, int_max; rewrite ?wrap_id;
      unfold in_int, int_min, int_max; lia. }
  assert (E4 : iadd (isub nX maxX) 1 = nX - maxX + 1).
  { unfold isub, iadd. rewrite !wrap_id; [done|..];
      unfold in_int, int_min, int_max; rewrite ?wrap_id;
      unfold in_int, int_min, int_max; lia. }
  assert (E5 : forall k, 0 <= k <= 2 -> isub nX k = nX - k).
  { intros k Hk. unfold isub. rewrite wrap_id; [done|].
    unfold in_int, int_min, int_max. lia. }
  unfold bind, get, modify, ret, set_oy, set_ox, set_cx, set_cy.
  cbn [lines cx cy ox oy Overwrite Wrap tainted FgColor BgColor].
  rewrite E1, E2, E4, (E5 2), (E5 1) by lia.
  rewrite E5
    by (destruct ((maxX >? 2) && (nX - 2 >=? 0));
        [|destruct ((maxX >? 1) && (nX - 1 >=? 0))]; lia).
  clear - E3.
  destruct (nY >? oy0 + maxY - 1);
    cbn [lines cx cy ox oy Overwrite Wrap tainted FgColor BgColor];
    match goal with |- context [nY <? ?o] => destruct (nY <? o) end;
    cbn [lines cx cy ox oy Overwrite Wrap tainted FgColor BgColor];
    destruct wr; cbn [negb]; try reflexivity;
    rewrite E3;
    destruct (nX >? ox0 + maxX - 1);
    cbn [lines cx cy ox oy Overwrite Wrap tainted FgColor BgColor];
    match goal with |- context [?a <? ?o] => destruct (a <? o) end;
    reflexivity.
Qed.


(** *** Edit operations *)

Abbreviation editWrite := (EditWrite Size linesPosOnScreen).
Abbreviation editDelete := (EditDelete Size linesPosOnScreen).

Lemma at_cursor v :
  inBuffer v ->
  exists l1 a b l2,
    lines v = l1 ++ (a ++ b) :: l2 /\ cy v = len l1 /\ cx v = len a.
Proof.
  intros [Hy Hx].
  exists (take (Z.to_nat (cy v)) (lines v)),
         (take (Z.to_nat (cx v)) (lineAt (lines v) (cy v))),
         (drop (Z.to_nat (cx v)) (lineAt (lines v) (cy v))),
         (drop (Z.to_nat (cy v + 1)) (lines v)).
  rewrite take_drop. split; [by apply lineAt_take_drop|].
  rewrite !len_take. lia.
Qed.

Lemma grow_id ls y : y < len ls -> grow ls y = ls.
Proof. intros Hy. unfold grow. rewrite Z.geb_leb. by destruct (Z.leb_spec (len ls) y); [lia|]. Qed.

Lemma putCell_insert l a b x c :
  l = a ++ b -> x = len a -> putCell false l x c = a ++ c :: b.
Proof.
  intros -> ->. unfold putCell. rewrite len_app.
  pose proof (len_nonneg b).
  destruct (Z.leb_spec (len a + len b) (len a)).
  - assert (b = []) as -> by (apply len_zero_nil; lia).
    rewrite app_nil_r.
    replace (len a - (len a + len [])) with 0 by (unfold len; simpl; lia).
    reflexivity.
  - by rewrite take_middle, drop_middle.
Qed.

Lemma putCell_append ow l x c :
  x = len l -> putCell ow l x c = l ++ [c].
Proof.
  intros ->. unfold putCell.
  destruct (Z.leb_spec (len l) (len l)); [|lia].
  replace (len l - len l) with 0 by lia. reflexivity.
Qed.

(** [writeRune] never panics. *)
Lemma writeRune_total x y ch v :
  exists e w, writeRune x y ch v = Ok e w /\ cx w = cx v /\ cy w = cy v.
Proof.
  destruct (Z.lt_ge_cases x 0); [eexists _, _; by rewrite writeRune_err by lia|].
  destruct (Z.lt_ge_cases y 0); [eexists _, _; by rewrite writeRune_err by lia|].
  assert (Hy : 0 <= y < len (grow (lines v) y)).
  { unfold grow. rewrite Z.geb_leb. pose proof (len_nonneg (lines v)).
    destruct (Z.leb_spec (len (lines v)) y); [|lia].
    rewrite len_app, len_replicate. lia. }
  eexists _, _. split.
  - apply (writeRune_core (take (Z.to_nat y) (grow (lines v) y))
                          (drop (Z.to_nat (y + 1)) (grow (lines v) y))
                          (lineAt (grow (lines v) y) y)); [lia|lia| |].
    + by apply lineAt_take_drop.
    + rewrite len_take. lia.
  - done.
Qed.

Lemma EditWrite_at l1 l2 a b ch v :
  lines v = l1 ++ (a ++ b) :: l2 -> cy v = len l1 -> cx v = len a ->
  Overwrite v = false \/ b = [] ->
  exists w, editWrite ch v = Ok tt w /\
            lines w = l1 ++ (a ++ mkCell (FgColor v) (BgColor v) ch :: b) :: l2 /\
            cx w = cx v + 1 /\ cy w = cy v /\ Overwrite w = Overwrite v.
Proof.
  intros Hl Hy Hx Hmode.
  pose proof (len_nonneg l1). pose proof (len_nonneg l2).
  pose proof (len_nonneg a). pose proof (len_nonneg b).
  set (c := mkCell (FgColor v) (BgColor v) ch).
  set (w1 := set_lines (l1 ++ (a ++ c :: b) :: l2) (set_tainted true v)).
  destruct (MoveCursor_bounds 1 0 w1) as (w & Hrun & Hlw & _ & How & _ & Hc).
  exists w. split.
  - unfold EditWrite.
    step_pure.
    eapply bind_step; [|exact Hrun].
    rewrite (writeRune_core l1 l2 (a ++ b)); [|lia|lia| |done].
    + unfold w1, c. destruct Hmode as [Hm| ->].
      * by rewrite Hm, (putCell_insert _ a b) by done.
      * rewrite !app_nil_r. by rewrite putCell_append by lia.
    + rewrite grow_id; [done|]. rewrite Hl, len_middle. lia.
  - rewrite Hlw. unfold w1 in *. cbn [lines cx cy set_lines set_tainted] in *.
    rewrite target_plain in Hc.
    + inversion Hc. rewrite How. repeat split; try done; lia.
    + rewrite len_middle. lia.
    + replace (cy v + 0) with (len l1) by lia. rewrite lineAt_middle by done.
      rewrite len_middle. lia.
Qed.

(** Deleting backward inside a line. *)
Lemma EditDelete_back_at l1 l2 a b c v :
  lines v = l1 ++ (a ++ c :: b) :: l2 -> cy v = len l1 -> cx v = len a + 1 ->
  exists w, editDelete true v = Ok tt w /\
            lines w = l1 ++ (a ++ b) :: l2 /\
            cx w = cx v - 1 /\ cy w = cy v /\ Overwrite w = Overwrite v.
Proof.
  intros Hl Hy Hx.
  pose proof (len_nonneg l1). pose proof (len_nonneg l2).
  pose proof (len_nonneg a). pose proof (len_nonneg b).
  set (w1 := set_lines (l1 ++ (a ++ b) :: l2) (set_tainted true v)).
  destruct (MoveCursor_bounds (-1) 0 w1) as (w & Hrun & Hlw & _ & How & _ & Hc).
  exists w. split.
  - unfold EditDelete.
    eapply bind_step; [reflexivity|cbv beta zeta].
    rewrite Hl, len_middle. rewrite Z.geb_leb.
    destruct (Z.ltb_spec (cy v) 0); [lia|].
    destruct (Z.leb_spec (len l1 + 1 + len l2) (cy v)); [lia|].
    destruct (Z.leb_spec (cx v) 0); [lia|]. cbn [andb].
    step_pure.
    eapply bind_step;
      [apply (deleteRune_cut l1 l2 a b c); [done|lia|lia]|exact Hrun].
  - rewrite Hlw. unfold w1 in *. cbn [lines cx cy set_lines set_tainted] in *.
    rewrite target_plain in Hc.
    + inversion Hc. rewrite How. repeat split; try done; lia.
    + rewrite len_middle. lia.
    + replace (cy v + 0) with (len l1) by lia. rewrite lineAt_middle by done.
      rewrite len_app. lia.
Qed.


(** Splitting the line under the cursor. *)
Lemma EditNewLine_at l1 l2 a b v :
  lines v = l1 ++ (a ++ b) :: l2 -> cy v = len l1 -> cx v = len a ->
  EditNewLine v =
  Ok tt (set_cx 0 (set_cy (cy v + 1) (set_ox 0
          (set_lines (l1 ++ a :: b :: l2) (set_tainted true v))))).
Proof.
  intros Hl Hy Hx. pose proof (len_nonneg a).
  unfold EditNewLine.
  step_pure.
  eapply bind_step.
  { rewrite (breakLine_split l1 l2 (a ++ b)) by (done || lia).
    by rewrite take_middle, drop_middle by done. }
  reflexivity.
Qed.

(** Deleting backward at column 0 of a row that has a predecessor. *)
Lemma EditDelete_merge_at l1 l2 a b v :
  lines v = l1 ++ a :: b :: l2 -> cy v = len l1 + 1 -> cx v = 0 ->
  exists w, editDelete true v = Ok tt w /\
            lines w = l1 ++ (a ++ b) :: l2 /\
            cx w = len a /\ cy w = len l1 /\ Overwrite w = Overwrite v.
Proof.
  intros Hl Hy Hx.
  pose proof (len_nonneg l1). pose proof (len_nonneg l2).
  destruct (MoveCursor_bounds (-1) 0 v) as (w1 & Hrun & Hlw & _ & How & _ & Hc).
  rewrite target_prev in Hc by (rewrite ?Hl, ?len_middle, ?len_cons; lia).
  replace (cy v - 1) with (len l1) in Hc by lia.
  rewrite Hl, lineAt_middle in Hc by done. inversion Hc as [[Hcx Hcy]].
  exists (set_lines (l1 ++ (a ++ b) :: l2) (set_tainted true w1)).
  split; [|by cbn [lines cx cy Overwrite set_lines set_tainted]].
  unfold EditDelete.
  eapply bind_step; [reflexivity|cbv beta zeta].
  rewrite Hl, len_middle, len_cons. rewrite Z.geb_leb.
  destruct (Z.ltb_spec (cy v) 0); [lia|].
  destruct (Z.leb_spec (len l1 + 1 + (1 + len l2)) (cy v)); [lia|].
  destruct (Z.leb_spec (cx v) 0); [|lia]. cbn [andb].
  destruct (Z.leb_spec (cy v) 0); [lia|].
  eapply bind_step; [exact Hrun|cbv beta].
  eapply bind_step; [|reflexivity].
  apply mergeLines_join; [by rewrite Hlw|lia].
Qed.

(** With the cursor row beyond the last line, [EditDelete] is exactly
    [MoveCursor(-1, 0)]. *)
Lemma EditDelete_stale back v :
  len (lines v) <= cy v -> editDelete back v = moveCursor (-1) 0 v.
Proof.
  intros Hy. pose proof (len_nonneg (lines v)).
  unfold EditDelete.
  eapply bind_step; [reflexivity|cbv beta zeta].
  rewrite Z.geb_leb.
  destruct (Z.ltb_spec (cy v) 0); [lia|].
  destruct (Z.leb_spec (len (lines v)) (cy v)); [done|lia].
Qed.


(** *** The cursor bounds along the operations *)

Lemma bounds_cursor_ok v : bounds v -> cursor_ok v.
Proof.
  intros [Hy Hx]. repeat split; try lia.
  intros Hne%len_pos_ne. lia.
Qed.

Lemma inBuffer_bounds v : inBuffer v -> bounds v.
Proof. intros [Hy Hx]. split; lia. Qed.

Lemma cursor_ok_cases v :
  cursor_ok v -> (lines v = [] /\ cx v = 0 /\ 0 <= cy v) \/ inBuffer v.
Proof.
  intros (Hy & Hrow & Hx). pose proof (len_nonneg (lines v)).
  destruct (Z.eq_dec (len (lines v)) 0) as [E|Hne].
  - left. rewrite lineAt_out in Hx by lia.
    apply len_zero_nil in E. unfold len in Hx. simpl in Hx.
    repeat split; [done|lia|done].
  - right. split; [|done]. split; [done|]. apply Hrow, len_pos_ne. lia.
Qed.

Lemma inBuffer_at l1 l l2 w :
  lines w = l1 ++ l :: l2 -> cy w = len l1 -> 0 <= cx w <= len l ->
  inBuffer w.
Proof.
  intros Hl Hy Hx. pose proof (len_nonneg l1). pose proof (len_nonneg l2).
  unfold inBuffer. rewrite Hl, len_middle, lineAt_middle by done. lia.
Qed.

Lemma cursor_ok_at l1 l l2 w :
  lines w = l1 ++ l :: l2 -> cy w = len l1 -> 0 <= cx w <= len l ->
  cursor_ok w.
Proof.
  intros. by eapply bounds_cursor_ok, inBuffer_bounds, inBuffer_at.
Qed.

Lemma EditWrite_ok ch v :
  exists w, editWrite ch v = Ok tt w /\ bounds w.
Proof.
  destruct (writeRune_total (cx v) (cy v) ch v) as (e & w1 & Hw & _).
  destruct (MoveCursor_bounds 1 0 w1) as (w & Hrun & _ & Hb & _).
  exists w. split; [|done].
  unfold EditWrite.
  step_pure.
  eapply bind_step; [exact Hw|exact Hrun].
Qed.

Lemma EditDelete_ok back v :
  cursor_ok v -> exists w, editDelete back v = Ok tt w /\ cursor_ok w.
Proof.
  intros Hok. destruct (cursor_ok_cases v Hok) as [(Hl & _ & Hy)|Hin].
  { (* no line: the stale-cursor branch *)
    destruct (MoveCursor_bounds (-1) 0 v) as (w & Hrun & _ & Hb & _).
    exists w. split; [|by apply bounds_cursor_ok].
    rewrite EditDelete_stale; [done|]. rewrite Hl. unfold len. simpl. lia. }
  destruct (at_cursor v Hin) as (l1 & a & b & l2 & Hl & Hy & Hx).
  pose proof (len_nonneg l1). pose proof (len_nonneg l2).
  pose proof (len_nonneg a). pose proof (len_nonneg b).
  destruct back.
  - (* backward *)
    destruct a as [|c a' _] using rev_ind.
    + (* column 0 *)
      destruct l1 as [|p l1' _] using rev_ind.
      * exists v. split; [|done].
        unfold EditDelete.
        eapply bind_step; [reflexivity|cbv beta zeta].
        rewrite Hl, len_middle, Hy, Hx, !len_nil. rewrite Z.geb_leb.
        destruct (Z.leb_spec (0 + 1 + len l2) 0); [lia|]. done.
      * rewrite <- app_assoc in Hl. simpl in Hl.
        rewrite len_app, len_singleton in Hy.
        destruct (EditDelete_merge_at l1' l2 p b v Hl Hy Hx)
          as (w & Hrun & Hlw & Hcx & Hcy & _).
        exists w. split; [done|].
        apply (cursor_ok_at l1' (p ++ b) l2); [done|done|].
        rewrite Hcx, len_app. pose proof (len_nonneg p). lia.
    + rewrite <- app_assoc in Hl. simpl in Hl.
      rewrite len_app, len_singleton in Hx.
      destruct (EditDelete_back_at l1 l2 a' b c v Hl Hy Hx)
        as (w & Hrun & Hlw & Hcx & Hcy & _).
      exists w. split; [done|].
      apply (cursor_ok_at l1 (a' ++ b) l2); [done|lia|].
      rewrite Hcx, len_app. pose proof (len_nonneg a'). lia.
  - (* forward *)
    assert (Hhead :
      editDelete false v =
      (if cx v =? len (a ++ b) then mergeLines (cy v) ;;; ret tt
       else v' <- get ;; deleteRune (cx v') (cy v') ;;; ret tt)%go v).
    { unfold EditDelete.
      eapply bind_step; [reflexivity|cbv beta zeta].
      rewrite Hl, len_middle. rewrite Z.geb_leb.
      destruct (Z.ltb_spec (cy v) 0); [lia|].
      destruct (Z.leb_spec (len l1 + 1 + len l2) (cy v)); [lia|].
      cbn [andb].
      eapply bind_step; [|reflexivity].
      rewrite <- Hl. rewrite index_ok by (rewrite Hl, len_middle; lia).
      by rewrite Hl, lineAt_middle. }
    rewrite Hhead. clear Hhead.
    rewrite len_app.
    destruct b as [|c b'].
    + (* end of the line *)
      rewrite len_nil.
      destruct (Z.eqb_spec (cx v) (len a + 0)) as [_|Hne]; [|lia].
      rewrite app_nil_r in Hl.
      destruct l2 as [|n l2'].
      * exists (set_tainted true v). split.
        -- eapply bind_step; [|reflexivity].
           apply mergeLines_last; [lia|]. rewrite Hl, len_middle, len_nil. lia.
        -- apply (cursor_ok_at l1 a []); [done|done|cbn [cx set_lines set_tainted]; lia].
      * exists (set_lines (l1 ++ (a ++ n) :: l2') (set_tainted true v)). split.
        -- eapply bind_step; [|reflexivity]. by apply mergeLines_join.
        -- apply (cursor_ok_at l1 (a ++ n) l2'); [done|done|].
           cbn [cx set_lines set_tainted]. rewrite len_app. pose proof (len_nonneg n).
           lia.
    + rewrite len_cons in *. pose proof (len_nonneg b').
      destruct (Z.eqb_spec (cx v) (len a + (1 + len b'))) as [|_]; [lia|].
      exists (set_lines (l1 ++ (a ++ b') :: l2) (set_tainted true v)). split.
      * step_pure.
        eapply bind_step; [|reflexivity].
        by apply (deleteRune_cut l1 l2 a b' c).
      * apply (cursor_ok_at l1 (a ++ b') l2); [done|done|].
        cbn [cx set_lines set_tainted]. rewrite len_app. lia.
Qed.

Lemma EditNewLine_ok v :
  cursor_ok v -> exists w, EditNewLine v = Ok tt w /\ cursor_ok w.
Proof.
  intros Hok. destruct (cursor_ok_cases v Hok) as [(Hl & Hx & Hy)|Hin].
  - exists (set_cx 0 (set_cy (cy v + 1) (set_ox 0 (set_tainted true v)))).
    split.
    + unfold EditNewLine.
      step_pure.
      eapply bind_step;
        [apply breakLine_err; right; rewrite Hl, len_nil; lia|reflexivity].
    + unfold cursor_ok. simpl. rewrite Hl.
      rewrite lineAt_out by (right; unfold len; simpl; lia).
      unfold len. simpl. repeat split; try lia. done.
  - destruct (at_cursor v Hin) as (l1 & a & b & l2 & Hl & Hy & Hx).
    eexists. split; [by apply (EditNewLine_at l1 l2 a b)|].
    pose proof (len_nonneg b).
    apply (cursor_ok_at (l1 ++ [a]) b l2).
    + cbn. by rewrite <- app_assoc.
    + cbn [cy set_cx set_cy]. rewrite len_app, len_singleton. lia.
    + cbn [cx set_cx]. lia.
Qed.


(** *** Loops *)

Lemma target_next ls x y dx :
  0 <= y -> y + 1 < len ls -> len (lineAt ls y) < x + dx ->
  target ls x y dx 0 = (0, y + 1).
Proof.
  intros Hy0 Hy Hx. unfold target.
  destruct (Z.eqb_spec (len ls) 0); [lia|]. cbv zeta.
  replace (Z.max 0 (Z.min (y + 0) (len ls - 1))) with y by lia.
  rewrite !Z.gtb_ltb.
  destruct (Z.ltb_spec (len (lineAt ls y)) (x + dx)); [|lia].
  destruct (Z.ltb_spec (y + 1) (len ls)); [done|lia].
Qed.

Lemma target_stuck ls x y dx :
  0 <= y -> y + 1 = len ls -> len (lineAt ls y) < x + dx ->
  target ls x y dx 0 = (len (lineAt ls y), y).
Proof.
  intros Hy0 Hy Hx. unfold target.
  destruct (Z.eqb_spec (len ls) 0); [lia|]. cbv zeta.
  replace (Z.max 0 (Z.min (y + 0) (len ls - 1))) with y by lia.
  rewrite !Z.gtb_ltb.
  destruct (Z.ltb_spec (len (lineAt ls y)) (x + dx)); [|lia].
  destruct (Z.ltb_spec (y + 1) (len ls)); [lia|done].
Qed.

Abbreviation startLoop := (gotoStartLoop Size linesPosOnScreen).
Abbreviation delLoop := (deleteToStartLoop Size linesPosOnScreen).
Abbreviation endLoop := (gotoEndLoop Size linesPosOnScreen).

Lemma gotoStartLoop_ok (n : nat) : forall v,
  cursor_ok v -> cx v <= Z.of_nat n ->
  exists w, cursor_ok w /\
    forall fuel, (n <= fuel)%nat -> startLoop fuel (cx v) v = Ok tt w.
Proof.
  induction n as [|n IH]; intros v Hok Hn.
  - exists v. split; [done|]. intros fuel _.
    destruct fuel; simpl; rewrite Z.gtb_ltb;
      by destruct (Z.ltb_spec 0 (cx v)); [lia|].
  - destruct (Z.le_gt_cases (cx v) 0) as [Hle|Hgt].
    { exists v. split; [done|]. intros fuel _.
      destruct fuel; simpl; rewrite Z.gtb_ltb;
        by destruct (Z.ltb_spec 0 (cx v)); [lia|]. }
    destruct (cursor_ok_cases v Hok) as [(_ & Hx0 & _)|[Hy Hx]]; [lia|].
    destruct (MoveCursor_bounds (-1) 0 v) as (w1 & Hrun & Hlw & Hb & _ & _ & Hc).
    rewrite target_plain in Hc by (rewrite ?Z.add_0_r; lia).
    inversion Hc as [[Hcx Hcy]].
    destruct (IH w1) as (w & Hokw & Hloop); [by apply bounds_cursor_ok|lia|].
    exists w. split; [done|]. intros [|fuel] Hfuel; [lia|].
    simpl. rewrite Z.gtb_ltb. destruct (Z.ltb_spec 0 (cx v)); [|lia].
    eapply bind_step; [exact Hrun|cbv beta].
    step_pure. cbn [fst].
    apply Hloop. lia.
Qed.

Lemma deleteToStartLoop_ok (n : nat) : forall v,
  cursor_ok v -> cx v <= Z.of_nat n ->
  exists w, cursor_ok w /\
    forall fuel, (n <= fuel)%nat -> delLoop fuel (cx v) v = Ok tt w.
Proof.
  induction n as [|n IH]; intros v Hok Hn.
  - exists v. split; [done|]. intros fuel _.
    destruct fuel; simpl; rewrite Z.gtb_ltb;
      by destruct (Z.ltb_spec 0 (cx v)); [lia|].
  - destruct (Z.le_gt_cases (cx v) 0) as [Hle|Hgt].
    { exists v. split; [done|]. intros fuel _.
      destruct fuel; simpl; rewrite Z.gtb_ltb;
        by destruct (Z.ltb_spec 0 (cx v)); [lia|]. }
    destruct (cursor_ok_cases v Hok) as [(_ & Hx0 & _)|Hin]; [lia|].
    destruct (at_cursor v Hin) as (l1 & a & b & l2 & Hl & Hy & Hx).
    destruct a as [|c a' _] using rev_ind; [rewrite len_nil in Hx; lia|].
    rewrite <- app_assoc in Hl. simpl in Hl.
    rewrite len_app, len_singleton in Hx.
    destruct (EditDelete_back_at l1 l2 a' b c v Hl Hy Hx)
      as (w1 & Hrun & Hlw & Hcx & Hcy & _).
    assert (Hok1 : cursor_ok w1).
    { apply (cursor_ok_at l1 (a' ++ b) l2); [done|lia|].
      rewrite Hcx, len_app. pose proof (len_nonneg a'). pose proof (len_nonneg b). lia. }
    destruct (IH w1 Hok1) as (w & Hokw & Hloop); [lia|].
    exists w. split; [done|]. intros [|fuel] Hfuel; [lia|].
    simpl. rewrite Z.gtb_ltb. destruct (Z.ltb_spec 0 (cx v)); [|lia].
    eapply bind_step; [exact Hrun|cbv beta].
    step_pure. cbn [fst].
    apply Hloop. lia.
Qed.

Lemma cells_nonneg ls : 0 <= cells ls.
Proof. induction ls as [|l ls IH]; simpl; [lia|]. pose proof (len_nonneg l). lia. Qed.

Lemma rest_at l1 l l2 v :
  lines v = l1 ++ l :: l2 -> cy v = len l1 ->
  rest v = len l + cells l2 - cx v.
Proof.
  intros Hl Hy. unfold rest. rewrite Hl, drop_middle by done. simpl. lia.
Qed.

(** A step to the right that changes the column uses up one position. *)
Lemma rest_step v w1 :
  bounds v -> lines w1 = lines v ->
  (cx w1, cy w1) = target (lines v) (cx v) (cy v) 1 0 ->
  cx w1 <> cx v ->
  rest w1 <= rest v - 1 /\ 0 <= rest w1.
Proof.
  intros Hb Hlw Hc Hmv.
  destruct (cursor_ok_cases v (bounds_cursor_ok v Hb)) as [(Hl0 & Hx0 & _)|Hin].
  { rewrite Hl0, target_empty in Hc. inversion Hc. lia. }
  destruct (at_cursor v Hin) as (l1 & a & b & l2 & Hl & Hy & Hx).
  pose proof (len_nonneg l1). pose proof (len_nonneg a).
  pose proof (len_nonneg b). pose proof (len_nonneg l2).
  pose proof (cells_nonneg l2).
  rewrite (rest_at l1 (a ++ b) l2 v) by done.
  rewrite Hl in Hc, Hlw.
  destruct b as [|c b'].
  - rewrite app_nil_r in *. destruct l2 as [|nx l2'].
    + rewrite target_stuck in Hc.
      * rewrite Hy, lineAt_middle in Hc by done.
        inversion Hc. lia.
      * lia.
      * rewrite len_middle, len_nil. lia.
      * rewrite Hy, lineAt_middle by done. lia.
    + pose proof (len_nonneg l2').
      rewrite target_next in Hc.
      * inversion Hc as [[Hcx Hcy]].
        rewrite (rest_at (l1 ++ [a]) nx l2' w1).
        -- pose proof (len_nonneg nx). pose proof (cells_nonneg l2').
           simpl. lia.
        -- by rewrite Hlw, <- app_assoc.
        -- rewrite len_app, len_singleton. lia.
      * lia.
      * rewrite len_middle, len_cons. lia.
      * rewrite Hy, lineAt_middle by done. lia.
  - pose proof (len_nonneg b').
    rewrite target_plain in Hc.
    + inversion Hc as [[Hcx Hcy]].
      rewrite (rest_at l1 (a ++ c :: b') l2 w1); [|done|lia].
      rewrite !len_app, !len_cons. lia.
    + rewrite len_middle. lia.
    + rewrite Z.add_0_r, Hy, lineAt_middle by done.
      rewrite len_app, len_cons. lia.
Qed.

Lemma gotoEndLoop_exit v x fuel : endLoop fuel x x v = Ok tt v.
Proof. destruct fuel; simpl; by rewrite Z.eqb_refl. Qed.

Lemma gotoEndLoop_iter v prevX fuel w1 :
  prevX <> cx v -> moveCursor 1 0 v = Ok tt w1 ->
  endLoop (S fuel) prevX (cx v) v = endLoop fuel (cx v) (cx w1) w1.
Proof.
  intros Hne Hrun. cbn [gotoEndLoop].
  destruct (Z.eqb_spec prevX (cx v)); [done|]. cbn [negb].
  eapply bind_step; [exact Hrun|cbv beta].
  eapply bind_step; reflexivity.
Qed.

Lemma gotoEndLoop_ok (n : nat) : forall v prevX,
  bounds v -> rest v <= Z.of_nat n ->
  exists w, bounds w /\
    forall fuel, (S n <= fuel)%nat -> endLoop fuel prevX (cx v) v = Ok tt w.
Proof.
  induction n as [|n IH]; intros v prevX Hb Hn.
  - destruct (Z.eq_dec prevX (cx v)) as [->|Hne].
    { exists v. split; [done|]. intros fuel _. apply gotoEndLoop_exit. }
    destruct (MoveCursor_bounds 1 0 v) as (w1 & Hrun & Hlw & Hb1 & _ & _ & Hc).
    destruct (Z.eq_dec (cx w1) (cx v)) as [Heq|Hmv].
    + exists w1. split; [done|]. intros [|fuel] Hfuel; [lia|].
      rewrite (gotoEndLoop_iter v prevX fuel w1) by done. rewrite Heq. apply gotoEndLoop_exit.
    + destruct (rest_step v w1 Hb Hlw Hc Hmv). lia.
  - destruct (Z.eq_dec prevX (cx v)) as [->|Hne].
    { exists v. split; [done|]. intros fuel _. apply gotoEndLoop_exit. }
    destruct (MoveCursor_bounds 1 0 v) as (w1 & Hrun & Hlw & Hb1 & _ & _ & Hc).
    destruct (Z.eq_dec (cx w1) (cx v)) as [Heq|Hmv].
    + exists w1. split; [done|]. intros [|fuel] Hfuel; [lia|].
      rewrite (gotoEndLoop_iter v prevX fuel w1) by done. rewrite Heq. apply gotoEndLoop_exit.
    + destruct (rest_step v w1 Hb Hlw Hc Hmv) as [Hdec Hpos].
      destruct (IH w1 (cx v) Hb1) as (w & Hbw & Hloop); [lia|].
      exists w. split; [done|]. intros [|fuel] Hfuel; [lia|].
      rewrite (gotoEndLoop_iter v prevX fuel w1) by done. apply Hloop. lia.
Qed.

End Facts.

(** ** Sequences of operations *)

Section Sequences.

Variable Size : View -> Z * Z.
Variable linesPosOnScreen : View -> Z -> Z -> Z * Z * bool.
Variable SetCursor : Z -> Z -> View -> View.

(** All that the sequel needs of [SetCursor]: asked for a column that is
    not negative, from a column that is not negative, it does not leave a
    negative one. *)
Hypothesis SetCursor_column :
  forall x y v, 0 <= x -> 0 <= cx v -> 0 <= cx (SetCursor x y v).

Lemma EditGotoToStartOfLine_ok v :
  cursor_ok v ->
  exists (f : nat) w, cursor_ok w /\
    forall fuel, (f <= fuel)%nat ->
      EditGotoToStartOfLine Size linesPosOnScreen fuel v = Ok tt w.
Proof.
  intros Hok.
  destruct (gotoStartLoop_ok Size linesPosOnScreen (Z.to_nat (cx v)) v Hok)
    as (w & Hw & Hloop); [lia|].
  exists (Z.to_nat (cx v)), w. split; [done|]. intros fuel Hfuel.
  unfold EditGotoToStartOfLine.
  step_pure. cbn [fst]. by apply Hloop.
Qed.

Lemma EditDeleteToStartOfLine_ok v :
  cursor_ok v ->
  exists (f : nat) w, cursor_ok w /\
    forall fuel, (f <= fuel)%nat ->
      EditDeleteToStartOfLine Size linesPosOnScreen fuel v = Ok tt w.
Proof.
  intros Hok. destruct (Z.eq_dec (cx v) 0) as [Hx|Hx].
  - destruct (EditDelete_ok Size linesPosOnScreen true v Hok) as (w & Hrun & Hw).
    exists O, w. split; [done|]. intros fuel _.
    unfold EditDeleteToStartOfLine.
    step_pure. cbn [fst].
    by destruct (Z.eqb_spec (cx v) 0).
  - destruct (deleteToStartLoop_ok Size linesPosOnScreen (Z.to_nat (cx v)) v Hok)
      as (w & Hw & Hloop); [lia|].
    exists (Z.to_nat (cx v)), w. split; [done|]. intros fuel Hfuel.
    unfold EditDeleteToStartOfLine.
    step_pure. cbn [fst].
    destruct (Z.eqb_spec (cx v) 0); [done|]. by apply Hloop.
Qed.

Lemma EditGotoToEndOfLine_ok v :
  cursor_ok v ->
  exists (f : nat) w, cursor_ok w /\
    forall fuel, (f <= fuel)%nat ->
      EditGotoToEndOfLine Size linesPosOnScreen SetCursor fuel v = Ok tt w.
Proof.
  intros Hok. set (u := SetCursor 0 (cy v + 1) v).
  assert (Hu : 0 <= cx u).
  { apply SetCursor_column; [lia|]. destruct Hok as (_ & _ & Hx). lia. }
  assert (Hhead : forall fuel,
    EditGotoToEndOfLine Size linesPosOnScreen SetCursor fuel v =
    (if cy u =? cy v
     then gotoEndLoop Size linesPosOnScreen fuel (-1) (cx u)
     else MoveCursor Size linesPosOnScreen (-1) 0) u).
  { intros fuel. unfold EditGotoToEndOfLine.
    eapply bind_step; [reflexivity|cbv beta zeta]. cbn [snd].
    step_pure. fold u.
    eapply bind_step; reflexivity. }
  destruct (Z.eqb_spec (cy u) (cy v)) as [Hrow|Hrow].
  - destruct (MoveCursor_bounds Size linesPosOnScreen 1 0 u)
      as (w1 & Hrun & _ & Hb1 & _).
    destruct (gotoEndLoop_ok Size linesPosOnScreen (Z.to_nat (rest w1)) w1 (cx u) Hb1)
      as (w & Hbw & Hloop); [lia|].
    exists (S (S (Z.to_nat (rest w1)))), w.
    split; [by apply bounds_cursor_ok|]. intros [|fuel] Hfuel; [lia|].
    rewrite Hhead.
    rewrite (gotoEndLoop_iter Size linesPosOnScreen u (-1) fuel w1) by (done || lia).
    apply Hloop. lia.
  - destruct (MoveCursor_bounds Size linesPosOnScreen (-1) 0 u)
      as (w & Hrun & _ & Hb & _).
    exists O, w. split; [by apply bounds_cursor_ok|]. intros fuel _.
    by rewrite Hhead.
Qed.

(** Every operation returns, given enough fuel, and keeps [cursor_ok]. *)
Lemma exec_ok o v :
  cursor_ok v ->
  exists (f : nat) w, cursor_ok w /\
    forall fuel, (f <= fuel)%nat ->
      exec Size linesPosOnScreen SetCursor fuel o v = Ok tt w.
Proof.
  intros Hok. destruct o as [ch|back| |dx dy| | |]; cbn [exec].
  - destruct (EditWrite_ok Size linesPosOnScreen ch v) as (w & Hrun & Hb).
    exists O, w. split; [by apply bounds_cursor_ok|done].
  - destruct (EditDelete_ok Size linesPosOnScreen back v Hok) as (w & Hrun & Hw).
    by exists O, w.
  - destruct (EditNewLine_ok v Hok) as (w & Hrun & Hw). by exists O, w.
  - destruct (MoveCursor_bounds Size linesPosOnScreen dx dy v)
      as (w & Hrun & _ & Hb & _).
    exists O, w. split; [by apply bounds_cursor_ok|done].
  - by apply EditGotoToStartOfLine_ok.
  - by apply EditGotoToEndOfLine_ok.
  - by apply EditDeleteToStartOfLine_ok.
Qed.

Lemma run_ok os : forall v,
  cursor_ok v ->
  exists (f : nat) w, cursor_ok w /\
    forall fuel, (f <= fuel)%nat ->
      run Size linesPosOnScreen SetCursor fuel os v = Ok tt w.
Proof.
  induction os as [|o os IH]; intros v Hok.
  - by exists O, v.
  - destruct (exec_ok o v Hok) as (f1 & w1 & Hok1 & Hexec).
    destruct (IH w1 Hok1) as (f2 & w & Hokw & Hrun).
    exists (Nat.max f1 f2), w. split; [done|]. intros fuel Hfuel.
    cbn [run]. eapply bind_step; [apply Hexec; lia|apply Hrun; lia].
Qed.

(** The same after each call of the sequence: one amount of fuel serves
    all the prefixes. *)
Lemma run_prefixes_ok os v :
  cursor_ok v ->
  forall n : nat,
  exists f : nat,
    forall fuel, (f <= fuel)%nat ->
    forall k, (k <= n)%nat ->
    exists w,
      run Size linesPosOnScreen SetCursor fuel (take k os) v = Ok tt w /\
      cursor_ok w.
Proof.
  intros Hok. induction n as [|n [f1 IH]].
  - exists O. intros fuel _ k Hk. assert (k = O) as -> by lia. by exists v.
  - destruct (run_ok (take (S n) os) v Hok) as (f2 & w2 & Hok2 & Hrun2).
    exists (Nat.max f1 f2). intros fuel Hfuel k Hk.
    destruct (Nat.eq_dec k (S n)) as [->|Hne].
    + exists w2. split; [apply Hrun2; lia|done].
    + apply IH; lia.
Qed.

Lemma initial_cursor_ok v : initial v -> cursor_ok v.
Proof.
  intros (Hl & Hx & Hy & _). unfold cursor_ok. rewrite Hl, Hx, Hy.
  repeat split; try done.
Qed.

End Sequences.

(** ** Auxiliary facts for the specifications of the primitives *)

Lemma len_grow ls y : 0 <= y -> len (grow ls y) = Z.max (len ls) (y + 1).
Proof.
  intros Hy. unfold grow. rewrite Z.geb_leb. pose proof (len_nonneg ls).
  destruct (Z.leb_spec (len ls) y); [|lia].
  rewrite len_app, len_replicate. lia.
Qed.

Lemma lineAt_grow ls y i : lineAt (grow ls y) i = lineAt ls i.
Proof.
  unfold grow. rewrite Z.geb_leb.
  destruct (Z.leb_spec (len ls) y); [|done].
  unfold lineAt. destruct (Z.ltb_spec i 0); [done|].
  destruct (Z.lt_ge_cases i (len ls)).
  - by rewrite lookup_app_l by (unfold len in *; lia).
  - rewrite lookup_app_r by (unfold len in *; lia).
    rewrite (proj2 (lookup_ge_None ls (Z.to_nat i))) by (unfold len in *; lia).
    destruct (replicate _ _ !! _) eqn:E; [|done].
    by apply lookup_replicate in E as [-> _].
Qed.

Lemma lineAt_other (l1 l2 : list (list cell)) (l l' : list cell) i :
  i <> len l1 -> lineAt (l1 ++ l' :: l2) i = lineAt (l1 ++ l :: l2) i.
Proof.
  intros Hi. unfold lineAt. destruct (Z.ltb_spec i 0); [done|].
  destruct (Z.lt_ge_cases i (len l1)).
  - by rewrite !lookup_app_l by (unfold len in *; lia).
  - rewrite !lookup_app_r by (unfold len in *; lia).
    destruct (Z.to_nat i - length l1)%nat eqn:E; [unfold len in *; lia|done].
Qed.

Lemma putCell_cases ow l x c :
  0 <= x ->
  putCell ow l x c =
  if negb ow || (len l <=? x)
  then take (Z.to_nat x) l ++ replicate (Z.to_nat (x - len l)) zeroCell
         ++ c :: drop (Z.to_nat x) l
  else <[Z.to_nat x := c]> l.
Proof.
  intros Hx. unfold putCell. destruct (Z.leb_spec (len l) x).
  - rewrite orb_true_r.
    by rewrite take_ge, drop_ge by (unfold len in *; lia).
  - rewrite orb_false_r. destruct ow; [done|]. cbn [negb].
    by replace (Z.to_nat (x - len l)) with O by lia.
Qed.

Lemma len_putCell ow l x c :
  0 <= x ->
  len (putCell ow l x c) =
  if negb ow || (len l <=? x) then Z.max (len l) x + 1 else len l.
Proof.
  intros Hx. unfold putCell. pose proof (len_nonneg l).
  destruct (Z.leb_spec (len l) x).
  - rewrite orb_true_r, !len_app, len_replicate, len_singleton. lia.
  - rewrite orb_false_r. destruct ow; cbn [negb].
    + by rewrite len_insert.
    + rewrite len_app, len_cons, len_take, len_drop. lia.
Qed.

Lemma two_lines ls y :
  0 <= y -> y + 1 < len ls ->
  ls = take (Z.to_nat y) ls
       ++ lineAt ls y :: lineAt ls (y + 1) :: drop (Z.to_nat (y + 2)) ls.
Proof.
  intros Hy0 Hy.
  rewrite (lineAt_take_drop ls y) at 1 by lia. do 2 f_equal.
  replace (Z.to_nat (y + 2)) with (S (Z.to_nat (y + 1))) by lia.
  apply drop_S. apply lineAt_lookup. lia.
Qed.

Lemma deleteRune_ok x y v :
  0 <= y < len (lines v) -> 0 <= x < len (lineAt (lines v) y) ->
  exists ls', deleteRune x y v = Ok None (set_lines ls' (set_tainted true v)).
Proof.
  intros Hy Hx.
  destruct (split_at (lineAt (lines v) y) x Hx) as (a & c & b & El & Ha).
  eexists.
  apply (deleteRune_cut (take (Z.to_nat y) (lines v))
           (drop (Z.to_nat (y + 1)) (lines v)) a b c); [|rewrite len_take; lia|done].
  rewrite <- El. by apply lineAt_take_drop.
Qed.

Lemma scrollY_visible oy0 maxY nY :
  1 <= maxY ->
  scrollY oy0 maxY nY <= nY <= scrollY oy0 maxY nY + maxY - 1.
Proof.
  intros HmaxY. unfold scrollY. rewrite Z.gtb_ltb.
  destruct (Z.ltb_spec (oy0 + maxY - 1) nY);
    match goal with |- context [nY <? ?o] => destruct (Z.ltb_spec nY o) end; lia.
Qed.

Lemma scrollX_visible ox0 maxX nX :
  1 <= maxX ->
  scrollX ox0 maxX nX <= nX <= scrollX ox0 maxX nX + maxX - 1.
Proof.
  intros HmaxX. unfold scrollX.
  assert (Hp : 0 <= prevSize maxX nX <= maxX - 1).
  { unfold prevSize. rewrite !Z.gtb_ltb, !Z.geb_leb.
    destruct (Z.ltb_spec 2 maxX); cbn [andb].
    - destruct (Z.leb_spec 0 (nX - 2)); [lia|].
      destruct (Z.ltb_spec 1 maxX); cbn [andb]; [|lia].
      destruct (Z.leb_spec 0 (nX - 1)); lia.
    - destruct (Z.ltb_spec 1 maxX); cbn [andb]; [|lia].
      destruct (Z.leb_spec 0 (nX - 1)); lia. }
  rewrite Z.gtb_ltb.
  destruct (Z.ltb_spec (ox0 + maxX - 1) nX);
    match goal with |- context [?a <? ?o] => destruct (Z.ltb_spec a o) end; lia.
Qed.

Lemma final_Ok {A} (m : M A) v a w : m v = Ok a w -> final m v = w.
Proof. intros H. unfold final. by rewrite H. Qed.

Lemma SetCursor_clamped_column Size linesPosOnScreen x y v :
  0 <= x -> 0 <= cx v ->
  0 <= cx (SetCursor_clamped Size linesPosOnScreen x y v).
Proof.
  intros _ _. unfold SetCursor_clamped.
  destruct (MoveCursor_bounds Size linesPosOnScreen (x - cx v) (y - cy v) v)
    as (w & Hrun & _ & [_ Hb] & _).
  rewrite (final_Ok _ _ _ _ Hrun). lia.
Qed.

(** ** The edit primitives *)

(** C5.  [writeRune x y ch] returns InvalidPoint exactly when [x < 0] or
    [y < 0], and then only marks the view dirty.  Otherwise it succeeds:
    the buffer is grown with empty lines to at least [y + 1] lines, every
    other row is kept, and [ch] is written at column [x] of row [y].  When
    Overwrite is off, or [x] is at or beyond the end of the line, a gap of
    one cell is opened at column [x] (the line is first padded with zero
    cells up to column [x], the cells from [x] on move right); when
    Overwrite is on and [x] is inside the line, the cell at [x] is
    replaced and the length of the line does not change. *)
Theorem writeRune_spec (x y : Z) (ch : rune) (v : View) :
  let old := lineAt (lines v) y in
  let c := mkCell (FgColor v) (BgColor v) ch in
  ((exists w, writeRune x y ch v = Ok (Some InvalidPoint) w) <-> x < 0 \/ y < 0) /\
  (((x < 0 \/ y < 0) /\
    writeRune x y ch v = Ok (Some InvalidPoint) (set_tainted true v)) \/
   (0 <= x /\ 0 <= y /\
    exists ls',
      writeRune x y ch v = Ok None (set_lines ls' (set_tainted true v)) /\
      len ls' = Z.max (len (lines v)) (y + 1) /\
      (forall i, i <> y -> lineAt ls' i = lineAt (lines v) i) /\
      lineAt ls' y =
        (if negb (Overwrite v) || (len old <=? x)
         then take (Z.to_nat x) old
                ++ replicate (Z.to_nat (x - len old)) zeroCell
                ++ c :: drop (Z.to_nat x) old
         else <[Z.to_nat x := c]> old) /\
      len (lineAt ls' y) =
        (if negb (Overwrite v) || (len old <=? x)
         then Z.max (len old) x + 1 else len old))).
Proof.
  intros old c.
  assert (Hcases : (x < 0 \/ y < 0) \/ (0 <= x /\ 0 <= y)) by lia.
  destruct Hcases as [Hneg|[Hx Hy]].
  - split; [|left; split; [done|by apply writeRune_err]].
    split; [done|]. intros _. eexists. by apply writeRune_err.
  - set (g := grow (lines v) y).
    assert (Hyg : 0 <= y < len g) by (unfold g; rewrite len_grow by done; lia).
    pose proof (lineAt_take_drop g y Hyg) as Hg.
    assert (Hl1 : y = len (take (Z.to_nat y) g)) by (rewrite len_take; lia).
    pose proof (writeRune_core _ _ _ x y ch v Hx Hy Hg Hl1) as Hrun.
    assert (Hold : lineAt g y = old) by apply lineAt_grow.
    rewrite Hold in Hrun. fold c in Hrun.
    split.
    { split; [|lia]. intros [w Hw]. rewrite Hrun in Hw. discriminate. }
    right. split; [done|]. split; [done|]. eexists. split; [exact Hrun|].
    split; [|split; [|split]].
    + rewrite len_middle, <- (len_grow (lines v) y Hy). fold g.
      transitivity (len (take (Z.to_nat y) g ++ lineAt g y
                           :: drop (Z.to_nat (y + 1)) g));
        [by rewrite len_middle|by rewrite <- Hg].
    + intros i Hi. rewrite <- (lineAt_grow (lines v) y i). fold g.
      transitivity (lineAt (take (Z.to_nat y) g ++ lineAt g y
                              :: drop (Z.to_nat (y + 1)) g) i);
        [apply lineAt_other; lia|by rewrite <- Hg].
    + rewrite lineAt_middle by done. by apply putCell_cases.
    + rewrite lineAt_middle by done. by apply len_putCell.
Qed.

(** C6.  [mergeLines y] returns InvalidPoint exactly when [y < 0] or
    [y] is not a row of the buffer.  On the last row it succeeds and keeps
    the lines as they are; when row [y + 1] exists its cells are appended
    to row [y], row [y + 1] is removed and the buffer has one line less. *)
Theorem mergeLines_spec (y : Z) (v : View) :
  let ls := lines v in
  ((exists w, mergeLines y v = Ok (Some InvalidPoint) w)
   <-> y < 0 \/ len ls <= y) /\
  (((y < 0 \/ len ls <= y) /\
    mergeLines y v = Ok (Some InvalidPoint) (set_tainted true v)) \/
   (0 <= y /\ y = len ls - 1 /\
    mergeLines y v = Ok None (set_tainted true v)) \/
   (0 <= y /\ y + 1 < len ls /\
    exists ls',
      mergeLines y v = Ok None (set_lines ls' (set_tainted true v)) /\
      ls' = take (Z.to_nat y) ls
              ++ (lineAt ls y ++ lineAt ls (y + 1))
              :: drop (Z.to_nat (y + 2)) ls /\
      len ls' = len ls - 1)).
Proof.
  intros ls.
  assert (Hcases : (y < 0 \/ len ls <= y) \/ (0 <= y /\ y = len ls - 1)
                   \/ (0 <= y /\ y + 1 < len ls)) by lia.
  destruct Hcases as [Hout|[[Hy0 Hlast]|[Hy0 Hy]]].
  - split; [|left; split; [done|by apply mergeLines_err]].
    split; [done|]. intros _. eexists. by apply mergeLines_err.
  - pose proof (mergeLines_last y v Hy0 Hlast) as Hrun. split.
    + split; [|lia]. intros [w Hw]. rewrite Hrun in Hw. discriminate.
    + right. left. done.
  - pose proof (two_lines ls y Hy0 Hy) as Hls.
    assert (Hl1 : y = len (take (Z.to_nat y) ls)) by (rewrite len_take; lia).
    pose proof (mergeLines_join _ _ _ _ y v Hls Hl1) as Hrun. split.
    + split; [|lia]. intros [w Hw]. rewrite Hrun in Hw. discriminate.
    + right. right. split; [done|]. split; [done|].
      eexists. split; [exact Hrun|]. split; [done|].
      pose proof (f_equal len Hls) as Hlen.
      rewrite len_middle, len_cons in Hlen. rewrite len_middle. lia.
Qed.

(** C10.  Each of the four primitives sets the dirty flag however the call
    ends: on success, on an InvalidPoint error (when the lines are kept as
    they were) and on the panic of [breakLine] at a negative column.  A
    call with a negative row is such a failing call. *)
Theorem primitives_mark_dirty (x y : Z) (ch : rune) (v : View) :
  (marks_dirty (writeRune x y ch) v /\
   marks_dirty (deleteRune x y) v /\
   marks_dirty (mergeLines y) v /\
   marks_dirty (breakLine x y) v) /\
  (writeRune x (-1) ch v = Ok (Some InvalidPoint) (set_tainted true v) /\
   deleteRune x (-1) v = Ok (Some InvalidPoint) (set_tainted true v) /\
   mergeLines (-1) v = Ok (Some InvalidPoint) (set_tainted true v) /\
   breakLine x (-1) v = Ok (Some InvalidPoint) (set_tainted true v)).
Proof.
  split; [split; [|split; [|split]]|].
  - (* writeRune *)
    assert (Hcases : (x < 0 \/ y < 0) \/ (0 <= x /\ 0 <= y)) by lia.
    destruct Hcases as [Hneg|[Hx Hy]]; unfold marks_dirty.
    + by rewrite writeRune_err.
    + assert (Hyg : 0 <= y < len (grow (lines v) y))
        by (rewrite len_grow by done; lia).
      rewrite (writeRune_core _ _ _ x y ch v Hx Hy
                 (lineAt_take_drop _ y Hyg)) by (rewrite len_take; lia).
      done.
  - (* deleteRune *)
    assert (Hcases :
      (x < 0 \/ y < 0 \/ len (lines v) <= y \/ len (lineAt (lines v) y) <= x)
      \/ (0 <= y < len (lines v) /\ 0 <= x < len (lineAt (lines v) y))) by lia.
    destruct Hcases as [Hout|[Hy Hx]]; unfold marks_dirty.
    + by rewrite deleteRune_err.
    + destruct (deleteRune_ok x y v Hy Hx) as [ls' ->]. done.
  - (* mergeLines *)
    assert (Hcases : (y < 0 \/ len (lines v) <= y)
                     \/ (0 <= y /\ y = len (lines v) - 1)
                     \/ (0 <= y /\ y + 1 < len (lines v))) by lia.
    destruct Hcases as [Hout|[[Hy0 Hlast]|[Hy0 Hy]]]; unfold marks_dirty.
    + by rewrite mergeLines_err.
    + by rewrite mergeLines_last.
    + rewrite (mergeLines_join _ _ _ _ y v (two_lines _ y Hy0 Hy))
        by (rewrite len_take; lia).
      done.
  - (* breakLine *)
    assert (Hcases : (y < 0 \/ len (lines v) <= y)
                     \/ (0 <= y < len (lines v) /\ x < 0)
                     \/ (0 <= y < len (lines v) /\ 0 <= x)) by lia.
    destruct Hcases as [Hout|[[Hy Hx]|[Hy Hx]]]; unfold marks_dirty.
    + by rewrite breakLine_err.
    + by rewrite breakLine_panic.
    + rewrite (breakLine_split _ _ _ x y v (lineAt_take_drop _ y Hy))
        by (rewrite ?len_take; lia).
      done.
  - split; [apply writeRune_err; lia|].
    split; [apply deleteRune_err; lia|].
    split; [apply mergeLines_err; lia|apply breakLine_err; lia].
Qed.

(** ** Cursor and viewport *)

Section Claims.

Variable Size : View -> Z * Z.
Variable linesPosOnScreen : View -> Z -> Z -> Z * Z * bool.

Abbreviation moveCursor := (MoveCursor Size linesPosOnScreen).
Abbreviation editWrite := (EditWrite Size linesPosOnScreen).
Abbreviation editDelete := (EditDelete Size linesPosOnScreen).

(** C4, as the code has it.  On a non-empty buffer, and as long as the
    sums of the cursor coordinates and the deltas are in the range of
    [int], [MoveCursor dx dy] returns and keeps the lines.  The candidate
    row [Y] is the current row plus [dy], clamped to [0, lineCount - 1];
    the candidate column [X] is the current column plus [dx].  If [X]
    exceeds the length [L] of row [Y], the cursor goes to column 0 of row
    [Y + 1] when [dy = 0] and that row exists, and to column [L] of row [Y]
    otherwise.  If [X] is negative, the cursor goes to the end of row
    [Y - 1] when that row exists, and to column 0 of row [Y] otherwise.  In
    the remaining case the cursor is [(X, Y)]. *)
Theorem MoveCursor_column_resolution (dx dy : Z) (v : View) :
  lines v <> [] ->
  in_int (cx v + dx) -> in_int (cy v + dy) ->
  let n := len (lines v) in
  let Y := Z.max 0 (Z.min (cy v + dy) (n - 1)) in
  let X := cx v + dx in
  let L := len (lineAt (lines v) Y) in
  exists w,
    MoveCursor64 Size linesPosOnScreen dx dy v = Ok tt w /\
    lines w = lines v /\
    (L < X -> dy = 0 -> Y + 1 < n -> (cx w, cy w) = (0, Y + 1)) /\
    (L < X -> dy <> 0 \/ n <= Y + 1 -> (cx w, cy w) = (L, Y)) /\
    (X < 0 -> 0 < Y -> (cx w, cy w) = (len (lineAt (lines v) (Y - 1)), Y - 1)) /\
    (X < 0 -> Y <= 0 -> (cx w, cy w) = (0, Y)) /\
    (0 <= X <= L -> (cx w, cy w) = (X, Y)).
Proof.
  intros Hne HX HY n Y X L.
  destruct (MoveCursor64_target Size linesPosOnScreen dx dy v Hne HX HY)
    as (w & Hrun & Hlw & Hc).
  exists w. split; [done|]. split; [done|].
  rewrite Hc. unfold target. fold n.
  apply len_pos_ne in Hne. fold n in Hne.
  destruct (Z.eqb_spec n 0); [lia|]. cbv zeta. fold Y X L.
  pose proof (len_nonneg (lineAt (lines v) Y)) as HL. fold L in HL.
  rewrite !Z.gtb_ltb.
  destruct (Z.ltb_spec L X); [|destruct (Z.ltb_spec X 0)].
  - destruct (Z.eqb_spec dy 0); cbn [andb];
      [destruct (Z.ltb_spec (Y + 1) n)|]; repeat split; intros; (done || lia).
  - destruct (Z.ltb_spec 0 Y); repeat split; intros; (done || lia).
  - repeat split; intros; (done || lia).
Qed.

(** C3, as the code has it.  After [MoveCursor] on a non-empty buffer
    whose view shows at least one row, the screen row of the cursor lies in
    [oy, oy + height - 1]; when moreover Wrap is off and the view shows at
    least one column, its screen column lies in [ox, ox + width - 1].
    With Wrap on, [MoveCursor] leaves the horizontal origin as it is, on
    every buffer and for every size. *)
Theorem MoveCursor_keeps_cursor_visible (dx dy : Z) (v : View) :
  (lines v <> [] ->
   1 <= snd (Size v) ->
   visibleY Size linesPosOnScreen dx dy v /\
   (Wrap v = false -> 1 <= fst (Size v) ->
    visibleX Size linesPosOnScreen dx dy v)) /\
  (Wrap v = true ->
   ox (final (MoveCursor Size linesPosOnScreen dx dy) v) = ox v).
Proof.
  split.
  - intros Hne HmaxY.
    pose proof (MoveCursor_run Size linesPosOnScreen dx dy v Hne) as Hrun.
    apply final_Ok in Hrun. split.
    + unfold visibleY. rewrite Hrun. unfold moved. cbn [cx cy oy].
      by apply scrollY_visible.
    + intros Hwrap HmaxX. unfold visibleX. rewrite Hrun.
      unfold moved. cbn [cx cy ox]. rewrite Hwrap.
      by apply scrollX_visible.
  - intros Hwrap. destruct (lines v) as [|l0 ls0] eqn:Hl.
    + by rewrite (final_Ok _ _ _ _
                    (MoveCursor_empty Size linesPosOnScreen dx dy v Hl)).
    + assert (Hne : lines v <> []) by (by rewrite Hl).
      rewrite (final_Ok _ _ _ _
                 (MoveCursor_run Size linesPosOnScreen dx dy v Hne)).
      unfold moved. cbn [ox]. by rewrite Hwrap.
Qed.

(** ** Edit operations *)

(** C2, as the code has it.  With the cursor on a row of the buffer and
    at a gap position of that row, and with Overwrite off or the cursor at
    the end of its line, [EditWrite ch] followed by [EditDelete true]
    restores the lines and the cursor. *)
Theorem write_delete_roundtrip (ch : rune) (v : View) :
  inBuffer v ->
  Overwrite v = false \/ cx v = len (lineAt (lines v) (cy v)) ->
  write_delete_restores Size linesPosOnScreen ch v.
Proof.
  intros Hin Hmode.
  destruct (at_cursor v Hin) as (l1 & a & b & l2 & Hl & Hy & Hx).
  assert (Hmode' : Overwrite v = false \/ b = []).
  { destruct Hmode as [Hm|He]; [by left|right].
    rewrite Hl, Hy, lineAt_middle, len_app in He by done.
    apply len_zero_nil. lia. }
  destruct (EditWrite_at Size linesPosOnScreen l1 l2 a b ch v Hl Hy Hx Hmode')
    as (w1 & Hrun1 & Hl1 & Hx1 & Hy1 & _).
  destruct (EditDelete_back_at Size linesPosOnScreen l1 l2 a b _ w1 Hl1)
    as (w & Hrun & Hlw & Hcx & Hcy & _); [lia|lia|].
  exists w. split; [|rewrite Hlw, Hcx, Hcy, Hl; repeat split; lia].
  eapply bind_step; [exact Hrun1|exact Hrun].
Qed.

(** C7.  With the cursor at column [x] of an existing row [y],
    [EditNewLine] splits the row and leaves the cursor at column 0 of row
    [y + 1]; [EditDelete true] from there restores all the lines (so row
    [y] and the line count) and puts the cursor back at column [x] of row
    [y]. *)
Theorem newline_backspace_inverse (v : View) :
  inBuffer v ->
  exists w1 w2,
    EditNewLine v = Ok tt w1 /\
    len (lines w1) = len (lines v) + 1 /\ cx w1 = 0 /\ cy w1 = cy v + 1 /\
    editDelete true w1 = Ok tt w2 /\
    lines w2 = lines v /\ cx w2 = cx v /\ cy w2 = cy v.
Proof.
  intros Hin.
  destruct (at_cursor v Hin) as (l1 & a & b & l2 & Hl & Hy & Hx).
  pose proof (EditNewLine_at l1 l2 a b v Hl Hy Hx) as Hrun1.
  set (w1 := set_cx 0 (set_cy (cy v + 1) (set_ox 0
               (set_lines (l1 ++ a :: b :: l2) (set_tainted true v))))) in *.
  destruct (EditDelete_merge_at Size linesPosOnScreen l1 l2 a b w1)
    as (w2 & Hrun2 & Hl2 & Hx2 & Hy2 & _); [done|cbn; lia|done|].
  exists w1, w2. split; [done|]. split.
  { unfold w1. cbn [lines set_cx set_cy set_ox set_lines].
    rewrite Hl, !len_middle, len_cons. lia. }
  repeat split; try done.
  - by rewrite Hl2, Hl.
  - lia.
  - lia.
Qed.

(** C8.  When the cursor row is at or beyond the line count, [EditDelete],
    in either direction, does what [MoveCursor(-1, 0)] does (the cursor
    moves left by one, with the row and column resolution of MoveCursor)
    and calls no primitive: the lines and the dirty flag are as before. *)
Theorem EditDelete_stale_cursor (back : bool) (v : View) :
  len (lines v) <= cy v ->
  exists w,
    editDelete back v = Ok tt w /\
    moveCursor (-1) 0 v = Ok tt w /\
    lines w = lines v /\ tainted w = tainted v /\
    (cx w, cy w) = target (lines v) (cx v) (cy v) (-1) 0.
Proof.
  intros Hy.
  destruct (MoveCursor_bounds Size linesPosOnScreen (-1) 0 v)
    as (w & Hrun & Hlw & _ & _ & Ht & Hc).
  exists w. by rewrite EditDelete_stale.
Qed.

(** C9.  In the default editor the escape key with no character changes
    nothing at all, whatever the modifier: no rune is inserted. *)
Theorem simpleEditor_escape (mod_ : Modifier) (v : View) :
  simpleEditor Size linesPosOnScreen KeyEsc 0 mod_ v = Ok tt v.
Proof. reflexivity. Qed.

End Claims.

(** C1, as the code has it.  From the initial state, given enough fuel
    for the loops and a [SetCursor] that yields no negative column, every
    call of every sequence of exposed operations returns, and after each
    call (after the first [k] calls, for every [k]) the cursor satisfies
    [0 <= cursorRow], [cursorRow < lineCount] whenever the buffer has a
    line, and [0 <= cursorColumn <= length(line[cursorRow])]. *)
Theorem cursor_ok_invariant
    (Size : View -> Z * Z)
    (linesPosOnScreen : View -> Z -> Z -> Z * Z * bool)
    (SetCursor : Z -> Z -> View -> View) :
  (forall x y v, 0 <= x -> 0 <= cx v -> 0 <= cx (SetCursor x y v)) ->
  forall (os : list op) (v0 : View),
    initial v0 ->
    exists f : nat,
      forall fuel, (f <= fuel)%nat ->
      forall k : nat,
      exists w,
        run Size linesPosOnScreen SetCursor fuel (take k os) v0 = Ok tt w /\
        cursor_ok w.
Proof.
  intros HSet os v0 Hinit.
  destruct (run_prefixes_ok Size linesPosOnScreen SetCursor HSet os v0
              (initial_cursor_ok v0 Hinit) (length os)) as [f Hf].
  exists f. intros fuel Hfuel k.
  destruct (Nat.le_gt_cases k (length os)) as [Hk|Hk]; [by apply Hf|].
  rewrite take_ge by lia. rewrite <- (firstn_all os). by apply Hf.
Qed.

(** ** Concrete runs *)

(** The scenarios of the specification. *)

Example scenario_A :
  exists w,
    (EditWrite size80x24 posUnwrapped 97 ;;;
     EditWrite size80x24 posUnwrapped 98) (view [] 0 0 false) = Ok tt w /\
    text w = [[97; 98]] /\ (cx w, cy w) = (2, 0).
Proof. eexists. split; [vm_compute; reflexivity|]. by vm_compute. Qed.

Example scenario_B :
  exists w,
    (EditNewLine ;;; EditWrite size80x24 posUnwrapped 33)
      (view [[104; 101; 108; 108; 111]] 5 0 false) = Ok tt w /\
    text w = [[104; 101; 108; 108; 111]; [33]] /\ (cx w, cy w) = (1, 1).
Proof. eexists. split; [vm_compute; reflexivity|]. by vm_compute. Qed.

Example scenario_C :
  exists w,
    EditDelete size80x24 posUnwrapped true
      (view [[97; 98]; [99; 100]] 0 1 false) = Ok tt w /\
    text w = [[97; 98; 99; 100]] /\ (cx w, cy w) = (2, 0).
Proof. eexists. split; [vm_compute; reflexivity|]. by vm_compute. Qed.

Example scenario_D :
  exists w,
    EditWrite size80x24 posUnwrapped 88 (view [[97; 98; 99]] 1 0 true)
      = Ok tt w /\
    text w = [[97; 88; 99]] /\ (cx w, cy w) = (2, 0).
Proof. eexists. split; [vm_compute; reflexivity|]. by vm_compute. Qed.

(** Typing into an empty buffer and deleting again leaves one empty line
    where there was none. *)
Example write_delete_on_empty_buffer :
  exists w,
    (EditWrite size80x24 posUnwrapped 97 ;;;
     EditDelete size80x24 posUnwrapped true) (view [] 0 0 false) = Ok tt w /\
    text w = [[]].
Proof. eexists. split; [vm_compute; reflexivity|]. by vm_compute. Qed.

(** Typing beyond the end of a line pads the line, and the padding stays. *)
Example write_delete_beyond_line_end :
  exists w,
    (EditWrite size80x24 posUnwrapped 88 ;;;
     EditDelete size80x24 posUnwrapped true) (view [[97]] 3 0 false) = Ok tt w /\
    text w = [[97; 0; 0]] /\ (cx w, cy w) = (3, 0).
Proof. eexists. split; [vm_compute; reflexivity|]. by vm_compute. Qed.

(** A view that shows no row has no visible row to keep the cursor in. *)
Example no_row_no_visible_cursor :
  ~ visibleY (fun _ => (80, 0)) posUnwrapped 0 0 (view [[97]] 0 0 false).
Proof. unfold visibleY. vm_compute. intros [_ H]. by apply H. Qed.

(** C1 fails on the code: [EditNewLine] on the initial, empty buffer
    leaves the cursor on row 1 of a buffer that has no line. *)
Lemma newline_on_empty_buffer_leaves_bounds :
  initial (view [] 0 0 false) /\
  exists w,
    run size80x24 posUnwrapped (SetCursor_clamped size80x24 posUnwrapped)
        0 [OpNewLine] (view [] 0 0 false) = Ok tt w /\
    lines w = [] /\ (cx w, cy w) = (0, 1) /\ ~ bounds w.
Proof.
  split; [by repeat split|].
  eexists. split; [vm_compute; reflexivity|].
  split; [reflexivity|]. split; [reflexivity|].
  unfold bounds, len. simpl. lia.
Qed.

Lemma cursor_ok_invariant_witness :
  exists f : nat,
    forall fuel, (f <= fuel)%nat ->
    forall k : nat,
    exists w,
      run size80x24 posUnwrapped (SetCursor_clamped size80x24 posUnwrapped)
          fuel
          (take k [OpNewLine; OpWrite 97; OpWrite 98; OpGotoStart; OpGotoEnd;
                   OpDeleteToStart; OpDelete true; OpMove 1 1; OpDelete false])
          (view [] 0 0 false) = Ok tt w /\
      cursor_ok w.
Proof.
  apply (cursor_ok_invariant size80x24 posUnwrapped
           (SetCursor_clamped size80x24 posUnwrapped)).
  - apply SetCursor_clamped_column.
  - repeat split; reflexivity.
Defined.

(** C2 fails on the code: in Overwrite mode, inside a line, the rune
    written replaces a cell, and deleting it shortens the line. *)
Lemma overwrite_breaks_write_delete :
  ~ write_delete_restores size80x24 posUnwrapped 88 (view [[97; 98; 99]] 1 0 true).
Proof.
  intros (w & Hrun & Hl & _). vm_compute in Hrun.
  inversion Hrun as [Hw]. rewrite <- Hw in Hl. vm_compute in Hl. discriminate.
Qed.

Lemma write_delete_roundtrip_witness :
  write_delete_restores size80x24 posUnwrapped 88 (view [[97; 98; 99]] 1 0 false).
Proof.
  apply write_delete_roundtrip.
  - unfold inBuffer, len. simpl. lia.
  - left. reflexivity.
Defined.

(** C3 fails on the code: with Wrap on, [MoveCursor] does not touch the
    horizontal origin, so a cursor left of it stays hidden. *)
Lemma wrap_leaves_cursor_hidden :
  ~ cursor_visible size80x24 posUnwrapped 0 0
      (mkView [[plain 97]] 0 0 3 0 false true false 0 0).
Proof.
  intros [_ HX]. unfold visibleX in HX. vm_compute in HX.
  destruct HX as [HX _]. by apply HX.
Qed.

Lemma MoveCursor_keeps_cursor_visible_witness :
  visibleY size80x24 posUnwrapped 100 0 (view [replicate 200 97] 0 0 false) /\
  visibleX size80x24 posUnwrapped 100 0 (view [replicate 200 97] 0 0 false) /\
  ox (final (MoveCursor size80x24 posUnwrapped 100 0)
        (mkView [replicate 200 (plain 97)] 0 0 3 0 false true false 0 0)) = 3.
Proof.
  destruct (MoveCursor_keeps_cursor_visible size80x24 posUnwrapped 100 0
              (view [replicate 200 97] 0 0 false)) as [Hvis _].
  destruct Hvis as [HY HX].
  - discriminate.
  - simpl. lia.
  - split; [exact HY|]. split; [apply HX; [reflexivity|simpl; lia]|].
    by apply (MoveCursor_keeps_cursor_visible size80x24 posUnwrapped 100 0
                (mkView [replicate 200 (plain 97)] 0 0 3 0
                        false true false 0 0)).
Defined.

(** C4 fails on the code: the candidate column is a sum of [int]s.  At
    column 1 of the row [ab], which has a next row, the column 1 + dx for
    dx = 2^63 - 1 exceeds the length of the row, and the cursor should
    roll over to (0, 1).  The sum wraps around to - 2^63, the code takes
    the candidate column for negative, and the cursor ends at (0, 0). *)
Lemma MoveCursor_sum_wraps_around :
  lines (view [[97; 98]; [99]] 1 0 false) <> [] /\
  len (lineAt (lines (view [[97; 98]; [99]] 1 0 false)) 0)
    < cx (view [[97; 98]; [99]] 1 0 false) + (2 ^ 63 - 1) /\
  0 + 1 < len (lines (view [[97; 98]; [99]] 1 0 false)) /\
  target (lines (view [[97; 98]; [99]] 1 0 false)) 1 0 (2 ^ 63 - 1) 0 = (0, 1) /\
  exists w,
    MoveCursor64 size80x24 posUnwrapped (2 ^ 63 - 1) 0
      (view [[97; 98]; [99]] 1 0 false) = Ok tt w /\
    (cx w, cy w) = (0, 0).
Proof.
  split; [done|]. split; [by vm_compute|]. split; [by vm_compute|].
  split; [by vm_compute|].
  eexists. split; by vm_compute.
Qed.

Lemma MoveCursor_column_resolution_witness :
  exists w,
    MoveCursor64 size80x24 posUnwrapped 1 0 (view [[97; 98]; [99]] 2 0 false)
      = Ok tt w /\
    (cx w, cy w) = (0, 1).
Proof.
  destruct (MoveCursor_column_resolution size80x24 posUnwrapped 1 0
              (view [[97; 98]; [99]] 2 0 false))
    as (w & Hrun & _ & Hroll & _).
  - discriminate.
  - unfold in_int, int_min, int_max. simpl. lia.
  - unfold in_int, int_min, int_max. simpl. lia.
  - exists w. split; [exact Hrun|]. apply Hroll; unfold len; simpl; lia.
Defined.

Lemma newline_backspace_inverse_witness :
  exists w1 w2,
    EditNewLine (view [[97; 98; 99]; [100]] 1 0 false) = Ok tt w1 /\
    len (lines w1) = len (lines (view [[97; 98; 99]; [100]] 1 0 false)) + 1 /\
    cx w1 = 0 /\ cy w1 = cy (view [[97; 98; 99]; [100]] 1 0 false) + 1 /\
    EditDelete size80x24 posUnwrapped true w1 = Ok tt w2 /\
    lines w2 = lines (view [[97; 98; 99]; [100]] 1 0 false) /\
    cx w2 = cx (view [[97; 98; 99]; [100]] 1 0 false) /\
    cy w2 = cy (view [[97; 98; 99]; [100]] 1 0 false).
Proof.
  apply (newline_backspace_inverse size80x24 posUnwrapped).
  unfold inBuffer, len. simpl. lia.
Defined.

Lemma EditDelete_stale_cursor_witness :
  exists w,
    EditDelete size80x24 posUnwrapped true (view [[97; 98]] 1 5 false) = Ok tt w /\
    MoveCursor size80x24 posUnwrapped (-1) 0 (view [[97; 98]] 1 5 false) = Ok tt w /\
    lines w = lines (view [[97; 98]] 1 5 false) /\
    tainted w = tainted (view [[97; 98]] 1 5 false) /\
    (cx w, cy w) = target (lines (view [[97; 98]] 1 5 false)) 1 5 (-1) 0.
Proof.
  apply (EditDelete_stale_cursor size80x24 posUnwrapped true
           (view [[97; 98]] 1 5 false)).
  unfold len. simpl. lia.
Defined.

(** * Further properties of edit.go *)

(** ** The primitives, continued *)

Lemma insert_row (ls : list (list cell)) (y : Z) (l' : list cell) :
  0 <= y < len ls ->
  <[Z.to_nat y := l']> ls =
  take (Z.to_nat y) ls ++ l' :: drop (Z.to_nat (y + 1)) ls.
Proof.
  intros Hy. rewrite insert_take_drop by (unfold len in Hy; lia).
  by replace (Z.to_nat (y + 1)) with (S (Z.to_nat y)) by lia.
Qed.

Lemma cut_cell (l : list cell) (x : Z) :
  0 <= x < len l ->
  exists c, l = take (Z.to_nat x) l ++ c :: drop (Z.to_nat (x + 1)) l.
Proof.
  intros Hx.
  destruct (lookup_lt_is_Some_2 l (Z.to_nat x)) as [c Hc]; [unfold len in Hx; lia|].
  exists c. replace (Z.to_nat (x + 1)) with (S (Z.to_nat x)) by lia.
  symmetry. by apply take_drop_middle.
Qed.

Lemma deleteRune_run x y v :
  0 <= y < len (lines v) -> 0 <= x < len (lineAt (lines v) y) ->
  deleteRune x y v =
  Ok None
     (set_lines
        (<[Z.to_nat y := take (Z.to_nat x) (lineAt (lines v) y)
                           ++ drop (Z.to_nat (x + 1)) (lineAt (lines v) y)]>
           (lines v))
        (set_tainted true v)).
Proof.
  intros Hy Hx. destruct (cut_cell _ x Hx) as [c Hc].
  rewrite insert_row by done.
  apply (deleteRune_cut _ _ _ _ c).
  - rewrite <- Hc. by apply lineAt_take_drop.
  - rewrite len_take. lia.
  - rewrite len_take. lia.
Qed.

Lemma breakLine_run x y v :
  0 <= y < len (lines v) -> 0 <= x ->
  breakLine x y v =
  Ok None
     (set_lines
        (take (Z.to_nat y) (lines v)
           ++ take (Z.to_nat x) (lineAt (lines v) y)
           :: drop (Z.to_nat x) (lineAt (lines v) y)
           :: drop (Z.to_nat (y + 1)) (lines v))
        (set_tainted true v)).
Proof.
  intros Hy Hx. apply breakLine_split; [by apply lineAt_take_drop| |done].
  rewrite len_take. lia.
Qed.

Lemma mergeLines_run y v :
  0 <= y -> y + 1 < len (lines v) ->
  mergeLines y v =
  Ok None
     (set_lines
        (take (Z.to_nat y) (lines v)
           ++ (lineAt (lines v) y ++ lineAt (lines v) (y + 1))
           :: drop (Z.to_nat (y + 2)) (lines v))
        (set_tainted true v)).
Proof.
  intros Hy0 Hy. apply mergeLines_join; [by apply two_lines|].
  rewrite len_take. lia.
Qed.

Lemma writeRune_run x y ch v :
  0 <= x -> 0 <= y ->
  writeRune x y ch v =
  Ok None
     (set_lines
        (take (Z.to_nat y) (grow (lines v) y)
           ++ putCell (Overwrite v) (lineAt (lines v) y) x (cellOf v ch)
           :: drop (Z.to_nat (y + 1)) (grow (lines v) y))
        (set_tainted true v)).
Proof.
  intros Hx Hy.
  assert (Hyg : 0 <= y < len (grow (lines v) y))
    by (rewrite len_grow by done; lia).
  rewrite <- (lineAt_grow (lines v) y y).
  apply writeRune_core; [done|done|by apply lineAt_take_drop|].
  rewrite len_take. lia.
Qed.

(** The ways a call of a primitive can end: it returns with the lines
    possibly replaced and the dirty flag set, or (for [breakLine] only) it
    panics with just the dirty flag set. *)
Lemma writeRune_shape x y ch v :
  exists e ls', writeRune x y ch v = Ok e (set_lines ls' (set_tainted true v)).
Proof.
  destruct (Z.lt_ge_cases x 0);
    [exists (Some InvalidPoint), (lines v); apply writeRune_err; lia|].
  destruct (Z.lt_ge_cases y 0);
    [exists (Some InvalidPoint), (lines v); apply writeRune_err; lia|].
  eexists _, _. by apply writeRune_run.
Qed.

Lemma deleteRune_shape x y v :
  exists e ls', deleteRune x y v = Ok e (set_lines ls' (set_tainted true v)).
Proof.
  assert (Hcases :
    (x < 0 \/ y < 0 \/ len (lines v) <= y \/ len (lineAt (lines v) y) <= x)
    \/ (0 <= y < len (lines v) /\ 0 <= x < len (lineAt (lines v) y))) by lia.
  destruct Hcases as [Hout|[Hy Hx]].
  - exists (Some InvalidPoint), (lines v). by apply deleteRune_err.
  - eexists _, _. by apply deleteRune_run.
Qed.

Lemma mergeLines_shape y v :
  exists e ls', mergeLines y v = Ok e (set_lines ls' (set_tainted true v)).
Proof.
  assert (Hcases : (y < 0 \/ len (lines v) <= y)
                   \/ (0 <= y /\ y = len (lines v) - 1)
                   \/ (0 <= y /\ y + 1 < len (lines v))) by lia.
  destruct Hcases as [Hout|[[Hy0 Hlast]|[Hy0 Hy]]].
  - exists (Some InvalidPoint), (lines v). by apply mergeLines_err.
  - exists None, (lines v). by apply mergeLines_last.
  - eexists _, _. by apply mergeLines_run.
Qed.

Lemma breakLine_shape x y v :
  (exists e ls', breakLine x y v = Ok e (set_lines ls' (set_tainted true v)))
  \/ breakLine x y v = Panic (set_tainted true v).
Proof.
  assert (Hcases : (y < 0 \/ len (lines v) <= y)
                   \/ (0 <= y < len (lines v) /\ x < 0)
                   \/ (0 <= y < len (lines v) /\ 0 <= x)) by lia.
  destruct Hcases as [Hout|[[Hy Hx]|[Hy Hx]]].
  - left. exists (Some InvalidPoint), (lines v). by apply breakLine_err.
  - right. by apply breakLine_panic.
  - left. eexists _, _. by apply breakLine_run.
Qed.

(** X1.  [deleteRune x y] returns InvalidPoint exactly when [x < 0],
    [y < 0], [y] is not a row or [x] is not a cell of row [y], and then
    only marks the view dirty.  Otherwise the cell at column [x] of row [y]
    is removed and the cells after it move left: that row is one cell
    shorter, the other rows and the line count are as before. *)
Theorem deleteRune_spec (x y : Z) (v : View) :
  let ls := lines v in
  let l := lineAt ls y in
  ((exists w, deleteRune x y v = Ok (Some InvalidPoint) w)
   <-> x < 0 \/ y < 0 \/ len ls <= y \/ len l <= x) /\
  (((x < 0 \/ y < 0 \/ len ls <= y \/ len l <= x) /\
    deleteRune x y v = Ok (Some InvalidPoint) (set_tainted true v)) \/
   (0 <= y < len ls /\ 0 <= x < len l /\
    deleteRune x y v =
      Ok None
         (set_lines
            (<[Z.to_nat y := take (Z.to_nat x) l ++ drop (Z.to_nat (x + 1)) l]> ls)
            (set_tainted true v)) /\
    len (take (Z.to_nat x) l ++ drop (Z.to_nat (x + 1)) l) = len l - 1)).
Proof.
  intros ls l.
  assert (Hcases :
    (x < 0 \/ y < 0 \/ len ls <= y \/ len l <= x)
    \/ (0 <= y < len ls /\ 0 <= x < len l)) by lia.
  destruct Hcases as [Hout|[Hy Hx]].
  - split; [|left; split; [done|by apply deleteRune_err]].
    split; [done|]. intros _. eexists. by apply deleteRune_err.
  - pose proof (deleteRune_run x y v Hy Hx) as Hrun. fold ls l in Hrun. split.
    + split; [|lia]. intros [w Hw]. rewrite Hrun in Hw. discriminate.
    + right. split; [done|]. split; [done|]. split; [done|].
      rewrite len_app, len_take, len_drop. lia.
Qed.

(** X2.  [breakLine x y] returns InvalidPoint exactly when [y] is not a
    row.  On a row, a negative column makes it panic (after the view was
    marked dirty, the lines untouched).  Otherwise row [y] keeps the cells
    before column [x], a new row [y + 1] receives the cells from column [x]
    on (none when [x] is at or beyond the end of the line), the rows after
    it move down by one and the buffer has one line more. *)
Theorem breakLine_spec (x y : Z) (v : View) :
  let ls := lines v in
  let l := lineAt ls y in
  ((exists w, breakLine x y v = Ok (Some InvalidPoint) w)
   <-> y < 0 \/ len ls <= y) /\
  (((y < 0 \/ len ls <= y) /\
    breakLine x y v = Ok (Some InvalidPoint) (set_tainted true v)) \/
   (0 <= y < len ls /\ x < 0 /\
    breakLine x y v = Panic (set_tainted true v)) \/
   (0 <= y < len ls /\ 0 <= x /\
    exists ls',
      breakLine x y v = Ok None (set_lines ls' (set_tainted true v)) /\
      ls' = take (Z.to_nat y) ls
              ++ take (Z.to_nat x) l :: drop (Z.to_nat x) l
              :: drop (Z.to_nat (y + 1)) ls /\
      len ls' = len ls + 1 /\
      (len l <= x -> lineAt ls' y = l /\ lineAt ls' (y + 1) = []))).
Proof.
  intros ls l.
  assert (Hcases : (y < 0 \/ len ls <= y)
                   \/ (0 <= y < len ls /\ x < 0)
                   \/ (0 <= y < len ls /\ 0 <= x)) by lia.
  destruct Hcases as [Hout|[[Hy Hx]|[Hy Hx]]].
  - split; [|left; split; [done|by apply breakLine_err]].
    split; [done|]. intros _. eexists. by apply breakLine_err.
  - pose proof (breakLine_panic x y v Hy Hx) as Hrun. split.
    + split; [|lia]. intros [w Hw]. rewrite Hrun in Hw. discriminate.
    + right. left. done.
  - pose proof (breakLine_run x y v Hy Hx) as Hrun. fold ls l in Hrun. split.
    + split; [|lia]. intros [w Hw]. rewrite Hrun in Hw. discriminate.
    + right. right. split; [done|]. split; [done|].
      eexists. split; [exact Hrun|]. split; [done|].
      assert (Hy1 : y = len (take (Z.to_nat y) ls)) by (rewrite len_take; lia).
      split.
      * pose proof (f_equal len (lineAt_take_drop ls y Hy)) as Hlen.
        rewrite len_middle in Hlen. rewrite len_middle, len_cons. lia.
      * intros Hx'. rewrite lineAt_middle, lineAt_middle_S by done.
        by rewrite take_ge, drop_ge by (unfold len in *; lia).
Qed.

(** X3.  Splitting row [y] at any column [x >= 0] and merging rows [y]
    and [y + 1] again gives back the lines the buffer had. *)
Theorem breakLine_mergeLines_inverse (x y : Z) (v : View) :
  0 <= y < len (lines v) -> 0 <= x ->
  exists w,
    (breakLine x y ;;; mergeLines y) v = Ok None w /\
    lines w = lines v.
Proof.
  intros Hy Hx.
  set (l := lineAt (lines v) y).
  assert (Hy1 : y = len (take (Z.to_nat y) (lines v)))
    by (rewrite len_take; lia).
  eexists. split.
  - eapply bind_step; [by apply breakLine_run|cbv beta].
    by apply (mergeLines_join (take (Z.to_nat y) (lines v))
                (drop (Z.to_nat (y + 1)) (lines v))
                (take (Z.to_nat x) l) (drop (Z.to_nat x) l)).
  - cbn [lines set_lines]. rewrite take_drop.
    symmetry. by apply lineAt_take_drop.
Qed.

(** X4.  Whatever its arguments and however it ends, a primitive touches
    nothing but the lines and the dirty flag: cursor, viewport origin,
    modes and colours are as before. *)
Theorem primitives_frame (x y : Z) (ch : rune) (v : View) :
  same_but_buffer v (final (writeRune x y ch) v) /\
  same_but_buffer v (final (deleteRune x y) v) /\
  same_but_buffer v (final (mergeLines y) v) /\
  same_but_buffer v (final (breakLine x y) v).
Proof.
  unfold final.
  destruct (writeRune_shape x y ch v) as (e1 & ls1 & ->).
  destruct (deleteRune_shape x y v) as (e2 & ls2 & ->).
  destruct (mergeLines_shape y v) as (e3 & ls3 & ->).
  destruct (breakLine_shape x y v) as [(e4 & ls4 & ->)| ->];
    repeat split.
Qed.

(** X5.  [breakLine] and [mergeLines] never lose, add or reorder a cell:
    however the call ends, the cells of the buffer read row after row are
    the same as before. *)
Theorem split_merge_keep_cells (x y : Z) (v : View) :
  concat (lines (final (breakLine x y) v)) = concat (lines v) /\
  concat (lines (final (mergeLines y) v)) = concat (lines v).
Proof.
  unfold final. split.
  - assert (Hcases : (y < 0 \/ len (lines v) <= y)
                     \/ (0 <= y < len (lines v) /\ x < 0)
                     \/ (0 <= y < len (lines v) /\ 0 <= x)) by lia.
    destruct Hcases as [Hout|[[Hy Hx]|[Hy Hx]]].
    + by rewrite breakLine_err.
    + by rewrite breakLine_panic.
    + rewrite breakLine_run by done. cbn [lines set_lines].
      transitivity (concat (take (Z.to_nat y) (lines v) ++ lineAt (lines v) y
                              :: drop (Z.to_nat (y + 1)) (lines v)));
        [|by rewrite <- lineAt_take_drop].
      rewrite !concat_app, !concat_cons. f_equal.
      rewrite app_assoc. f_equal. apply take_drop.
  - assert (Hcases : (y < 0 \/ len (lines v) <= y)
                     \/ (0 <= y /\ y = len (lines v) - 1)
                     \/ (0 <= y /\ y + 1 < len (lines v))) by lia.
    destruct Hcases as [Hout|[[Hy0 Hlast]|[Hy0 Hy]]].
    + by rewrite mergeLines_err.
    + by rewrite mergeLines_last.
    + rewrite mergeLines_run by done. cbn [lines set_lines].
      transitivity (concat (take (Z.to_nat y) (lines v)
                              ++ lineAt (lines v) y :: lineAt (lines v) (y + 1)
                              :: drop (Z.to_nat (y + 2)) (lines v)));
        [|by rewrite <- two_lines].
      rewrite !concat_app, !concat_cons. f_equal. by rewrite <- app_assoc.
Qed.

(** ** MoveCursor, continued *)




Section MoveCursorFacts.

Variable Size : View -> Z * Z.
Variable linesPosOnScreen : View -> Z -> Z -> Z * Z * bool.

Abbreviation moveCursor := (MoveCursor Size linesPosOnScreen).

(** What [MoveCursor] does, from any state. *)
Lemma MoveCursor_effect (dx dy : Z) (v : View) :
  exists w,
    moveCursor dx dy v = Ok tt w /\
    same_but_cursor v w /\
    bounds w /\
    (cx w, cy w) = target (lines v) (cx v) (cy v) dx dy /\
    (lines v = [] -> ox w = ox v /\ oy w = oy v).
Proof.
  destruct (lines v) as [|l0 ls0] eqn:Hl.
  - exists (set_cy 0 (set_cx 0 v)).
    split; [by apply MoveCursor_empty|]. split; [by repeat split|].
    split; [|done].
    unfold bounds. cbn [lines cx cy set_cx set_cy]. rewrite Hl.
    unfold lineAt, len. simpl. lia.
  - assert (Hne : lines v <> []) by (by rewrite Hl).
    exists (moved Size linesPosOnScreen dx dy v).
    split; [by apply MoveCursor_run|]. split; [by repeat split|].
    rewrite <- Hl. split; [|split; [|done]].
    + pose proof (target_bounds (lines v) (cx v) (cy v) dx dy Hne) as [Hy Hx].
      unfold bounds, moved. cbn [lines cx cy]. lia.
    + unfold moved. cbn [cx cy].
      by destruct (target (lines v) (cx v) (cy v) dx dy).
Qed.

(** X6.  [MoveCursor] returns from every state, for all deltas.  It
    changes nothing but the cursor and the viewport origin, and the cursor
    it leaves is within the bounds of the buffer, also when the cursor it
    found was not.  On an empty buffer the viewport origin stays too. *)
Theorem MoveCursor_repairs_cursor (dx dy : Z) (v : View) :
  exists w,
    moveCursor dx dy v = Ok tt w /\
    same_but_cursor v w /\
    bounds w /\
    (lines v = [] -> (cx w, cy w) = (0, 0) /\ ox w = ox v /\ oy w = oy v).
Proof.
  destruct (MoveCursor_effect dx dy v) as (w & Hrun & Hfr & Hb & Hc & Ho).
  exists w. split; [done|]. split; [done|]. split; [done|].
  intros Hl. rewrite Hc, Hl. split; [done|by apply Ho].
Qed.



(** X9.  A step right followed by a step left brings the cursor back,
    from every position of the buffer but the end of the last line (where
    the step right does not move). *)
Theorem right_then_left (v : View) :
  inBuffer v ->
  cx v < len (lineAt (lines v) (cy v)) \/ cy v + 1 < len (lines v) ->
  exists w1 w2,
    moveCursor 1 0 v = Ok tt w1 /\
    moveCursor (-1) 0 w1 = Ok tt w2 /\
    (cx w2, cy w2) = (cx v, cy v).
Proof.
  intros [Hy Hx] Hnotend.
  destruct (MoveCursor_bounds Size linesPosOnScreen 1 0 v)
    as (w1 & Hrun1 & Hl1 & _ & _ & _ & Hc1).
  destruct (MoveCursor_bounds Size linesPosOnScreen (-1) 0 w1)
    as (w2 & Hrun2 & _ & _ & _ & _ & Hc2).
  exists w1, w2. split; [done|]. split; [done|].
  rewrite Hc2, Hl1. clear Hc2 Hrun1 Hrun2.
  destruct (Z.lt_ge_cases (cx v) (len (lineAt (lines v) (cy v)))) as [Hin|Hend].
  - rewrite target_plain in Hc1 by (rewrite ?Z.add_0_r; lia).
    assert (cx w1 = cx v + 1 /\ cy w1 = cy v) as [-> ->]
      by (inversion Hc1; lia).
    rewrite target_plain by (rewrite ?Z.add_0_r; lia).
    f_equal; lia.
  - rewrite target_next in Hc1 by lia.
    assert (cx w1 = 0 /\ cy w1 = cy v + 1) as [-> ->]
      by (inversion Hc1; lia).
    rewrite target_prev by lia.
    replace (cy v + 1 - 1) with (cy v) by lia. f_equal. lia.
Qed.

(** X10.  A step left followed by a step right brings the cursor back,
    from every position of the buffer but the start of the first line
    (where the step left does not move). *)
Theorem left_then_right (v : View) :
  inBuffer v ->
  0 < cx v \/ 0 < cy v ->
  exists w1 w2,
    moveCursor (-1) 0 v = Ok tt w1 /\
    moveCursor 1 0 w1 = Ok tt w2 /\
    (cx w2, cy w2) = (cx v, cy v).
Proof.
  intros [Hy Hx] Hnotstart.
  destruct (MoveCursor_bounds Size linesPosOnScreen (-1) 0 v)
    as (w1 & Hrun1 & Hl1 & _ & _ & _ & Hc1).
  destruct (MoveCursor_bounds Size linesPosOnScreen 1 0 w1)
    as (w2 & Hrun2 & _ & _ & _ & _ & Hc2).
  exists w1, w2. split; [done|]. split; [done|].
  rewrite Hc2, Hl1. clear Hc2 Hrun1 Hrun2.
  destruct (Z.lt_ge_cases 0 (cx v)) as [Hin|Hstart].
  - rewrite target_plain in Hc1 by (rewrite ?Z.add_0_r; lia).
    assert (cx w1 = cx v + -1 /\ cy w1 = cy v) as [-> ->]
      by (inversion Hc1; lia).
    rewrite target_plain by (rewrite ?Z.add_0_r; lia).
    f_equal; lia.
  - rewrite target_prev in Hc1 by lia.
    assert (cx w1 = len (lineAt (lines v) (cy v - 1)) /\ cy w1 = cy v - 1)
      as [-> ->] by (inversion Hc1; lia).
    rewrite target_next by lia.
    f_equal; lia.
Qed.

End MoveCursorFacts.

(** ** Edit operations, continued *)

Lemma bind_panic {A B} (m : M A) (k : A -> M B) v v' :
  m v = Panic v' -> bind m k v = Panic v'.
Proof. intros Hm. unfold bind. by rewrite Hm. Qed.

Lemma putCell_lookup ow l x c :
  0 <= x -> putCell ow l x c !! Z.to_nat x = Some c.
Proof.
  intros Hx. unfold putCell. destruct (Z.leb_spec (len l) x).
  - rewrite app_assoc.
    apply list_lookup_middle. rewrite length_app, length_replicate.
    unfold len in *. lia.
  - destruct ow.
    + apply list_lookup_insert_eq. unfold len in *. lia.
    + apply list_lookup_middle. rewrite length_take. unfold len in *. lia.
Qed.

Lemma putCell_in_line ow l x c :
  0 <= x <= len l ->
  putCell ow l x c =
  if ow && (x <? len l) then <[Z.to_nat x := c]> l
  else take (Z.to_nat x) l ++ c :: drop (Z.to_nat x) l.
Proof.
  intros Hx. unfold putCell.
  destruct (Z.leb_spec (len l) x); destruct (Z.ltb_spec x (len l)); try lia.
  - rewrite andb_false_r.
    replace (Z.to_nat (x - len l)) with O by lia.
    by rewrite take_ge, drop_ge by (unfold len in *; lia).
  - rewrite andb_true_r. by destruct ow.
Qed.

Section EditFacts.

Variable Size : View -> Z * Z.
Variable linesPosOnScreen : View -> Z -> Z -> Z * Z * bool.

Abbreviation moveCursor := (MoveCursor Size linesPosOnScreen).
Abbreviation editWrite := (EditWrite Size linesPosOnScreen).
Abbreviation editDelete := (EditDelete Size linesPosOnScreen).

(** X11.  With the cursor in the buffer, [EditWrite ch] puts the cell at
    the cursor and moves the cursor one column right on the same row, in
    both modes.  In Overwrite mode inside the line the cell under the
    cursor is replaced; otherwise the cell is inserted and the rest of the
    line moves right.  The other rows are as before. *)
Theorem EditWrite_in_buffer (ch : rune) (v : View) :
  inBuffer v ->
  let l := lineAt (lines v) (cy v) in
  let c := cellOf v ch in
  exists w,
    editWrite ch v = Ok tt w /\
    (cx w, cy w) = (cx v + 1, cy v) /\
    tainted w = true /\
    lines w =
      <[Z.to_nat (cy v) :=
          if Overwrite v && (cx v <? len l)
          then <[Z.to_nat (cx v) := c]> l
          else take (Z.to_nat (cx v)) l ++ c :: drop (Z.to_nat (cx v)) l]>
        (lines v).
Proof.
  intros [Hy Hx] l c. fold l in Hx.
  pose proof (writeRune_run (cx v) (cy v) ch v) as Hw.
  rewrite grow_id in Hw by lia.
  rewrite <- insert_row in Hw by done.
  fold l c in Hw. rewrite putCell_in_line in Hw by done.
  set (l' := if Overwrite v && (cx v <? len l)
             then <[Z.to_nat (cx v) := c]> l
             else take (Z.to_nat (cx v)) l ++ c :: drop (Z.to_nat (cx v)) l) in *.
  assert (Hl' : cx v + 1 <= len l').
  { unfold l'. destruct (Z.ltb_spec (cx v) (len l)).
    - destruct (Overwrite v); cbn [andb].
      + rewrite len_insert. lia.
      + rewrite len_app, len_cons, len_take, len_drop. lia.
    - rewrite andb_false_r, len_app, len_cons, len_take, len_drop. lia. }
  set (w1 := set_lines (<[Z.to_nat (cy v) := l']> (lines v)) (set_tainted true v)) in *.
  destruct (MoveCursor_bounds Size linesPosOnScreen 1 0 w1)
    as (w & Hrun & Hlw & _ & _ & Ht & Hc).
  exists w. split.
  { unfold EditWrite. step_pure.
    eapply bind_step; [apply Hw; lia|exact Hrun]. }
  split; [|split; [by rewrite Ht|by rewrite Hlw]].
  rewrite Hc. unfold w1. cbn [lines cx cy set_lines set_tainted].
  rewrite insert_row by done.
  assert (Hy1 : cy v = len (take (Z.to_nat (cy v)) (lines v)))
    by (rewrite len_take; lia).
  pose proof (len_nonneg (drop (Z.to_nat (cy v + 1)) (lines v))).
  pose proof (len_nonneg (take (Z.to_nat (cy v)) (lines v))).
  rewrite target_plain.
  - f_equal. lia.
  - rewrite len_middle. lia.
  - rewrite Z.add_0_r, lineAt_middle by done. lia.
Qed.

(** X12.  [EditWrite ch] returns from every state and leaves the view
    dirty and the cursor within the bounds of the buffer.  With a negative
    cursor coordinate nothing is written.  Otherwise the buffer is grown
    to the cursor row if need be, and the cell at the position the cursor
    had holds [ch] in the colours of the view. *)
Theorem EditWrite_any_state (ch : rune) (v : View) :
  exists w,
    editWrite ch v = Ok tt w /\
    bounds w /\
    tainted w = true /\
    (cx v < 0 \/ cy v < 0 -> lines w = lines v) /\
    (0 <= cx v -> 0 <= cy v ->
     len (lines w) = Z.max (len (lines v)) (cy v + 1) /\
     lineAt (lines w) (cy v) !! Z.to_nat (cx v) = Some (cellOf v ch)).
Proof.
  assert (Hcases : (cx v < 0 \/ cy v < 0) \/ (0 <= cx v /\ 0 <= cy v)) by lia.
  destruct Hcases as [Hneg|[Hx Hy]].
  - destruct (MoveCursor_bounds Size linesPosOnScreen 1 0 (set_tainted true v))
      as (w & Hrun & Hlw & Hb & _ & Ht & _).
    exists w. split.
    { unfold EditWrite. step_pure.
      eapply bind_step; [by apply writeRune_err|exact Hrun]. }
    repeat split; try done; try apply Hb; lia.
  - pose proof (writeRune_run (cx v) (cy v) ch v Hx Hy) as Hw.
    set (g := grow (lines v) (cy v)) in *.
    assert (Hyg : 0 <= cy v < len g) by (unfold g; rewrite len_grow by done; lia).
    assert (Hy1 : cy v = len (take (Z.to_nat (cy v)) g))
      by (rewrite len_take; lia).
    match type of Hw with _ = Ok None ?s => set (w1 := s) in * end.
    destruct (MoveCursor_bounds Size linesPosOnScreen 1 0 w1)
      as (w & Hrun & Hlw & Hb & _ & Ht & _).
    exists w. split.
    { unfold EditWrite. step_pure.
      eapply bind_step; [exact Hw|exact Hrun]. }
    split; [done|]. split; [by rewrite Ht|]. split; [lia|]. intros _ _.
    rewrite Hlw. unfold w1. cbn [lines set_lines]. split.
    + pose proof (f_equal len (lineAt_take_drop g (cy v) Hyg)) as Hlen.
      rewrite len_middle in Hlen. rewrite len_middle, <- Hlen.
      unfold g. by apply len_grow.
    + rewrite lineAt_middle by done. by apply putCell_lookup.
Qed.

(** X13.  Deleting backward with the cursor at (0, 0) changes nothing at
    all, on the empty buffer as on any other. *)
Theorem backspace_at_origin (v : View) :
  cx v = 0 -> cy v = 0 -> editDelete true v = Ok tt v.
Proof.
  intros Hx Hy. pose proof (len_nonneg (lines v)).
  unfold EditDelete. step_pure. cbv zeta. rewrite Hx, Hy. rewrite Z.geb_leb.
  destruct (Z.ltb_spec 0 0); [lia|].
  destruct (Z.leb_spec (len (lines v)) 0) as [Hempty|Hsome]; [|done].
  assert (Hl : lines v = []) by (apply len_zero_nil; lia).
  rewrite MoveCursor_empty by done.
  destruct v as [ls x y ox0 oy0 ow wr tn fg bg]. cbn in *. by subst.
Qed.

(** X14.  With the cursor in the buffer but not at (0, 0),
    [EditDelete true] removes what is left of the cursor.  After column 0
    that is the cell before the cursor: the cursor moves one column left.
    At column 0 it is the line break: the row is appended to the row above
    and the cursor lands where the two rows meet. *)
Theorem backspace_in_buffer (v : View) :
  inBuffer v ->
  0 < cx v \/ 0 < cy v ->
  let ls := lines v in
  let l := lineAt ls (cy v) in
  let prev := lineAt ls (cy v - 1) in
  exists w,
    editDelete true v = Ok tt w /\
    (0 < cx v ->
     (cx w, cy w) = (cx v - 1, cy v) /\
     lines w =
       <[Z.to_nat (cy v) :=
           take (Z.to_nat (cx v - 1)) l ++ drop (Z.to_nat (cx v)) l]> ls) /\
    (cx v = 0 ->
     (cx w, cy w) = (len prev, cy v - 1) /\
     lines w =
       take (Z.to_nat (cy v - 1)) ls
         ++ (prev ++ l) :: drop (Z.to_nat (cy v + 1)) ls).
Proof.
  intros [Hy Hx] Hnotstart ls l prev. subst ls l prev.
  set (ls := lines v) in *. set (l := lineAt ls (cy v)) in *.
  set (prev := lineAt ls (cy v - 1)) in *.
  destruct (Z.lt_ge_cases 0 (cx v)) as [Hin|Hstart].
  - destruct (cut_cell l (cx v - 1)) as [c Hc]; [lia|].
    replace (cx v - 1 + 1) with (cx v) in Hc by lia.
    destruct (EditDelete_back_at Size linesPosOnScreen
                (take (Z.to_nat (cy v)) ls) (drop (Z.to_nat (cy v + 1)) ls)
                (take (Z.to_nat (cx v - 1)) l) (drop (Z.to_nat (cx v)) l) c v)
      as (w & Hrun & Hlw & Hcx & Hcy & _).
    + rewrite <- Hc. by apply lineAt_take_drop.
    + rewrite len_take. lia.
    + rewrite len_take. lia.
    + exists w. split; [done|]. split; [|lia]. intros _.
      split; [by rewrite Hcx, Hcy|].
      by rewrite insert_row.
  - destruct (EditDelete_merge_at Size linesPosOnScreen
                (take (Z.to_nat (cy v - 1)) ls) (drop (Z.to_nat (cy v + 1)) ls)
                prev l v)
      as (w & Hrun & Hlw & Hcx & Hcy & _).
    + pose proof (two_lines ls (cy v - 1)) as H2.
      replace (cy v - 1 + 1) with (cy v) in H2 by lia.
      replace (cy v - 1 + 2) with (cy v + 1) in H2 by lia.
      apply H2; lia.
    + rewrite len_take. lia.
    + lia.
    + exists w. split; [done|]. split; [lia|]. intros _.
      split; [|done]. rewrite Hcx, Hcy, len_take. f_equal. lia.
Qed.

Lemma EditDelete_forward_eq v :
  0 <= cy v < len (lines v) ->
  editDelete false v =
  (if cx v =? len (lineAt (lines v) (cy v)) then mergeLines (cy v) ;;; ret tt
   else v' <- get ;; deleteRune (cx v') (cy v') ;;; ret tt)%go v.
Proof.
  intros Hy. unfold EditDelete. step_pure. cbv zeta. rewrite Z.geb_leb.
  destruct (Z.ltb_spec (cy v) 0); [lia|].
  destruct (Z.leb_spec (len (lines v)) (cy v)); [lia|]. cbn [andb].
  eapply bind_step; [by apply index_ok|reflexivity].
Qed.

(** X15.  [EditDelete false] with the cursor in the buffer never moves
    the cursor or the viewport.  Before the end of the line it removes the
    cell under the cursor; at the end of a line that has a successor it
    appends the next row to this one; at the end of the last line it only
    marks the view dirty. *)
Theorem delete_forward_in_buffer (v : View) :
  inBuffer v ->
  let ls := lines v in
  let l := lineAt ls (cy v) in
  exists w,
    editDelete false v = Ok tt w /\
    same_but_buffer v w /\
    tainted w = true /\
    (cx v < len l ->
     lines w =
       <[Z.to_nat (cy v) :=
           take (Z.to_nat (cx v)) l ++ drop (Z.to_nat (cx v + 1)) l]> ls) /\
    (cx v = len l -> cy v + 1 < len ls ->
     lines w =
       take (Z.to_nat (cy v)) ls
         ++ (l ++ lineAt ls (cy v + 1)) :: drop (Z.to_nat (cy v + 2)) ls) /\
    (cx v = len l -> cy v + 1 = len ls -> lines w = ls).
Proof.
  intros [Hy Hx] ls l. subst ls l. rewrite EditDelete_forward_eq by done.
  destruct (Z.eqb_spec (cx v) (len (lineAt (lines v) (cy v)))) as [Hend|Hin].
  - destruct (Z.lt_ge_cases (cy v + 1) (len (lines v))) as [Hnext|Hlast].
    + eexists. split.
      { eapply bind_step; [apply mergeLines_run; lia|reflexivity]. }
      repeat split; intros; (done || lia).
    + eexists. split.
      { eapply bind_step; [apply mergeLines_last; lia|reflexivity]. }
      repeat split; intros; (done || lia).
  - eexists. split.
    { step_pure. eapply bind_step; [apply deleteRune_run; lia|reflexivity]. }
    repeat split; intros; (done || lia).
Qed.

(** X16.  [EditNewLine] in full.  If the cursor row is a row of the
    buffer and the column is not negative, the row is split at the cursor.
    If the cursor row is not a row of the buffer, the lines stay as they
    are.  In both cases the cursor goes to column 0 of the next row, the
    horizontal origin becomes 0, the vertical origin is not adjusted and
    the view is dirty.  On a row of the buffer with a negative column the
    call panics. *)
Theorem EditNewLine_spec (v : View) :
  let ls := lines v in
  let l := lineAt ls (cy v) in
  ((cy v < 0 \/ len ls <= cy v) /\
   EditNewLine v =
     Ok tt (set_cx 0 (set_cy (cy v + 1) (set_ox 0 (set_tainted true v))))) \/
  (0 <= cy v < len ls /\ cx v < 0 /\
   EditNewLine v = Panic (set_tainted true v)) \/
  (0 <= cy v < len ls /\ 0 <= cx v /\
   EditNewLine v =
     Ok tt (set_cx 0 (set_cy (cy v + 1) (set_ox 0
             (set_lines
                (take (Z.to_nat (cy v)) ls
                   ++ take (Z.to_nat (cx v)) l :: drop (Z.to_nat (cx v)) l
                   :: drop (Z.to_nat (cy v + 1)) ls)
                (set_tainted true v)))))).
Proof.
  intros ls l.
  assert (Hcases : (cy v < 0 \/ len ls <= cy v)
                   \/ (0 <= cy v < len ls /\ cx v < 0)
                   \/ (0 <= cy v < len ls /\ 0 <= cx v)) by lia.
  destruct Hcases as [Hout|[[Hy Hx]|[Hy Hx]]].
  - left. split; [done|]. unfold EditNewLine. step_pure.
    eapply bind_step; [by apply breakLine_err|reflexivity].
  - right. left. split; [done|]. split; [done|].
    unfold EditNewLine. step_pure.
    apply bind_panic. by apply breakLine_panic.
  - right. right. split; [done|]. split; [done|].
    unfold EditNewLine. step_pure.
    eapply bind_step; [by apply breakLine_run|reflexivity].
Qed.

End EditFacts.

(** ** Line operations and the default editor *)

Lemma same_but_cursor_refl v : same_but_cursor v v.
Proof. by repeat split. Qed.

Lemma same_but_cursor_trans u v w :
  same_but_cursor u v -> same_but_cursor v w -> same_but_cursor u w.
Proof.
  intros (H1 & H2 & H3 & H4 & H5 & H6) (K1 & K2 & K3 & K4 & K5 & K6).
  repeat split; congruence.
Qed.

Section LineFacts.

Variable Size : View -> Z * Z.
Variable linesPosOnScreen : View -> Z -> Z -> Z * Z * bool.

Abbreviation moveCursor := (MoveCursor Size linesPosOnScreen).
Abbreviation editDelete := (EditDelete Size linesPosOnScreen).
Abbreviation startLoop := (gotoStartLoop Size linesPosOnScreen).
Abbreviation delLoop := (deleteToStartLoop Size linesPosOnScreen).
Abbreviation endLoop := (gotoEndLoop Size linesPosOnScreen).

Lemma gotoStartLoop_stop v fuel : cx v <= 0 -> startLoop fuel (cx v) v = Ok tt v.
Proof.
  intros Hx. destruct fuel; simpl; rewrite Z.gtb_ltb;
    by destruct (Z.ltb_spec 0 (cx v)); [lia|].
Qed.

Lemma gotoStartLoop_at (n : nat) : forall v,
  inBuffer v -> cx v = Z.of_nat n ->
  exists w,
    (forall fuel, (n <= fuel)%nat -> startLoop fuel (cx v) v = Ok tt w) /\
    (cx w, cy w) = (0, cy v) /\ same_but_cursor v w.
Proof.
  induction n as [|n IH]; intros v Hin Hn.
  - exists v. split; [intros fuel _; apply gotoStartLoop_stop; lia|].
    split; [by rewrite Hn|apply same_but_cursor_refl].
  - destruct Hin as [Hy Hx].
    destruct (MoveCursor_effect Size linesPosOnScreen (-1) 0 v)
      as (w1 & Hrun & Hfr & Hb & Hc & _).
    rewrite target_plain in Hc by (rewrite ?Z.add_0_r; lia).
    assert (cx w1 = cx v - 1 /\ cy w1 = cy v) as [Hcx Hcy]
      by (inversion Hc; lia).
    assert (Hin1 : inBuffer w1).
    { destruct Hfr as (Hl & _). unfold inBuffer. rewrite Hl, Hcx, Hcy. lia. }
    destruct (IH w1 Hin1) as (w & Hloop & Hcw & Hfw); [lia|].
    exists w. split; [|split; [by rewrite Hcw, Hcy|by eapply same_but_cursor_trans]].
    intros [|fuel] Hfuel; [lia|].
    simpl. rewrite Z.gtb_ltb. destruct (Z.ltb_spec 0 (cx v)); [|lia].
    eapply bind_step; [exact Hrun|cbv beta].
    step_pure. cbn [fst]. apply Hloop. lia.
Qed.

(** X17.  With the cursor in the buffer, [EditGotoToStartOfLine] returns
    after as many steps as the cursor column, with the cursor at column 0
    of the same row; only the cursor and the viewport origin change.
    Called again, it does nothing. *)
Theorem EditGotoToStartOfLine_spec (v : View) :
  inBuffer v ->
  exists w,
    (forall fuel, (Z.to_nat (cx v) <= fuel)%nat ->
       EditGotoToStartOfLine Size linesPosOnScreen fuel v = Ok tt w) /\
    (cx w, cy w) = (0, cy v) /\
    same_but_cursor v w /\
    (forall fuel, EditGotoToStartOfLine Size linesPosOnScreen fuel w = Ok tt w).
Proof.
  intros Hin.
  destruct (gotoStartLoop_at (Z.to_nat (cx v)) v Hin) as (w & Hloop & Hc & Hfr).
  { destruct Hin as [_ Hx]. lia. }
  exists w. split; [|split; [done|split; [done|]]].
  - intros fuel Hfuel. unfold EditGotoToStartOfLine. step_pure. cbn [fst].
    by apply Hloop.
  - intros fuel. unfold EditGotoToStartOfLine. step_pure. cbn [fst].
    apply gotoStartLoop_stop. inversion Hc. lia.
Qed.

Lemma deleteToStartLoop_stop v fuel : cx v <= 0 -> delLoop fuel (cx v) v = Ok tt v.
Proof.
  intros Hx. destruct fuel; simpl; rewrite Z.gtb_ltb;
    by destruct (Z.ltb_spec 0 (cx v)); [lia|].
Qed.

Lemma deleteToStartLoop_at (a : list cell) : forall v l1 b l2,
  lines v = l1 ++ (a ++ b) :: l2 -> cy v = len l1 -> cx v = len a ->
  exists w,
    (forall fuel, (length a <= fuel)%nat -> delLoop fuel (cx v) v = Ok tt w) /\
    lines w = l1 ++ b :: l2 /\ (cx w, cy w) = (0, cy v).
Proof.
  induction a as [|c a' IH] using rev_ind; intros v l1 b l2 Hl Hy Hx.
  - exists v. rewrite len_nil in Hx.
    split; [intros fuel _; apply deleteToStartLoop_stop; lia|].
    split; [done|by rewrite Hx].
  - rewrite <- app_assoc in Hl. simpl in Hl.
    rewrite len_app, len_singleton in Hx. pose proof (len_nonneg a').
    destruct (EditDelete_back_at Size linesPosOnScreen l1 l2 a' b c v Hl Hy Hx)
      as (w1 & Hrun & Hlw & Hcx & Hcy & _).
    destruct (IH w1 l1 b l2 Hlw) as (w & Hloop & Hlw' & Hc); [lia|lia|].
    exists w. split; [|split; [done|by rewrite Hc, Hcy]].
    intros [|fuel] Hfuel; [rewrite length_app in Hfuel; simpl in Hfuel; lia|].
    simpl. rewrite Z.gtb_ltb. destruct (Z.ltb_spec 0 (cx v)); [|lia].
    eapply bind_step; [exact Hrun|cbv beta].
    step_pure. cbn [fst]. apply Hloop.
    rewrite length_app in Hfuel. simpl in Hfuel. lia.
Qed.

(** X18.  With the cursor in the buffer, [EditDeleteToStartOfLine] at
    column 0 is [EditDelete true]; after column 0 it returns after as many
    backward deletes as the cursor column, having removed every cell left
    of the cursor: the row keeps the cells from the cursor on, the other
    rows are as before and the cursor is at column 0 of the same row. *)
Theorem EditDeleteToStartOfLine_spec (v : View) :
  inBuffer v ->
  let ls := lines v in
  let l := lineAt ls (cy v) in
  (cx v = 0 ->
   forall fuel,
     EditDeleteToStartOfLine Size linesPosOnScreen fuel v = editDelete true v) /\
  (0 < cx v ->
   exists w,
     (forall fuel, (Z.to_nat (cx v) <= fuel)%nat ->
        EditDeleteToStartOfLine Size linesPosOnScreen fuel v = Ok tt w) /\
     (cx w, cy w) = (0, cy v) /\
     lines w = <[Z.to_nat (cy v) := drop (Z.to_nat (cx v)) l]> ls).
Proof.
  intros Hin ls l. split.
  - intros Hx fuel. unfold EditDeleteToStartOfLine. step_pure. cbn [fst].
    by destruct (Z.eqb_spec (cx v) 0).
  - intros Hx. subst ls l. destruct Hin as [Hy Hcx].
    set (ls := lines v) in *. set (l := lineAt ls (cy v)) in *.
    destruct (deleteToStartLoop_at (take (Z.to_nat (cx v)) l) v
                (take (Z.to_nat (cy v)) ls) (drop (Z.to_nat (cx v)) l)
                (drop (Z.to_nat (cy v + 1)) ls))
      as (w & Hloop & Hlw & Hc).
    + rewrite take_drop. by apply lineAt_take_drop.
    + rewrite len_take. lia.
    + rewrite len_take. lia.
    + exists w. split; [|split; [done|by rewrite insert_row]].
      intros fuel Hfuel. unfold EditDeleteToStartOfLine. step_pure. cbn [fst].
      destruct (Z.eqb_spec (cx v) 0); [lia|]. apply Hloop.
      rewrite length_take. unfold len in Hcx. lia.
Qed.

(** A backward delete that finds no cell to delete and no row to join
    only marks the view dirty. *)
Lemma EditDelete_back_no_cell v :
  0 <= cy v < len (lines v) -> len (lineAt (lines v) (cy v)) < cx v ->
  editDelete true v = Ok tt (set_tainted true v).
Proof.
  intros Hy Hx. pose proof (len_nonneg (lineAt (lines v) (cy v))).
  unfold EditDelete. step_pure. cbv zeta. rewrite Z.geb_leb.
  destruct (Z.ltb_spec (cy v) 0); [lia|].
  destruct (Z.leb_spec (len (lines v)) (cy v)); [lia|].
  destruct (Z.leb_spec (cx v) 0); [lia|]. cbn [andb].
  step_pure.
  eapply bind_step; [apply deleteRune_err; lia|reflexivity].
Qed.

Lemma EditDelete_negative_row back v :
  cy v < 0 -> editDelete back v = Ok tt v.
Proof.
  intros Hy. unfold EditDelete. step_pure. cbv zeta.
  by destruct (Z.ltb_spec (cy v) 0); [|lia].
Qed.

Lemma deleteToStartLoop_stuck (fuel : nat) : forall v,
  cy v < 0 \/
  (0 <= cy v < len (lines v) /\ len (lineAt (lines v) (cy v)) < cx v) ->
  0 < cx v ->
  delLoop fuel (cx v) v = OutOfFuel.
Proof.
  induction fuel as [|fuel IH]; intros v Hstale Hx; simpl; rewrite Z.gtb_ltb;
    (destruct (Z.ltb_spec 0 (cx v)); [|lia]); [done|].
  destruct Hstale as [Hneg|[Hy Hcol]].
  - eapply bind_step; [by apply EditDelete_negative_row|cbv beta].
    step_pure. cbn [fst]. apply IH; [by left|done].
  - eapply bind_step; [by apply EditDelete_back_no_cell|cbv beta].
    step_pure. cbn [fst cx set_tainted].
    apply (IH (set_tainted true v)); [by right|done].
Qed.

(** X19.  [EditDeleteToStartOfLine] does not end when the cursor column
    lies beyond the end of its row (or the row is negative, with a positive
    column): each backward delete fails without moving the cursor, so the
    loop condition [x > 0] stays true.  Whatever number of iterations is
    allowed, the call is still running. *)
Theorem EditDeleteToStartOfLine_stale_column (v : View) :
  cy v < 0 \/
  (0 <= cy v < len (lines v) /\ len (lineAt (lines v) (cy v)) < cx v) ->
  0 < cx v ->
  forall fuel,
    EditDeleteToStartOfLine Size linesPosOnScreen fuel v = OutOfFuel.
Proof.
  intros Hstale Hx fuel. unfold EditDeleteToStartOfLine. step_pure. cbn [fst].
  destruct (Z.eqb_spec (cx v) 0); [lia|]. by apply deleteToStartLoop_stuck.
Qed.

Lemma gotoEndLoop_last_row (n : nat) : forall u prevX,
  0 <= cy u -> cy u + 1 = len (lines u) ->
  0 <= cx u <= len (lineAt (lines u) (cy u)) ->
  len (lineAt (lines u) (cy u)) - cx u = Z.of_nat n ->
  prevX <> cx u ->
  exists w,
    (forall fuel, (S n <= fuel)%nat -> endLoop fuel prevX (cx u) u = Ok tt w) /\
    (cx w, cy w) = (len (lineAt (lines u) (cy u)), cy u) /\
    same_but_cursor u w.
Proof.
  induction n as [|n IH]; intros u prevX Hy0 Hy Hx Hn Hprev;
    destruct (MoveCursor_effect Size linesPosOnScreen 1 0 u)
      as (w1 & Hrun & Hfr & Hb & Hc & _).
  - rewrite target_stuck in Hc by lia.
    assert (cx w1 = cx u /\ cy w1 = cy u) as [Hcx Hcy] by (inversion Hc; lia).
    exists w1. split; [|split; [by rewrite Hcx, Hcy; f_equal; lia|done]].
    intros [|fuel] Hfuel; [lia|].
    rewrite (gotoEndLoop_iter Size linesPosOnScreen u prevX fuel w1) by done.
    rewrite Hcx. apply gotoEndLoop_exit.
  - rewrite target_plain in Hc by (rewrite ?Z.add_0_r; lia).
    assert (cx w1 = cx u + 1 /\ cy w1 = cy u) as [Hcx Hcy] by (inversion Hc; lia).
    pose proof Hfr as (Hl & _).
    destruct (IH w1 (cx u)) as (w & Hloop & Hcw & Hfw);
      rewrite ?Hl, ?Hcx, ?Hcy; try lia.
    exists w. split; [|split].
    + intros [|fuel] Hfuel; [lia|].
      rewrite (gotoEndLoop_iter Size linesPosOnScreen u prevX fuel w1) by done.
      apply Hloop. lia.
    + by rewrite Hcw, Hl, Hcy.
    + by eapply same_but_cursor_trans.
Qed.

End LineFacts.

Section EndOfLine.

Variable Size : View -> Z * Z.
Variable linesPosOnScreen : View -> Z -> Z -> Z * Z * bool.
Variable SetCursor : Z -> Z -> View -> View.

(** What [EditGotoToEndOfLine] expects of [SetCursor], as its comments
    say: it touches nothing but the cursor and the viewport origin; asked
    for column 0 of the next row it goes there when that row exists, and
    stays on the row, at a position of the row, when the row is the last. *)
Hypothesis SetCursor_frame :
  forall x y v, same_but_cursor v (SetCursor x y v).
Hypothesis SetCursor_next_row :
  forall v, inBuffer v -> cy v + 1 < len (lines v) ->
    (cx (SetCursor 0 (cy v + 1) v), cy (SetCursor 0 (cy v + 1) v))
    = (0, cy v + 1).
Hypothesis SetCursor_last_row :
  forall v, inBuffer v -> cy v + 1 = len (lines v) ->
    cy (SetCursor 0 (cy v + 1) v) = cy v /\
    0 <= cx (SetCursor 0 (cy v + 1) v) <= len (lineAt (lines v) (cy v)).

(** X20.  With the cursor in the buffer and such a [SetCursor],
    [EditGotoToEndOfLine] returns with the cursor at the end of its row,
    whether the row is the last one (the cursor steps right until it stops)
    or not (the cursor steps left from the start of the next row); only the
    cursor and the viewport origin change. *)
Theorem EditGotoToEndOfLine_spec (v : View) :
  inBuffer v ->
  exists (f : nat) w,
    (forall fuel, (f <= fuel)%nat ->
       EditGotoToEndOfLine Size linesPosOnScreen SetCursor fuel v = Ok tt w) /\
    (cx w, cy w) = (len (lineAt (lines v) (cy v)), cy v) /\
    same_but_cursor v w.
Proof.
  intros Hin. pose proof Hin as [Hy Hx].
  set (u := SetCursor 0 (cy v + 1) v).
  pose proof (SetCursor_frame 0 (cy v + 1) v) as Hfu. fold u in Hfu.
  pose proof Hfu as (Hlu & _).
  assert (Hhead : forall fuel,
    EditGotoToEndOfLine Size linesPosOnScreen SetCursor fuel v =
    (if cy u =? cy v
     then gotoEndLoop Size linesPosOnScreen fuel (-1) (cx u)
     else MoveCursor Size linesPosOnScreen (-1) 0) u).
  { intros fuel. unfold EditGotoToEndOfLine.
    eapply bind_step; [reflexivity|cbv beta zeta]. cbn [snd].
    step_pure. fold u.
    eapply bind_step; reflexivity. }
  destruct (Z.lt_ge_cases (cy v + 1) (len (lines v))) as [Hnext|Hlast].
  - pose proof (SetCursor_next_row v Hin Hnext) as Hcu. fold u in Hcu.
    assert (cx u = 0 /\ cy u = cy v + 1) as [Hcx Hcy] by (inversion Hcu; lia).
    destruct (MoveCursor_effect Size linesPosOnScreen (-1) 0 u)
      as (w & Hrun & Hfr & _ & Hc & _).
    rewrite Hlu, Hcx, Hcy, target_prev in Hc by lia.
    replace (cy v + 1 - 1) with (cy v) in Hc by lia.
    exists O, w. split; [|split; [done|by eapply same_but_cursor_trans]].
    intros fuel _. rewrite Hhead, Hcy.
    by destruct (Z.eqb_spec (cy v + 1) (cy v)); [lia|].
  - destruct (SetCursor_last_row v Hin) as [Hcy Hcx]; [lia|]. fold u in Hcy, Hcx.
    destruct (gotoEndLoop_last_row Size linesPosOnScreen
                (Z.to_nat (len (lineAt (lines v) (cy v)) - cx u)) u (-1))
      as (w & Hloop & Hc & Hfr); rewrite ?Hlu, ?Hcy; try lia.
    rewrite Hlu, Hcy in Hc.
    exists (S (Z.to_nat (len (lineAt (lines v) (cy v)) - cx u))), w.
    split; [|split; [done|by eapply same_but_cursor_trans]].
    intros fuel Hfuel. rewrite Hhead, Hcy, Z.eqb_refl. by apply Hloop.
Qed.

End EndOfLine.

Section DefaultEditorFacts.

Variable Size : View -> Z * Z.
Variable linesPosOnScreen : View -> Z -> Z -> Z * Z * bool.

Lemma simpleEditor_ok key ch mod_ v :
  cursor_ok v ->
  exists w,
    simpleEditor Size linesPosOnScreen key ch mod_ v = Ok tt w /\ cursor_ok w.
Proof.
  intros Hok.
  pose proof (EditWrite_ok Size linesPosOnScreen) as Hwrite.
  assert (Hw : forall c, exists w,
    EditWrite Size linesPosOnScreen c v = Ok tt w /\ cursor_ok w).
  { intros c. destruct (Hwrite c v) as (w & Hrun & Hb).
    exists w. split; [done|by apply bounds_cursor_ok]. }
  assert (Hm : forall dx dy, exists w,
    MoveCursor Size linesPosOnScreen dx dy v = Ok tt w /\ cursor_ok w).
  { intros dx dy.
    destruct (MoveCursor_bounds Size linesPosOnScreen dx dy v)
      as (w & Hrun & _ & Hb & _).
    exists w. split; [done|by apply bounds_cursor_ok]. }
  unfold simpleEditor.
  destruct (negb (ch =? 0) && (mod_ =? 0)); [by apply Hw|].
  destruct key; try (by apply Hw); try (by apply Hm);
    try (by apply EditDelete_ok).
  - exists (set_Overwrite (negb (Overwrite v)) v). split; [reflexivity|done].
  - by apply EditNewLine_ok.
  - by exists v.
Qed.

(** X21.  The default editor is safe on every key event: from a view whose
    cursor satisfies the bounds that the operations keep, [Edit] returns
    (it neither panics nor loops) and the cursor satisfies them again;
    hence, from the initial view, every sequence of key events is processed
    to its end. *)
Theorem DefaultEditor_never_panics
    (events : list (Key * rune * Modifier)) (v0 : View) :
  initial v0 ->
  exists w,
    dispatch (DefaultEditor Size linesPosOnScreen) events v0 = Ok tt w /\
    cursor_ok w.
Proof.
  intros Hinit. apply initial_cursor_ok in Hinit.
  revert v0 Hinit. induction events as [|[[key ch] mod_] events IH];
    intros v Hok.
  - by exists v.
  - destruct (simpleEditor_ok key ch mod_ v Hok) as (w1 & Hrun & Hok1).
    destruct (IH w1 Hok1) as (w & Hrest & Hokw).
    exists w. split; [|done].
    cbn [dispatch]. eapply bind_step; [exact Hrun|exact Hrest].
Qed.

End DefaultEditorFacts.

Section TypingFacts.

Variable Size : View -> Z * Z.
Variable linesPosOnScreen : View -> Z -> Z -> Z * Z * bool.

Abbreviation editWrite := (EditWrite Size linesPosOnScreen).
Abbreviation defaultEditor := (DefaultEditor Size linesPosOnScreen).

Lemma EditWrite_colours ch v w :
  editWrite ch v = Ok tt w -> FgColor w = FgColor v /\ BgColor w = BgColor v.
Proof.
  intros Hrun.
  destruct (writeRune_shape (cx v) (cy v) ch v) as (e & ls' & Hw).
  destruct (MoveCursor_effect Size linesPosOnScreen 1 0
              (set_lines ls' (set_tainted true v)))
    as (w' & Hm & (_ & _ & _ & _ & Hfg & Hbg) & _).
  assert (Hrun' : editWrite ch v = Ok tt w').
  { unfold EditWrite. step_pure. eapply bind_step; [exact Hw|exact Hm]. }
  rewrite Hrun in Hrun'. injection Hrun' as ->. by split.
Qed.

Lemma Edit_typed key ch mod_ v :
  typed (key, ch, mod_) = true ->
  Edit defaultEditor key ch mod_ v = editWrite ch v.
Proof.
  intros Ht. cbn [typed] in Ht. cbn [Edit EditorFunc_Editor].
  unfold DefaultEditor, simpleEditor. by rewrite Ht.
Qed.

Lemma typing_at (events : list (Key * rune * Modifier)) : forall v l1 a b l2,
  forallb typed events = true ->
  lines v = l1 ++ (a ++ b) :: l2 -> cy v = len l1 -> cx v = len a ->
  Overwrite v = false \/ b = [] ->
  exists w,
    dispatch defaultEditor events v = Ok tt w /\
    lines w = l1 ++ (a ++ map (fun e => cellOf v (runeOf e)) events ++ b) :: l2 /\
    (cx w, cy w) = (cx v + len events, cy v).
Proof.
  induction events as [|[[key ch] mod_] events IH]; intros v l1 a b l2 Ht Hl Hy Hx Hm.
  - exists v. split; [done|]. split; [done|]. rewrite len_nil. f_equal. lia.
  - cbn [forallb] in Ht. apply andb_prop in Ht as [Ht Hts].
    destruct (EditWrite_at Size linesPosOnScreen l1 l2 a b ch v Hl Hy Hx Hm)
      as (w1 & Hrun & Hlw & Hcx & Hcy & How).
    destruct (EditWrite_colours ch v w1 Hrun) as [Hfg Hbg].
    destruct (IH w1 l1 (a ++ [cellOf v ch]) b l2 Hts) as (w & Hrest & Hlw' & Hc).
    + by rewrite <- app_assoc.
    + lia.
    + rewrite len_app, len_singleton. lia.
    + by rewrite How.
    + exists w. split; [|split].
      * cbn [dispatch]. eapply bind_step; [|exact Hrest].
        by rewrite Edit_typed.
      * rewrite Hlw'. unfold cellOf. rewrite Hfg, Hbg.
        cbn [map runeOf]. by rewrite <- !app_assoc.
      * rewrite Hc, Hcx, Hcy, len_cons. f_equal. lia.
Qed.

(** X22.  Typing inserts text.  A sequence of key events that each carry
    a character and no modifier, handed to the default editor with the
    cursor in the buffer (in insert mode, or at the end of its line), puts
    the characters at the cursor in the order typed, in the colours of the
    view, and leaves the cursor just after them; the rest of the line and
    the other rows are as before.  The key of such an event plays no part. *)
Theorem typing_inserts_text (events : list (Key * rune * Modifier)) (v : View) :
  forallb typed events = true ->
  inBuffer v ->
  Overwrite v = false \/ cx v = len (lineAt (lines v) (cy v)) ->
  let l := lineAt (lines v) (cy v) in
  exists w,
    dispatch defaultEditor events v = Ok tt w /\
    lines w =
      <[Z.to_nat (cy v) :=
          take (Z.to_nat (cx v)) l
            ++ map (fun e => cellOf v (runeOf e)) events
            ++ drop (Z.to_nat (cx v)) l]> (lines v) /\
    (cx w, cy w) = (cx v + len events, cy v).
Proof.
  intros Ht [Hy Hx] Hm l. fold l in Hx, Hm.
  destruct (typing_at events v (take (Z.to_nat (cy v)) (lines v))
              (take (Z.to_nat (cx v)) l) (drop (Z.to_nat (cx v)) l)
              (drop (Z.to_nat (cy v + 1)) (lines v)) Ht)
    as (w & Hrun & Hlw & Hc).
  - rewrite take_drop. by apply lineAt_take_drop.
  - rewrite len_take. lia.
  - rewrite len_take. lia.
  - destruct Hm as [Hm|Hm]; [by left|right].
    apply drop_ge. unfold len in Hm. lia.
  - exists w. split; [done|]. split; [|done].
    by rewrite insert_row.
Qed.

(** X23.  Typing into the empty buffer.  From the initial view, a
    non-empty sequence of such events creates the first row: the buffer is
    one row holding the characters typed, and the cursor is on that row
    just after them. *)
Theorem typing_on_empty_buffer
    (events : list (Key * rune * Modifier)) (v : View) :
  initial v -> events <> [] -> forallb typed events = true ->
  exists w,
    dispatch defaultEditor events v = Ok tt w /\
    lines w = [map (fun e => cellOf v (runeOf e)) events] /\
    (cx w, cy w) = (len events, 0).
Proof.
  intros (Hl & Hx & Hy & _) Hne Ht.
  destruct events as [|[[key ch] mod_] events]; [done|].
  cbn [forallb] in Ht. apply andb_prop in Ht as [Ht Hts].
  pose proof (writeRune_run (cx v) (cy v) ch v) as Hw.
  rewrite Hl, Hx, Hy in Hw. specialize (Hw ltac:(lia) ltac:(lia)).
  change (grow [] 0) with [@nil cell] in Hw.
  change (lineAt [] 0) with (@nil cell) in Hw.
  change (putCell (Overwrite v) [] 0 (cellOf v ch)) with [cellOf v ch] in Hw.
  cbn [take drop Z.to_nat app] in Hw.
  change (Z.to_nat (0 + 1)) with 1%nat in Hw. cbn [drop] in Hw.
  rewrite <- Hx in Hw at 1. rewrite <- Hy in Hw at 1.
  set (w0 := set_lines [[cellOf v ch]] (set_tainted true v)) in *.
  destruct (MoveCursor_effect Size linesPosOnScreen 1 0 w0)
    as (w1 & Hm & Hfr & _ & Hc & _).
  assert (Hrun : editWrite ch v = Ok tt w1).
  { unfold EditWrite. step_pure. eapply bind_step; [exact Hw|exact Hm]. }
  destruct (EditWrite_colours ch v w1 Hrun) as [Hfg Hbg].
  destruct Hfr as (Hl1 & _ & How & _).
  assert (cx w1 = 1 /\ cy w1 = 0) as [Hcx Hcy].
  { unfold w0 in Hc. cbn [lines set_lines cx cy set_tainted] in Hc.
    rewrite Hx, Hy in Hc. vm_compute in Hc. by inversion Hc. }
  destruct (typing_at events w1 [] [cellOf v ch] [] [] Hts)
    as (w & Hrest & Hlw & Hcw); [by rewrite Hl1|done|done|by right|].
  exists w. split; [|split].
  - cbn [dispatch]. eapply bind_step; [|exact Hrest]. by rewrite Edit_typed.
  - rewrite Hlw. unfold cellOf. rewrite Hfg, Hbg. cbn [map runeOf app].
    by rewrite app_nil_r.
  - rewrite Hcw, Hcx, Hcy, len_cons. f_equal; lia.
Qed.

(** X24.  The Insert key toggles the mode and nothing else: an Insert
    event that is not a typed character returns with Overwrite negated and
    with the lines, the dirty flag, the cursor, the origin, Wrap and the
    colours as they were.  Pressed twice, it gives the view back as it
    was. *)
Theorem insert_key_twice (ch : rune) (mod_ : Modifier) (v : View) :
  typed (KeyInsert, ch, mod_) = false ->
  (exists w,
     Edit defaultEditor KeyInsert ch mod_ v = Ok tt w /\
     Overwrite w = negb (Overwrite v) /\
     lines w = lines v /\ tainted w = tainted v /\
     cx w = cx v /\ cy w = cy v /\ ox w = ox v /\ oy w = oy v /\
     Wrap w = Wrap v /\ FgColor w = FgColor v /\ BgColor w = BgColor v) /\
  dispatch defaultEditor [(KeyInsert, ch, mod_); (KeyInsert, ch, mod_)] v
  = Ok tt v.
Proof.
  intros Ht. cbn [typed] in Ht. split.
  - exists (set_Overwrite (negb (Overwrite v)) v). split; [|by repeat split].
    cbn [Edit EditorFunc_Editor]. unfold DefaultEditor, simpleEditor.
    by rewrite Ht.
  - cbn [dispatch Edit EditorFunc_Editor]. unfold DefaultEditor, simpleEditor.
    rewrite Ht. destruct v as [ls x y ox' oy' ow wr t fg bg].
    by destruct ow.
Qed.

(** X25.  The arrow keys, Insert and Esc never edit: when the event is
    not a typed character, the default editor returns with the lines of
    the buffer and the dirty flag as they were. *)
Theorem navigation_keys_keep_buffer
    (key : Key) (ch : rune) (mod_ : Modifier) (v : View) :
  navigation key = true -> typed (key, ch, mod_) = false ->
  exists w,
    Edit defaultEditor key ch mod_ v = Ok tt w /\
    lines w = lines v /\ tainted w = tainted v.
Proof.
  intros Hk Ht. cbn [typed] in Ht.
  assert (Hm : forall dx dy, exists w,
    MoveCursor Size linesPosOnScreen dx dy v = Ok tt w /\
    lines w = lines v /\ tainted w = tainted v).
  { intros dx dy.
    destruct (MoveCursor_effect Size linesPosOnScreen dx dy v)
      as (w & Hrun & (Hl & Hd & _) & _).
    by exists w. }
  cbn [Edit EditorFunc_Editor]. unfold DefaultEditor, simpleEditor.
  rewrite Ht. destruct key; try discriminate Hk; try (by apply Hm).
  - by eexists.
  - by exists v.
Qed.

End TypingFacts.

(** ** Machine integers *)

Section MachineIntegers.

Variable Size : View -> Z * Z.
Variable linesPosOnScreen : View -> Z -> Z -> Z * Z * bool.

(** X26.  Where [int] is 64 bits wide, the wrap-around of its arithmetic
    makes no difference to [MoveCursor] as long as the sums of the cursor
    coordinates and the deltas are in the range of [int] and the origin,
    the size and the screen position of the resolved cursor are below 2^62
    in absolute value: the function on machine integers then returns
    exactly the state that the function on the integers returns. *)
Theorem MoveCursor64_agrees (dx dy : Z) (v : View) :
  in_int (cx v + dx) -> in_int (cy v + dy) ->
  no_overflow Size linesPosOnScreen dx dy v ->
  MoveCursor64 Size linesPosOnScreen dx dy v
  = MoveCursor Size linesPosOnScreen dx dy v.
Proof.
  intros HX HY Hno. destruct (lines v) as [|l0 ls0] eqn:Hl.
  - rewrite MoveCursor_empty by done. unfold MoveCursor64.
    step_pure. cbv zeta. by rewrite Hl.
  - assert (Hne : lines v <> []) by (by rewrite Hl).
    rewrite MoveCursor_run by done. by apply MoveCursor64_run.
Qed.

End MachineIntegers.

(** ** The clamped [SetCursor] *)

Lemma SetCursor_clamped_frame Size linesPosOnScreen x y v :
  same_but_cursor v (SetCursor_clamped Size linesPosOnScreen x y v).
Proof.
  unfold SetCursor_clamped.
  destruct (MoveCursor_effect Size linesPosOnScreen (x - cx v) (y - cy v) v)
    as (w & Hrun & Hfr & _).
  by rewrite (final_Ok _ _ _ _ Hrun).
Qed.

Lemma SetCursor_clamped_next_row Size linesPosOnScreen v :
  inBuffer v -> cy v + 1 < len (lines v) ->
  (cx (SetCursor_clamped Size linesPosOnScreen 0 (cy v + 1) v),
   cy (SetCursor_clamped Size linesPosOnScreen 0 (cy v + 1) v))
  = (0, cy v + 1).
Proof.
  intros [Hy Hx] Hnext. unfold SetCursor_clamped.
  destruct (MoveCursor_effect Size linesPosOnScreen
              (0 - cx v) (cy v + 1 - cy v) v)
    as (w & Hrun & _ & _ & Hc & _).
  rewrite (final_Ok _ _ _ _ Hrun), Hc.
  pose proof (len_nonneg (lineAt (lines v) (cy v + (cy v + 1 - cy v)))).
  rewrite target_plain by lia. f_equal; lia.
Qed.

Lemma SetCursor_clamped_last_row Size linesPosOnScreen v :
  inBuffer v -> cy v + 1 = len (lines v) ->
  cy (SetCursor_clamped Size linesPosOnScreen 0 (cy v + 1) v) = cy v /\
  0 <= cx (SetCursor_clamped Size linesPosOnScreen 0 (cy v + 1) v)
    <= len (lineAt (lines v) (cy v)).
Proof.
  intros [Hy Hx] Hlast. unfold SetCursor_clamped.
  destruct (MoveCursor_effect Size linesPosOnScreen
              (0 - cx v) (cy v + 1 - cy v) v)
    as (w & Hrun & _ & _ & Hc & _).
  rewrite (final_Ok _ _ _ _ Hrun).
  assert (Ht : target (lines v) (cx v) (cy v) (0 - cx v) (cy v + 1 - cy v)
               = (0, cy v)).
  { unfold target.
    destruct (Z.eqb_spec (len (lines v)) 0); [lia|].
    replace (Z.max 0 (Z.min (cy v + (cy v + 1 - cy v)) (len (lines v) - 1)))
      with (cy v) by lia.
    replace (cx v + (0 - cx v)) with 0 by lia. cbv zeta.
    rewrite Z.gtb_ltb.
    destruct (Z.ltb_spec (len (lineAt (lines v) (cy v))) 0); [lia|].
    by destruct (Z.ltb_spec 0 0); [lia|]. }
  rewrite Ht in Hc.
  assert (cx w = 0 /\ cy w = cy v) as [-> ->] by (by inversion Hc).
  lia.
Qed.

(** ** Concrete runs of the further properties *)

Lemma breakLine_mergeLines_inverse_witness :
  exists w,
    (breakLine 1 0 ;;; mergeLines 0) (view [[97; 98]] 0 0 false) = Ok None w /\
    lines w = lines (view [[97; 98]] 0 0 false).
Proof.
  apply breakLine_mergeLines_inverse; [unfold len; simpl; lia|lia].
Defined.



Lemma right_then_left_witness :
  exists w1 w2,
    MoveCursor size80x24 posUnwrapped 1 0 (view [[97; 98]; [99]] 2 0 false)
      = Ok tt w1 /\
    MoveCursor size80x24 posUnwrapped (-1) 0 w1 = Ok tt w2 /\
    (cx w2, cy w2) = (2, 0).
Proof.
  apply (right_then_left size80x24 posUnwrapped
           (view [[97; 98]; [99]] 2 0 false)).
  - unfold inBuffer, len. simpl. lia.
  - right. unfold len. simpl. lia.
Defined.

Lemma left_then_right_witness :
  exists w1 w2,
    MoveCursor size80x24 posUnwrapped (-1) 0 (view [[97; 98]; [99]] 0 1 false)
      = Ok tt w1 /\
    MoveCursor size80x24 posUnwrapped 1 0 w1 = Ok tt w2 /\
    (cx w2, cy w2) = (0, 1).
Proof.
  apply (left_then_right size80x24 posUnwrapped
           (view [[97; 98]; [99]] 0 1 false)).
  - unfold inBuffer, len. simpl. lia.
  - right. simpl. lia.
Defined.

Lemma EditWrite_in_buffer_witness :
  exists w,
    EditWrite size80x24 posUnwrapped 120 (view [[97; 98]] 1 0 false) = Ok tt w /\
    (cx w, cy w) = (2, 0) /\
    text w = [[97; 120; 98]].
Proof.
  destruct (EditWrite_in_buffer size80x24 posUnwrapped 120
              (view [[97; 98]] 1 0 false))
    as (w & Hrun & Hc & _ & Hl).
  - unfold inBuffer, len. simpl. lia.
  - exists w. split; [exact Hrun|]. split; [exact Hc|].
    unfold text. rewrite Hl. reflexivity.
Defined.

Lemma backspace_at_origin_witness :
  EditDelete size80x24 posUnwrapped true (view [[97]] 0 0 false)
  = Ok tt (view [[97]] 0 0 false).
Proof.
  apply backspace_at_origin; reflexivity.
Defined.

Lemma backspace_in_buffer_witness :
  exists w,
    EditDelete size80x24 posUnwrapped true (view [[97]; [98]] 0 1 false)
      = Ok tt w /\
    (cx w, cy w) = (1, 0) /\
    text w = [[97; 98]].
Proof.
  destruct (backspace_in_buffer size80x24 posUnwrapped
              (view [[97]; [98]] 0 1 false))
    as (w & Hrun & _ & Hjoin).
  - unfold inBuffer, len. simpl. lia.
  - right. simpl. lia.
  - destruct (Hjoin eq_refl) as [Hc Hl].
    exists w. split; [exact Hrun|]. split; [exact Hc|].
    unfold text. rewrite Hl. reflexivity.
Defined.

Lemma delete_forward_in_buffer_witness :
  exists w,
    EditDelete size80x24 posUnwrapped false (view [[97; 98]] 0 0 false)
      = Ok tt w /\
    text w = [[98]].
Proof.
  destruct (delete_forward_in_buffer size80x24 posUnwrapped
              (view [[97; 98]] 0 0 false))
    as (w & Hrun & _ & _ & Hcut & _).
  - unfold inBuffer, len. simpl. lia.
  - exists w. split; [exact Hrun|].
    unfold text. rewrite Hcut by (unfold len; simpl; lia). reflexivity.
Defined.

Lemma EditGotoToStartOfLine_spec_witness :
  exists w,
    (forall fuel, (3 <= fuel)%nat ->
       EditGotoToStartOfLine size80x24 posUnwrapped fuel
         (view [[97; 98; 99]] 3 0 false) = Ok tt w) /\
    (cx w, cy w) = (0, 0).
Proof.
  destruct (EditGotoToStartOfLine_spec size80x24 posUnwrapped
              (view [[97; 98; 99]] 3 0 false))
    as (w & Hrun & Hc & _).
  - unfold inBuffer, len. simpl. lia.
  - exists w. split; [exact Hrun|exact Hc].
Defined.

Lemma EditGotoToEndOfLine_spec_witness :
  exists (f : nat) w,
    (forall fuel, (f <= fuel)%nat ->
       EditGotoToEndOfLine size80x24 posUnwrapped
         (SetCursor_clamped size80x24 posUnwrapped) fuel
         (view [[97; 98; 99]; [100]] 1 0 false) = Ok tt w) /\
    (cx w, cy w) = (3, 0).
Proof.
  destruct (EditGotoToEndOfLine_spec size80x24 posUnwrapped
              (SetCursor_clamped size80x24 posUnwrapped)
              (SetCursor_clamped_frame size80x24 posUnwrapped)
              (SetCursor_clamped_next_row size80x24 posUnwrapped)
              (SetCursor_clamped_last_row size80x24 posUnwrapped)
              (view [[97; 98; 99]; [100]] 1 0 false))
    as (f & w & Hrun & Hc & _).
  - unfold inBuffer, len. simpl. lia.
  - exists f, w. split; [exact Hrun|exact Hc].
Defined.

Lemma EditDeleteToStartOfLine_spec_witness :
  exists w,
    (forall fuel, (2 <= fuel)%nat ->
       EditDeleteToStartOfLine size80x24 posUnwrapped fuel
         (view [[97; 98; 99]] 2 0 false) = Ok tt w) /\
    (cx w, cy w) = (0, 0) /\
    text w = [[99]].
Proof.
  pose proof (EditDeleteToStartOfLine_spec size80x24 posUnwrapped
                (view [[97; 98; 99]] 2 0 false)) as H.
  cbv zeta in H. destruct H as (_ & H).
  - unfold inBuffer, len. simpl. lia.
  - destruct H as (w & Hrun & Hc & Hl); [simpl; lia|].
    exists w. split; [exact Hrun|]. split; [exact Hc|].
    unfold text. rewrite Hl. reflexivity.
Defined.

Lemma EditDeleteToStartOfLine_stale_column_witness :
  EditDeleteToStartOfLine size80x24 posUnwrapped 1000 (view [[97]] 5 0 false)
  = OutOfFuel.
Proof.
  apply (EditDeleteToStartOfLine_stale_column size80x24 posUnwrapped
           (view [[97]] 5 0 false)).
  - right. unfold len. simpl. lia.
  - simpl. lia.
Defined.

Lemma DefaultEditor_never_panics_witness :
  exists w,
    dispatch (DefaultEditor size80x24 posUnwrapped)
      [(KeyOther 0, 97, 0); (KeyEnter, 0, 0); (KeyBackspace, 0, 0)]
      (view [] 0 0 false) = Ok tt w /\
    cursor_ok w.
Proof.
  apply DefaultEditor_never_panics. repeat split; reflexivity.
Defined.

Lemma typing_inserts_text_witness :
  exists w,
    dispatch (DefaultEditor size80x24 posUnwrapped)
      [(KeyOther 0, 120, 0); (KeyEsc, 121, 0)]
      (view [[97; 98]] 1 0 false) = Ok tt w /\
    text w = [[97; 120; 121; 98]] /\
    (cx w, cy w) = (3, 0).
Proof.
  destruct (typing_inserts_text size80x24 posUnwrapped
              [(KeyOther 0, 120, 0); (KeyEsc, 121, 0)]
              (view [[97; 98]] 1 0 false))
    as (w & Hrun & Hl & Hc).
  - reflexivity.
  - unfold inBuffer, len. simpl. lia.
  - by left.
  - exists w. split; [exact Hrun|]. split; [|exact Hc].
    unfold text. rewrite Hl. reflexivity.
Defined.

Lemma typing_on_empty_buffer_witness :
  exists w,
    dispatch (DefaultEditor size80x24 posUnwrapped)
      [(KeyOther 0, 120, 0); (KeyEsc, 121, 0)]
      (view [] 0 0 false) = Ok tt w /\
    text w = [[120; 121]] /\
    (cx w, cy w) = (2, 0).
Proof.
  destruct (typing_on_empty_buffer size80x24 posUnwrapped
              [(KeyOther 0, 120, 0); (KeyEsc, 121, 0)]
              (view [] 0 0 false))
    as (w & Hrun & Hl & Hc).
  - repeat split; reflexivity.
  - discriminate.
  - reflexivity.
  - exists w. split; [exact Hrun|]. split; [|exact Hc].
    unfold text. rewrite Hl. reflexivity.
Defined.

Lemma insert_key_twice_witness :
  (exists w,
     Edit (DefaultEditor size80x24 posUnwrapped) KeyInsert 0 0
       (view [[97]] 0 0 false) = Ok tt w /\
     Overwrite w = true /\ text w = [[97]]) /\
  dispatch (DefaultEditor size80x24 posUnwrapped)
    [(KeyInsert, 0, 0); (KeyInsert, 0, 0)] (view [[97]] 0 0 false)
  = Ok tt (view [[97]] 0 0 false).
Proof.
  destruct (insert_key_twice size80x24 posUnwrapped 0 0
              (view [[97]] 0 0 false) eq_refl)
    as [(w & Hrun & How & Hl & _) Htwice].
  split; [|exact Htwice].
  exists w. split; [exact Hrun|]. split; [exact How|].
  unfold text. by rewrite Hl.
Defined.

Lemma navigation_keys_keep_buffer_witness :
  exists w,
    Edit (DefaultEditor size80x24 posUnwrapped) KeyArrowLeft 0 0
      (view [[97]] 1 0 false) = Ok tt w /\
    lines w = lines (view [[97]] 1 0 false) /\
    tainted w = tainted (view [[97]] 1 0 false).
Proof.
  apply navigation_keys_keep_buffer; reflexivity.
Defined.

Lemma MoveCursor64_agrees_witness :
  MoveCursor64 size80x24 posUnwrapped 1 0 (view [[97; 98]; [99]] 2 0 false)
  = MoveCursor size80x24 posUnwrapped 1 0 (view [[97; 98]; [99]] 2 0 false).
Proof.
  apply MoveCursor64_agrees.
  - unfold in_int, int_min, int_max. simpl. lia.
  - unfold in_int, int_min, int_max. simpl. lia.
  - unfold no_overflow, small. repeat split; vm_compute; reflexivity.
Defined.
